(** * LinkedIn Lead Scorer: card watcher and provider adapter

    A shallow embedding of [src/scripts/content.js] (the card watcher that
    runs in the page), [src/scripts/background.js] (the provider adapter
    that runs in the service worker) and the handlers of the popup,
    followed by the properties of the card-deduplication and
    provider-adapter core.

    Conventions of the embedding.
    - A JavaScript string is the list of its UTF-16 code units ([list N]).
    - A JavaScript number is modelled by its exact decimal value
      [mant * 10 ^ expo]; binary64 rounding and overflow are outside the
      model, which agrees with the code on the numerals that binary64
      represents exactly.  Integer scores are [num_of_Z], and what depends
      on the value of a number read from a response is stated for the
      integers of at most 2^53 in absolute value.
    - A thrown exception is a value of [JsError]; a function that can throw
      returns [Completion].
    - The DOM is abstracted to what the scripts read from it and write to
      it: per card element, its text, the results of the selector queries
      the scripts make, and the badges the scripts appended.  Card
      elements are taken not to lie inside one another, so that a badge
      belongs to one card.
    - An [async] function is cut at its [await]: the part before it runs
      when the function is called, the part after it when the awaited
      promise settles, which is an event of its own.
    - The host page and the network are the environment: the page may
      change at any time ([HostUpdate]), and [fetch] answers as the
      network ([Request -> FetchOutcome]) decides. *)

From Stdlib Require Import ZArith NArith List String Ascii Bool Lia.
From stdpp Require Import base decidable countable gmap list.
Import ListNotations.

Set Warnings "-register-all,-clear-no-such-hyp".
Local Open Scope N_scope.

(** ** JavaScript strings *)

Module Js.

Definition jsstring := list N.

(** A string literal of the source (ASCII and Latin-1 only). *)
Fixpoint js (s : string) : jsstring :=
  match s with
  | EmptyString => []
  | String a s' => N_of_ascii a :: js s'
  end.

Arguments js : simpl never.

Definition jsstring_eqb (a b : jsstring) : bool := bool_decide (a = b).

(** WhiteSpace and LineTerminator code units: what [String.prototype.trim]
    strips and what the regular-expression class [\s] matches. *)
Definition is_space (c : N) : bool :=
  ((9 <=? c) && (c <=? 13)) || (c =? 32) || (c =? 160) || (c =? 5760)
  || ((8192 <=? c) && (c <=? 8202)) || (c =? 8232) || (c =? 8233)
  || (c =? 8239) || (c =? 8287) || (c =? 12288) || (c =? 65279).

Definition is_newline (c : N) : bool := c =? 10.

Fixpoint skipWhile (p : N -> bool) (s : jsstring) : jsstring :=
  match s with
  | [] => []
  | c :: s' => if p c then skipWhile p s' else s
  end.

Definition trimStart (s : jsstring) : jsstring := skipWhile is_space s.
Definition trimEnd (s : jsstring) : jsstring := rev (skipWhile is_space (rev s)).

(** [s.trim()] *)
Definition trim (s : jsstring) : jsstring := trimEnd (trimStart s).

(** [s.replace(/C+/g, r)] for a character class [C] given as [p]: every
    maximal run of code units in the class becomes the replacement [r]. *)
Fixpoint replace_runs_from (p : N -> bool) (r : jsstring) (in_run : bool)
    (s : jsstring) : jsstring :=
  match s with
  | [] => []
  | c :: s' =>
      if p c then
        if in_run then replace_runs_from p r true s'
        else r ++ replace_runs_from p r true s'
      else c :: replace_runs_from p r false s'
  end.

Definition replace_runs (p : N -> bool) (r : jsstring) (s : jsstring) : jsstring :=
  replace_runs_from p r false s.

(** [!s] *)
Definition is_empty (s : jsstring) : bool :=
  match s with [] => true | _ :: _ => false end.

(** [s.substring(0, n)] *)
Definition substring0 (n : nat) (s : jsstring) : jsstring := firstn n s.

Fixpoint startsWith (pat s : jsstring) : bool :=
  match pat, s with
  | [], _ => true
  | _ :: _, [] => false
  | a :: pat', c :: s' => (a =? c) && startsWith pat' s'
  end.

(** [s.includes(pat)] *)
Fixpoint includes (s pat : jsstring) : bool :=
  startsWith pat s ||
  match s with
  | [] => false
  | _ :: s' => includes s' pat
  end.

(** [s.toLowerCase()], restricted to the mapping of [A-Z].  The only use in
    the source is followed by [.includes('default')]; no code unit outside
    [A-Z] lower-cases to one of the letters of that pattern, so the
    restriction does not change the result of that test. *)
Definition lower_unit (c : N) : N :=
  if (65 <=? c) && (c <=? 90) then c + 32 else c.
Definition toLowerCase (s : jsstring) : jsstring := map lower_unit s.

(** *** Errors and completions *)

Inductive ErrorName :=
  | NameError | NameTypeError | NameSyntaxError | NameInvalidCharacterError.

Record JsError := mkError { err_name : ErrorName; err_message : jsstring }.

(** The outcome of evaluating something that can throw. *)
Inductive Completion (A : Type) :=
  | Normal (a : A)
  | Throw (e : JsError).
Arguments Normal {A} a.
Arguments Throw {A} e.

Definition bindC {A B} (c : Completion A) (k : A -> Completion B) : Completion B :=
  match c with
  | Normal a => k a
  | Throw e => Throw e
  end.

(** *** [btoa] *)

Definition b64_char (i : N) : N :=
  if i <? 26 then 65 + i
  else if i <? 52 then 97 + (i - 26)
  else if i <? 62 then 48 + (i - 52)
  else if i =? 62 then 43
  else 47.

Definition pad : N := 61.

Fixpoint b64_encode (bytes : list N) : jsstring :=
  match bytes with
  | [] => []
  | [a] =>
      [b64_char (N.shiftr a 2); b64_char (N.shiftl (N.land a 3) 4); pad; pad]
  | [a; b] =>
      [b64_char (N.shiftr a 2);
       b64_char (N.lor (N.shiftl (N.land a 3) 4) (N.shiftr b 4));
       b64_char (N.shiftl (N.land b 15) 2); pad]
  | a :: b :: c :: rest =>
      b64_char (N.shiftr a 2)
      :: b64_char (N.lor (N.shiftl (N.land a 3) 4) (N.shiftr b 4))
      :: b64_char (N.lor (N.shiftl (N.land b 15) 2) (N.shiftr c 6))
      :: b64_char (N.land c 63)
      :: b64_encode rest
  end.

(** [btoa(s)]: throws [InvalidCharacterError] when a code unit is above
    U+00FF, otherwise the Base64 encoding of the Latin-1 bytes. *)
Definition btoa (s : jsstring) : Completion jsstring :=
  if forallb (fun c => c <=? 255) s then Normal (b64_encode s)
  else Throw (mkError NameInvalidCharacterError
                (js "Failed to execute 'btoa' on 'Window': The string to be encoded contains characters outside of the Latin1 range.")).

Definition is_alnum (c : N) : bool :=
  ((97 <=? c) && (c <=? 122)) || ((65 <=? c) && (c <=? 90))
  || ((48 <=? c) && (c <=? 57)).

(** [s.replace(/[^a-zA-Z0-9]/g, '')] *)
Definition strip_non_alnum (s : jsstring) : jsstring := List.filter is_alnum s.

(** *** Numbers *)

(** The number [mant * 10 ^ expo], kept exactly. *)
Record JsNumber := mkNum { mant : Z; expo : Z }.

Definition num_of_Z (z : Z) : JsNumber := mkNum z 0.

(** [n >= k] for an integer constant [k]. *)
Definition num_ge (n : JsNumber) (k : Z) : bool :=
  if (0 <=? expo n)%Z then (k <=? mant n * 10 ^ expo n)%Z
  else (k * 10 ^ (- expo n) <=? mant n)%Z.

Fixpoint uint_units (u : Decimal.uint) : jsstring :=
  match u with
  | Decimal.Nil => []
  | Decimal.D0 u' => 48 :: uint_units u'
  | Decimal.D1 u' => 49 :: uint_units u'
  | Decimal.D2 u' => 50 :: uint_units u'
  | Decimal.D3 u' => 51 :: uint_units u'
  | Decimal.D4 u' => 52 :: uint_units u'
  | Decimal.D5 u' => 53 :: uint_units u'
  | Decimal.D6 u' => 54 :: uint_units u'
  | Decimal.D7 u' => 55 :: uint_units u'
  | Decimal.D8 u' => 56 :: uint_units u'
  | Decimal.D9 u' => 57 :: uint_units u'
  end.

(** The decimal digits of a natural number ([String(n)] for an integer
    [n >= 0] below [10^21]). *)
Definition N_to_string (n : N) : jsstring := uint_units (N.to_uint n).

(** [String(n)] for the number [n]: the digits [ds] of the mantissa without
    trailing zeros, [k] of them, and the position [p] of the decimal point
    relative to their start, laid out as Number::toString does. *)
Definition zeros (n : nat) : jsstring := repeat 48 n.

Definition num_to_string (n : JsNumber) : jsstring :=
  if (mant n =? 0)%Z then js "0"
  else
    let sign := if (mant n <? 0)%Z then js "-" else [] in
    let all := N_to_string (Z.abs_N (mant n)) in
    let ds := rev (skipWhile (fun c => c =? 48) (rev all)) in
    let k := Z.of_nat (length ds) in
    let p := (Z.of_nat (length all) + expo n)%Z in
    sign ++
    (if ((k <=? p) && (p <=? 21))%Z then ds ++ zeros (Z.to_nat (p - k))
     else if ((0 <? p) && (p <=? 21))%Z then
       firstn (Z.to_nat p) ds ++ js "." ++ skipn (Z.to_nat p) ds
     else if ((-6 <? p) && (p <=? 0))%Z then
       js "0." ++ zeros (Z.to_nat (- p)) ++ ds
     else
       let e := (p - 1)%Z in
       let es := (if (e <? 0)%Z then js "-" else js "+")
                 ++ N_to_string (Z.abs_N e) in
       match ds with
       | [d] => [d] ++ js "e" ++ es
       | d :: rest => [d] ++ js "." ++ rest ++ js "e" ++ es
       | [] => []
       end).

(** *** Values *)

Inductive JsValue :=
  | JUndefined
  | JNull
  | JBool (b : bool)
  | JNum (n : JsNumber)
  | JStr (s : jsstring)
  | JArr (items : list JsValue)
  | JObj (fields : list (jsstring * JsValue)).

Inductive JsType := TUndefined | TObject | TBoolean | TNumber | TString.

(** [typeof v] *)
Definition typeof (v : JsValue) : JsType :=
  match v with
  | JUndefined => TUndefined
  | JNull | JArr _ | JObj _ => TObject
  | JBool _ => TBoolean
  | JNum _ => TNumber
  | JStr _ => TString
  end.

(** [String(v)], as template literals and [JSON.parse] apply it. *)
Fixpoint to_string (v : JsValue) : jsstring :=
  match v with
  | JUndefined => js "undefined"
  | JNull => js "null"
  | JBool true => js "true"
  | JBool false => js "false"
  | JNum n => num_to_string n
  | JStr s => s
  | JArr items =>
      (fix join (l : list JsValue) : jsstring :=
         let elt x := match x with
                      | JUndefined | JNull => []
                      | _ => to_string x
                      end in
         match l with
         | [] => []
         | [x] => elt x
         | x :: l' => elt x ++ js "," ++ join l'
         end) items
  | JObj _ => js "[object Object]"
  end.

(** The own property [k] of an object built by [JSON.parse]; of duplicate
    keys the last one wins. *)
Fixpoint own_property (fields : list (jsstring * JsValue)) (k : jsstring)
    : JsValue :=
  match fields with
  | [] => JUndefined
  | (k', v) :: rest =>
      match own_property rest k with
      | JUndefined => if jsstring_eqb k' k then v else JUndefined
      | found => found
      end
  end.

Definition cannot_read (v : JsValue) (k : jsstring) : JsError :=
  mkError NameTypeError
    (js "Cannot read properties of " ++ to_string v ++ js " (reading '"
     ++ k ++ js "')").

(** [v.k] for a property name [k] that is not an index, not ["length"] and
    not the name of a property of a built-in prototype (the source reads
    [choices], [message], [content], [candidates], [parts], [text],
    [totalScore] and [reasoning]). *)
Definition get_prop (v : JsValue) (k : jsstring) : Completion JsValue :=
  match v with
  | JUndefined | JNull => Throw (cannot_read v k)
  | JObj fields => Normal (own_property fields k)
  | _ => Normal JUndefined
  end.

(** [v[0]] *)
Definition get_first (v : JsValue) : Completion JsValue :=
  match v with
  | JUndefined | JNull => Throw (cannot_read v (js "0"))
  | JObj fields => Normal (own_property fields (js "0"))
  | JArr items => Normal (match items with x :: _ => x | [] => JUndefined end)
  | JStr s => Normal (match s with c :: _ => JStr [c] | [] => JUndefined end)
  | _ => Normal JUndefined
  end.

(** *** [JSON.stringify] *)

Definition hex_digit (n : N) : N := if n <? 10 then 48 + n else 87 + n.

(** The escape [\uXXXX] of a code unit. *)
Definition unicode_escape (c : N) : jsstring :=
  [92; 117; hex_digit (c / 4096 mod 16); hex_digit (c / 256 mod 16);
   hex_digit (c / 16 mod 16); hex_digit (c mod 16)].

Definition is_high_surrogate (c : N) : bool := (55296 <=? c) && (c <=? 56319).
Definition is_low_surrogate (c : N) : bool := (56320 <=? c) && (c <=? 57343).

Fixpoint quote_units (s : jsstring) : jsstring :=
  match s with
  | [] => []
  | c :: r =>
      if c =? 34 then [92; 34] ++ quote_units r
      else if c =? 92 then [92; 92] ++ quote_units r
      else if c =? 8 then [92; 98] ++ quote_units r
      else if c =? 12 then [92; 102] ++ quote_units r
      else if c =? 10 then [92; 110] ++ quote_units r
      else if c =? 13 then [92; 114] ++ quote_units r
      else if c =? 9 then [92; 116] ++ quote_units r
      else if c <? 32 then unicode_escape c ++ quote_units r
      else if is_high_surrogate c then
        match r with
        | d :: r' =>
            if is_low_surrogate d then c :: d :: quote_units r'
            else unicode_escape c ++ quote_units r
        | [] => unicode_escape c
        end
      else if is_low_surrogate c then unicode_escape c ++ quote_units r
      else c :: quote_units r
  end.

(** [JSON.stringify(s)] for a string [s] *)
Definition quote_json (s : jsstring) : jsstring := [34] ++ quote_units s ++ [34].

Fixpoint join_with (sep : jsstring) (parts : list jsstring) : jsstring :=
  match parts with
  | [] => []
  | [x] => x
  | x :: rest => x ++ sep ++ join_with sep rest
  end.

(** [JSON.stringify(v)]; [None] is the result [undefined].  An object is
    given by the list of its properties, whose names are distinct. *)
Fixpoint stringify (v : JsValue) : option jsstring :=
  match v with
  | JUndefined => None
  | JNull => Some (js "null")
  | JBool true => Some (js "true")
  | JBool false => Some (js "false")
  | JNum n => Some (num_to_string n)
  | JStr s => Some (quote_json s)
  | JArr items =>
      Some (js "[" ++
            join_with (js ",")
              ((fix each (l : list JsValue) : list jsstring :=
                  match l with
                  | [] => []
                  | x :: l' =>
                      match stringify x with
                      | Some t => t
                      | None => js "null"
                      end :: each l'
                  end) items)
            ++ js "]")
  | JObj fields =>
      Some (js "{" ++
            join_with (js ",")
              ((fix each (l : list (jsstring * JsValue)) : list jsstring :=
                  match l with
                  | [] => []
                  | (k, x) :: l' =>
                      match stringify x with
                      | Some t => (quote_json k ++ js ":" ++ t) :: each l'
                      | None => each l'
                      end
                  end) fields)
            ++ js "}")
  end.

(** [JSON.stringify(v)] where the result is used as a string. *)
Definition JSON_stringify (v : JsValue) : jsstring :=
  match stringify v with
  | Some t => t
  | None => js "undefined"
  end.

(** *** [JSON.parse] *)

(** JSON white space: space, tab, line feed, carriage return. *)
Definition is_json_ws (c : N) : bool :=
  (c =? 32) || (c =? 9) || (c =? 10) || (c =? 13).

Definition is_digit (c : N) : bool := (48 <=? c) && (c <=? 57).

Definition hex_value (c : N) : option N :=
  if is_digit c then Some (c - 48)
  else if (97 <=? c) && (c <=? 102) then Some (c - 87)
  else if (65 <=? c) && (c <=? 70) then Some (c - 55)
  else None.

(** The characters of a string literal after its opening quote, up to and
    including the closing quote; [acc] holds the decoded prefix reversed. *)
Fixpoint parse_chars (s : jsstring) (acc : jsstring)
    : option (jsstring * jsstring) :=
  match s with
  | [] => None
  | c :: r =>
      if c =? 34 then Some (rev acc, r)
      else if c =? 92 then
        match r with
        | [] => None
        | e :: r2 =>
            if e =? 117 then
              match r2 with
              | h1 :: h2 :: h3 :: h4 :: r3 =>
                  match hex_value h1, hex_value h2, hex_value h3, hex_value h4 with
                  | Some a, Some b, Some c', Some d =>
                      parse_chars r3 (((a * 16 + b) * 16 + c') * 16 + d :: acc)
                  | _, _, _, _ => None
                  end
              | _ => None
              end
            else if (e =? 34) || (e =? 92) || (e =? 47) then parse_chars r2 (e :: acc)
            else if e =? 98 then parse_chars r2 (8 :: acc)
            else if e =? 102 then parse_chars r2 (12 :: acc)
            else if e =? 110 then parse_chars r2 (10 :: acc)
            else if e =? 114 then parse_chars r2 (13 :: acc)
            else if e =? 116 then parse_chars r2 (9 :: acc)
            else None
        end
      else if c <? 32 then None
      else parse_chars r (c :: acc)
  end.

(** A maximal run of digits, as the number it denotes and its length. *)
Fixpoint parse_digits (s : jsstring) (acc : Z) (len : Z) : Z * Z * jsstring :=
  match s with
  | c :: r =>
      if is_digit c then parse_digits r (acc * 10 + Z.of_N (c - 48))%Z (len + 1)%Z
      else (acc, len, s)
  | [] => (acc, len, s)
  end.

(** A JSON number: an optional minus sign, an integer part without a
    superfluous leading zero, an optional fraction and an optional
    exponent.  The result is the number the numeral denotes; [JSON.parse]
    gives the binary64 number nearest to it, which is the same number when
    binary64 represents it exactly (every integer of at most 2^53 in
    absolute value, for one). *)
Definition parse_number (s : jsstring) : option (JsNumber * jsstring) :=
  let '(neg, s1) := match s with
                    | c :: r => if c =? 45 then (true, r) else (false, s)
                    | [] => (false, s)
                    end in
  let '(ip, ilen, s2) := parse_digits s1 0%Z 0%Z in
  let leading_zero := match s1 with c :: _ => c =? 48 | [] => false end in
  if (ilen =? 0)%Z || (leading_zero && (1 <? ilen)%Z) then None
  else
    let frac := match s2 with
                | c :: r =>
                    if c =? 46 then
                      let '(m, flen, s3) := parse_digits r ip 0%Z in
                      if (flen =? 0)%Z then None else Some (m, flen, s3)
                    else Some (ip, 0%Z, s2)
                | [] => Some (ip, 0%Z, s2)
                end in
    match frac with
    | None => None
    | Some (m, flen, s3) =>
        let ex := match s3 with
                  | c :: r =>
                      if (c =? 101) || (c =? 69) then
                        let '(eneg, r') :=
                          match r with
                          | d :: r'' =>
                              if d =? 45 then (true, r'')
                              else if d =? 43 then (false, r'')
                              else (false, r)
                          | [] => (false, r)
                          end in
                        let '(e, elen, s4) := parse_digits r' 0%Z 0%Z in
                        if (elen =? 0)%Z then None
                        else Some ((if eneg then - e else e)%Z, s4)
                      else Some (0%Z, s3)
                  | [] => Some (0%Z, s3)
                  end in
        match ex with
        | None => None
        | Some (e, s4) =>
            Some (mkNum (if neg then - m else m)%Z (e - flen)%Z, s4)
        end
    end.

(** A JSON value at the head of [s] (after white space), and the rest of
    the input.  [fuel] bounds the number of nested and successive values. *)
Fixpoint parse_value (fuel : nat) (s : jsstring) : option (JsValue * jsstring) :=
  match fuel with
  | O => None
  | S fuel' =>
      match skipWhile is_json_ws s with
      | [] => None
      | c :: r =>
          if c =? 123 then
            match skipWhile is_json_ws r with
            | c' :: r' =>
                if c' =? 125 then Some (JObj [], r')
                else parse_members fuel' (c' :: r') []
            | [] => None
            end
          else if c =? 91 then
            match skipWhile is_json_ws r with
            | c' :: r' =>
                if c' =? 93 then Some (JArr [], r')
                else parse_elements fuel' (c' :: r') []
            | [] => None
            end
          else if c =? 34 then
            match parse_chars r [] with
            | Some (str, r') => Some (JStr str, r')
            | None => None
            end
          else if startsWith (js "true") (c :: r) then Some (JBool true, skipn 4 (c :: r))
          else if startsWith (js "false") (c :: r) then Some (JBool false, skipn 5 (c :: r))
          else if startsWith (js "null") (c :: r) then Some (JNull, skipn 4 (c :: r))
          else
            match parse_number (c :: r) with
            | Some (n, r') => Some (JNum n, r')
            | None => None
            end
      end
  end
with parse_elements (fuel : nat) (s : jsstring) (acc : list JsValue)
    : option (JsValue * jsstring) :=
  match fuel with
  | O => None
  | S fuel' =>
      match parse_value fuel' s with
      | Some (v, r) =>
          match skipWhile is_json_ws r with
          | c :: r' =>
              if c =? 44 then parse_elements fuel' r' (v :: acc)
              else if c =? 93 then Some (JArr (rev (v :: acc)), r')
              else None
          | [] => None
          end
      | None => None
      end
  end
with parse_members (fuel : nat) (s : jsstring) (acc : list (jsstring * JsValue))
    : option (JsValue * jsstring) :=
  match fuel with
  | O => None
  | S fuel' =>
      match skipWhile is_json_ws s with
      | c :: r =>
          if c =? 34 then
            match parse_chars r [] with
            | Some (k, r1) =>
                match skipWhile is_json_ws r1 with
                | c1 :: r2 =>
                    if c1 =? 58 then
                      match parse_value fuel' r2 with
                      | Some (v, r3) =>
                          match skipWhile is_json_ws r3 with
                          | c3 :: r4 =>
                              if c3 =? 44 then parse_members fuel' r4 ((k, v) :: acc)
                              else if c3 =? 125 then Some (JObj (rev ((k, v) :: acc)), r4)
                              else None
                          | [] => None
                          end
                      | None => None
                      end
                    else None
                | [] => None
                end
            | None => None
            end
          else None
      | [] => None
      end
  end.

Definition json_syntax_error : JsError :=
  mkError NameSyntaxError (js "Unexpected token in JSON").

(** [JSON.parse(text)] for a string [text]: every value, element and member
    consumes at least one code unit, so twice the length of the input (and
    two more) is fuel enough. *)
Definition JSON_parse_text (text : jsstring) : Completion JsValue :=
  match parse_value (2 * length text + 2) text with
  | Some (v, rest) =>
      match skipWhile is_json_ws rest with
      | [] => Normal v
      | _ :: _ => Throw json_syntax_error
      end
  | None => Throw json_syntax_error
  end.

(** [JSON.parse(v)]: the argument is converted to a string first. *)
Definition JSON_parse (v : JsValue) : Completion JsValue :=
  JSON_parse_text (to_string v).

End Js.

(** ** What the two scripts exchange *)

Module Messages.
Import Js.

(** The snapshot of a card: the [profileData] of a [scoreProfile] message. *)
Record ProfileData := mkProfileData { text : jsstring; hasProfilePic : JsValue }.

End Messages.

(** ** The provider adapter ([src/scripts/background.js]) *)

Module Background.
Import Js Messages.

Definition quoted (s : jsstring) : jsstring := [34] ++ s ++ [34].

(** An HTTP request handed to [fetch]. *)
Record Request := mkRequest {
  req_url : jsstring;
  req_method : jsstring;
  req_headers : list (jsstring * jsstring);
  req_body : jsstring
}.

(** What [fetch] settles with: a rejection, or a response with its status
    and its body text. *)
Inductive FetchOutcome :=
  | NetworkError (e : JsError)
  | HttpResponse (status : N) (body : jsstring).

(** [response.ok] *)
Definition response_ok (status : N) : bool := (200 <=? status) && (status <=? 299).

(** *** Computations that issue HTTP requests and can throw *)

Definition Net (A : Type) : Type :=
  (Request -> FetchOutcome) -> list Request -> Completion A * list Request.

Definition ret {A} (a : A) : Net A := fun _ log => (Normal a, log).
Definition throw {A} (e : JsError) : Net A := fun _ log => (Throw e, log).
Definition bind {A B} (m : Net A) (k : A -> Net B) : Net B :=
  fun net log =>
    match m net log with
    | (Normal a, log') => k a net log'
    | (Throw e, log') => (Throw e, log')
    end.
Definition try_catch {A} (body : Net A) (handler : JsError -> Net A) : Net A :=
  fun net log =>
    match body net log with
    | (Normal a, log') => (Normal a, log')
    | (Throw e, log') => handler e net log'
    end.
Definition lift {A} (c : Completion A) : Net A := fun _ log => (c, log).

(** [await fetch(url, options)]: the request is recorded, and the outcome
    is the network's. *)
Definition fetch (r : Request) : Net (N * jsstring) :=
  fun net log =>
    match net r with
    | NetworkError e => (Throw e, log ++ [r])
    | HttpResponse status body => (Normal (status, body), log ++ [r])
    end.

Notation "'let*' x ':=' m 'in' k" := (bind m (fun x => k))
  (at level 10, x pattern, m at level 100, k at level 200).

(** *** [API_CONFIGS] *)

Inductive BaseUrl :=
  | UrlConstant (u : jsstring)
  | UrlFunction (f : jsstring -> jsstring -> jsstring).

Record Config := mkConfig {
  baseUrl : BaseUrl;
  headers : jsstring -> list (jsstring * jsstring);
  formatRequest : jsstring -> jsstring -> ProfileData -> JsValue;
  parseResponse : JsValue -> Completion JsValue
}.

(** The text [Profile Data:\n${text}\nHas Profile Picture: ${hasProfilePic}] *)
Definition profile_block (profileData : ProfileData) : jsstring :=
  js "Profile Data:" ++ [10] ++ text profileData ++ [10]
  ++ js "Has Profile Picture: " ++ to_string (hasProfilePic profileData).

Definition openai : Config := {|
  baseUrl := UrlConstant (js "https://api.openai.com/v1/chat/completions");
  headers := fun apiKey =>
    [(js "Authorization", js "Bearer " ++ apiKey);
     (js "Content-Type", js "application/json")];
  formatRequest := fun model prompt profileData =>
    JObj [(js "model", JStr model);
          (js "messages",
           JArr [JObj [(js "role", JStr (js "system"));
                       (js "content", JStr prompt)];
                 JObj [(js "role", JStr (js "user"));
                       (js "content", JStr (profile_block profileData))]]);
          (js "max_tokens", JNum (num_of_Z 300));
          (js "temperature", JNum (mkNum 1 (-1)))];
  parseResponse := fun response =>
    bindC (get_prop response (js "choices")) (fun choices =>
    bindC (get_first choices) (fun choice =>
    bindC (get_prop choice (js "message")) (fun message =>
    bindC (get_prop message (js "content")) (fun content =>
    JSON_parse content))))
|}.

Definition gemini : Config := {|
  baseUrl := UrlFunction (fun model apiKey =>
    js "https://generativelanguage.googleapis.com/v1beta/models/" ++ model
    ++ js ":generateContent?key=" ++ apiKey);
  headers := fun _ => [(js "Content-Type", js "application/json")];
  formatRequest := fun model prompt profileData =>
    JObj [(js "contents",
           JArr [JObj [(js "parts",
                        JArr [JObj [(js "text",
                                     JStr (prompt ++ [10; 10]
                                           ++ profile_block profileData))]])]]);
          (js "generationConfig",
           JObj [(js "temperature", JNum (mkNum 1 (-1)));
                 (js "maxOutputTokens", JNum (num_of_Z 300))])];
  parseResponse := fun response =>
    bindC (get_prop response (js "candidates")) (fun candidates =>
    bindC (get_first candidates) (fun candidate =>
    bindC (get_prop candidate (js "content")) (fun c =>
    bindC (get_prop c (js "parts")) (fun parts =>
    bindC (get_first parts) (fun part =>
    bindC (get_prop part (js "text")) (fun content =>
    JSON_parse content))))))
|}.

Definition anthropic : Config := {|
  baseUrl := UrlConstant (js "https://api.anthropic.com/v1/messages");
  headers := fun apiKey =>
    [(js "x-api-key", apiKey);
     (js "Content-Type", js "application/json");
     (js "anthropic-version", js "2023-06-01")];
  formatRequest := fun model prompt profileData =>
    JObj [(js "model", JStr model);
          (js "max_tokens", JNum (num_of_Z 300));
          (js "messages",
           JArr [JObj [(js "role", JStr (js "user"));
                       (js "content",
                        JStr (prompt ++ [10; 10] ++ profile_block profileData))]])];
  parseResponse := fun response =>
    bindC (get_prop response (js "content")) (fun c =>
    bindC (get_first c) (fun block =>
    bindC (get_prop block (js "text")) (fun content =>
    JSON_parse content)))
|}.

(** The names every object literal inherits from [Object.prototype]; each
    of them reads as a function or an object, which is truthy and has
    neither [baseUrl] nor [headers]. *)
Definition Object_prototype_names : list jsstring :=
  map js ["constructor"; "__defineGetter__"; "__defineSetter__";
          "hasOwnProperty"; "__lookupGetter__"; "__lookupSetter__";
          "isPrototypeOf"; "propertyIsEnumerable"; "toString"; "valueOf";
          "__proto__"; "toLocaleString"]%string.

(** What [API_CONFIGS[provider]] evaluates to. *)
Inductive ConfigLookup :=
  | OwnConfig (c : Config)
  | Inherited
  | NoConfig.

Definition API_CONFIGS (provider : jsstring) : ConfigLookup :=
  if jsstring_eqb provider (js "openai") then OwnConfig openai
  else if jsstring_eqb provider (js "gemini") then OwnConfig gemini
  else if jsstring_eqb provider (js "anthropic") then OwnConfig anthropic
  else if existsb (jsstring_eqb provider) Object_prototype_names then Inherited
  else NoConfig.

(** *** [SCORING_PROMPT] *)

Definition SCORING_PROMPT : jsstring :=
  js "You are an AI assistant that evaluates LinkedIn profiles based on a strict set of rules. Analyze the following profile text and return ONLY a JSON object with two keys: "
  ++ quoted (js "totalScore") ++ js " and " ++ quoted (js "reasoning")
  ++ js ".

Scoring Rules:
- Base Score: 0
- Positive Keywords (+10): Add 10 if headline contains: 'Founder', 'VC', 'Investor', 'Angel', 'Entrepreneur', 'Stealth', or 'Building'.
- Negative Keywords (-10): Subtract 10 if headline contains: 'banker', 'realtor', or 'loan'.
- Industry (+5): Add 5 if headline suggests industries like 'Startup', 'Venture Capital', 'Computer Software', or 'Internet'.
- Location (+5): Add 5 if location is 'Bangalore', 'San Francisco', or 'San Francisco Bay Area'.
- Profile Picture (+1): Add 1 point if the user has a profile picture (this will be passed as a boolean).
- Education (+5): Add 5 if the headline explicitly mentions a globally recognized top-tier university (e.g., 'Stanford', 'MIT', 'CMU', 'IIT').

Calculate the sum and provide a brief justification in the 'reasoning' string.".

(** *** [callLLMAPI] *)

Definition new_Error (message : jsstring) : JsError := mkError NameError message.

Definition typeof_is (t : JsType) (v : JsValue) : bool :=
  match typeof v, t with
  | TUndefined, TUndefined | TObject, TObject | TBoolean, TBoolean
  | TNumber, TNumber | TString, TString => true
  | _, _ => false
  end.

Definition is_SyntaxError (e : JsError) : bool :=
  match err_name e with NameSyntaxError => true | _ => false end.

Definition callLLMAPI (provider model apiKey : jsstring) (profileData : ProfileData)
    : Net JsValue :=
  match API_CONFIGS provider with
  | NoConfig => throw (new_Error (js "Unsupported provider: " ++ provider))
  | found =>
      try_catch
        (match found with
         | OwnConfig config =>
             let url := match baseUrl config with
                        | UrlFunction f => f model apiKey
                        | UrlConstant u => u
                        end in
             let hdrs := headers config apiKey in
             let body := formatRequest config model SCORING_PROMPT profileData in
             let* response :=
               fetch {| req_url := url; req_method := js "POST";
                        req_headers := hdrs; req_body := JSON_stringify body |} in
             let '(status, responseText) := response in
             if negb (response_ok status) then
               throw (new_Error (js "API request failed (" ++ N_to_string status
                                 ++ js "): " ++ responseText))
             else
               let* responseData := lift (JSON_parse_text responseText) in
               let* result := lift (parseResponse config responseData) in
               let* totalScore := lift (get_prop result (js "totalScore")) in
               if negb (typeof_is TNumber totalScore) then
                 throw (new_Error (js "Invalid response format from LLM"))
               else
                 let* reasoning := lift (get_prop result (js "reasoning")) in
                 if negb (typeof_is TString reasoning) then
                   throw (new_Error (js "Invalid response format from LLM"))
                 else ret result
         | _ =>
             (* an inherited property has no [headers] method *)
             throw (mkError NameTypeError (js "config.headers is not a function"))
         end)
        (fun error =>
           if is_SyntaxError error then
             throw (new_Error (js "LLM returned invalid JSON response"))
           else throw error)
  end.

(** *** Message handlers *)

(** The result of [chrome.storage.sync.get]; a key that was never saved is
    [None]. *)
Record Settings := mkSettings {
  modelProvider : option jsstring;
  modelSelection : option jsstring;
  apiKey : option jsstring
}.

(** The object passed to [sendResponse]. *)
Inductive Reply :=
  | ReplyScore (score reasoning : JsValue)
  | ReplyConnected (message : jsstring)
  | ReplyFailure (error : jsstring).

(** [!s] for a setting [s] *)
Definition falsy (s : option jsstring) : bool :=
  match s with
  | None | Some [] => true
  | Some (_ :: _) => false
  end.

Definition setting (s : option jsstring) : jsstring :=
  match s with Some v => v | None => [] end.

(** [error.message || fallback] *)
Definition message_or (error : JsError) (fallback : jsstring) : jsstring :=
  match err_message error with
  | [] => fallback
  | m => m
  end.

Definition handleScoreProfile (settings : Settings) (profileData : ProfileData)
    : Net Reply :=
  try_catch
    (if falsy (modelProvider settings) || falsy (modelSelection settings)
        || falsy (apiKey settings)
     then
       ret (ReplyFailure
              (js "Extension not configured. Please set up your API key in the popup."))
     else
       let* result := callLLMAPI (setting (modelProvider settings))
                        (setting (modelSelection settings))
                        (setting (apiKey settings)) profileData in
       let* totalScore := lift (get_prop result (js "totalScore")) in
       let* reasoning := lift (get_prop result (js "reasoning")) in
       ret (ReplyScore totalScore reasoning))
    (fun error => ret (ReplyFailure (message_or error (js "Failed to score profile")))).

Definition testProfileData : ProfileData := {|
  text := js "John Doe" ++ [10] ++ js "Software Engineer at Tech Company" ++ [10]
          ++ js "San Francisco, CA" ++ [10] ++ js "5 mutual connections";
  hasProfilePic := JBool true
|}.

Definition handleTestConnection (provider model key : jsstring) : Net Reply :=
  try_catch
    (let* result := callLLMAPI provider model key testProfileData in
     ret (ReplyConnected (js "Connection successful")))
    (fun error => ret (ReplyFailure (message_or error (js "Connection failed")))).

(** A message arriving at the service worker. *)
Inductive Message :=
  | ScoreProfile (profileData : ProfileData)
  | TestConnection (provider model key : jsstring)
  | OtherMessage.

(** The [onMessage] listener: the reply, if the message is one it answers. *)
Definition onMessage (settings : Settings) (request : Message) : Net (option Reply) :=
  match request with
  | ScoreProfile profileData =>
      let* r := handleScoreProfile settings profileData in ret (Some r)
  | TestConnection provider model key =>
      let* r := handleTestConnection provider model key in ret (Some r)
  | OtherMessage => ret None
  end.

End Background.

(** ** The card watcher ([src/scripts/content.js]) *)

Module Content.
Import Js Messages.

(** *** The page, as the script sees it *)

(** The [src] and [alt] of an image element. *)
Record Img := mkImg { src : jsstring; alt : jsstring }.

(** A badge element created by the script; [badge_id] stands for the
    identity of the element. *)
Record Badge := mkBadge {
  badge_id : nat;
  className : jsstring;
  title : jsstring;
  badge_textContent : jsstring
}.

(** The element [insertScoreBadge] appends a badge to. *)
Inductive Location := BesideAcceptButton | InCardContent | InCard.

(** A card-like element of the page.  [text_before] and [text_after] are
    the parts of its own text content before and after the end of the
    element to which badges are appended when the card has an accept
    button or a content area; the three [sel_] flags say which of the
    selectors of [SELECTORS.invitationCard] the element matches.  The
    pages described are those on which no card-like element lies inside
    another one: a badge belongs to one card. *)
Record Card := mkCard {
  sel_invitation_card : bool;
  sel_data_test : bool;
  sel_entity_lockup : bool;
  text_before : jsstring;
  text_after : jsstring;
  acceptButton : bool;
  cardContent : bool;
  profileImage : option Img;
  badges : list (Location * Badge)
}.

Definition in_card (b : Location * Badge) : bool :=
  match fst b with InCard => true | _ => false end.

(** The text of the badges of [l], in their order. *)
Definition badges_text (l : list (Location * Badge)) : jsstring :=
  concat (map (fun b => badge_textContent (snd b)) l).

(** [card.textContent]: a badge appended to the card itself comes after
    all of the card's text. *)
Definition textContent (card : Card) : jsstring :=
  text_before card
  ++ badges_text (List.filter (fun b => negb (in_card b)) (badges card))
  ++ text_after card
  ++ badges_text (List.filter in_card (badges card)).

(** The badges in document order: [badges] lists them as they were
    appended, and those appended to the card itself come last in the
    document. *)
Definition document_order (l : list (Location * Badge))
    : list (Location * Badge) :=
  List.filter (fun b => negb (in_card b)) l ++ List.filter in_card l.

(** [card.querySelector('.lead-scorer-badge')] *)
Definition first_badge (card : Card) : option Badge :=
  match document_order (badges card) with
  | (_, b) :: _ => Some b
  | [] => None
  end.

Definition has_badge (card : Card) : bool :=
  match first_badge card with Some _ => true | None => false end.

(** [element.matches(selector)] for the [i]-th selector of
    [SELECTORS.invitationCard.split(', ')]. *)
Definition matches_selector (i : nat) (card : Card) : bool :=
  match i with
  | 0%nat => sel_invitation_card card
  | 1%nat => sel_data_test card
  | 2%nat => sel_entity_lockup card
  | _ => false
  end.

Definition invitationCard_selectors : list nat := [0; 1; 2]%nat.

(** *** Pure helpers of the script *)

Definition isInvitationManagerPage (href : jsstring) : bool :=
  includes href (js "/mynetwork/invitation-manager/received").

Definition isValidInvitationCard (card : Card) : bool :=
  let text := trim (textContent card) in
  if is_empty text || (length text <? 10)%nat then false
  else if has_badge card then false
  else
    let hasAcceptButton := acceptButton card in
    let hasProfileContent :=
      cardContent card || includes text (js "mutual connection")
      || includes text (js "connection") in
    hasAcceptButton || hasProfileContent.

Definition isInvitationCard (card : Card) : bool :=
  existsb (fun i => matches_selector i card) invitationCard_selectors
  && isValidInvitationCard card.

Definition getCardId (card : Card) : Completion jsstring :=
  let text := trim (textContent card) in
  let hash := substring0 100 text in
  bindC (btoa hash) (fun encoded =>
  Normal (substring0 20 (strip_non_alnum encoded))).

Definition extractProfileData (card : Card) : ProfileData :=
  let textContent := trim (textContent card) in
  let profileImg := profileImage card in
  let hasProfilePic :=
    match profileImg with
    | None => JNull
    | Some img =>
        JBool (negb (includes (src img) (js "ghost-person"))
               && negb (includes (src img) (js "default-avatar"))
               && negb (includes (toLowerCase (alt img)) (js "default")))
    end in
  let cleanedText :=
    trim (replace_runs is_newline [10]
            (replace_runs is_space (js " ") textContent)) in
  {| text := cleanedText; hasProfilePic := hasProfilePic |}.

Definition getScoreClass (score : JsNumber) : jsstring :=
  if num_ge score 20 then js "score-excellent"
  else if num_ge score 10 then js "score-good"
  else if num_ge score 5 then js "score-fair"
  else if num_ge score 0 then js "score-poor"
  else js "score-negative".

(** The text content of a badge whose [innerHTML] holds two elements with
    the texts [a] and [b] on lines of their own. *)
Definition two_lines (a b : jsstring) : jsstring :=
  [10] ++ js "        " ++ a ++ [10] ++ js "        " ++ b ++ [10] ++ js "    ".

Definition createLoadingBadge (id : nat) : Badge := {|
  badge_id := id;
  className := js "lead-scorer-badge lead-scorer-loading";
  title := [];
  badge_textContent := two_lines [] (js "Scoring...")
|}.

Definition createScoreBadge (score : JsNumber) (reasoning : jsstring)
    (id : nat) : Badge := {|
  badge_id := id;
  className := js "lead-scorer-badge lead-scorer-score " ++ getScoreClass score;
  title := reasoning;
  badge_textContent := two_lines (num_to_string score) (js "Lead Score")
|}.

Definition createErrorBadge (error : jsstring) (id : nat) : Badge := {|
  badge_id := id;
  className := js "lead-scorer-badge lead-scorer-error";
  title := error;
  badge_textContent := two_lines (js "!") (js "Error")
|}.

(** *** The state of the script and of the page *)

(** The reply to a [scoreProfile] message, as the script reads it.  The
    score is typed as a number and the reasoning as a string: the service
    worker sends no other score reply. *)
Inductive Response :=
  | ScoreResponse (score : JsNumber) (reasoning : jsstring)
  | FailureResponse (error : jsstring).

(** How the promise of [chrome.runtime.sendMessage] settles; a resolution
    with [None] is a resolution with [undefined]. *)
Inductive Settled :=
  | Resolved (response : option Response)
  | Rejected (error : JsError).

(** What the script does to the world outside the page, in the order it
    does it.  [Sent k id data] is the [scoreProfile] message number [k],
    sent on behalf of the card identity [id]. *)
Inductive Effect :=
  | Marked (cardId : jsstring)
  | Cleared
  | Sent (request : nat) (cardId : jsstring) (profileData : ProfileData)
  | ConsoleLog (message : jsstring)
  | ConsoleError (message detail : jsstring).

(** A call of [processInvitationCard] suspended at its [await]. *)
Record Pending := mkPending {
  pending_request : nat;
  pending_card : nat;
  pending_badge : nat
}.

(** [page] lists the card-like elements in document order, an element
    being known by its position; [observing] says whether the mutation
    observer is installed, [listening] whether the listener of
    [chrome.runtime.onMessage], which the last statement of the script
    registers, is; [fresh] numbers the badges created and the messages
    sent; [effects] is the history, latest effect first. *)
Record State := mkState {
  processedCards : gset (list N);
  page : list Card;
  observing : bool;
  listening : bool;
  fresh : nat;
  pending : list Pending;
  effects : list Effect
}.

Definition initial (p : list Card) : State := {|
  processedCards := ∅; page := p; observing := false; listening := false;
  fresh := 0%nat; pending := []; effects := []
|}.

Definition emit (eff : Effect) (st : State) : State :=
  {| processedCards := processedCards st; page := page st;
     observing := observing st; listening := listening st;
     fresh := fresh st; pending := pending st;
     effects := eff :: effects st |}.

Definition set_processed (s : gset (list N)) (st : State) : State :=
  {| processedCards := s; page := page st;
     observing := observing st; listening := listening st;
     fresh := fresh st; pending := pending st; effects := effects st |}.

Definition set_page (p : list Card) (st : State) : State :=
  {| processedCards := processedCards st; page := p;
     observing := observing st; listening := listening st;
     fresh := fresh st; pending := pending st; effects := effects st |}.

Definition set_observing (b : bool) (st : State) : State :=
  {| processedCards := processedCards st; page := page st;
     observing := b; listening := listening st;
     fresh := fresh st; pending := pending st; effects := effects st |}.

Definition set_listening (b : bool) (st : State) : State :=
  {| processedCards := processedCards st; page := page st;
     observing := observing st; listening := b;
     fresh := fresh st; pending := pending st; effects := effects st |}.

Definition set_pending (l : list Pending) (st : State) : State :=
  {| processedCards := processedCards st; page := page st;
     observing := observing st; listening := listening st;
     fresh := fresh st; pending := l; effects := effects st |}.

Definition next_fresh (st : State) : State :=
  {| processedCards := processedCards st; page := page st;
     observing := observing st; listening := listening st;
     fresh := S (fresh st); pending := pending st; effects := effects st |}.

Definition update_card (e : nat) (f : Card -> Card) (st : State) : State :=
  set_page (alter f e (page st)) st.

Definition set_badges (l : list (Location * Badge)) (card : Card) : Card :=
  {| sel_invitation_card := sel_invitation_card card;
     sel_data_test := sel_data_test card;
     sel_entity_lockup := sel_entity_lockup card;
     text_before := text_before card; text_after := text_after card;
     acceptButton := acceptButton card; cardContent := cardContent card;
     profileImage := profileImage card; badges := l |}.

(** *** Badges on a card *)

Definition insertLocation (card : Card) : Location :=
  if acceptButton card then BesideAcceptButton
  else if cardContent card then InCardContent
  else InCard.

Definition insertScoreBadge (badge : Badge) (card : Card) : Card :=
  set_badges (badges card ++ [(insertLocation card, badge)]) card.

(** [badge.remove()] for the badge element [id] *)
Definition remove_badge (id : nat) (card : Card) : Card :=
  set_badges
    (List.filter (fun b => negb (Nat.eqb (badge_id (snd b)) id)) (badges card))
    card.

(** [card.querySelector('.lead-scorer-badge')] followed by [remove()] on
    what it found, if anything. *)
Definition remove_first_badge (card : Card) : Card :=
  set_badges (tail (document_order (badges card))) card.

(** *** [processInvitationCard] *)

Definition isCardProcessed (st : State) (card : Card) : Completion bool :=
  bindC (getCardId card) (fun cardId =>
  Normal (bool_decide (cardId ∈ processedCards st) || has_badge card)).

(** The call up to its [await]: the promise it returns is left pending
    ([pending] grows), is fulfilled (the card is skipped), or is rejected
    (the identity cannot be computed); in the last two cases nothing is
    left to run. *)
Definition processInvitationCard (e : nat) (st : State) : State :=
  match page st !! e with
  | None => st
  | Some card =>
      match getCardId card with
      | Throw _ => st
      | Normal cardId =>
          let st := emit (Marked cardId)
                      (set_processed ({[cardId]} ∪ processedCards st) st) in
          let profileData := extractProfileData card in
          if is_empty (text profileData) || (length (text profileData) <? 10)%nat
          then
            emit (ConsoleLog
                    (js "LinkedIn Lead Scorer: Insufficient profile data, skipping card"))
                 st
          else
            let id := fresh st in
            let loadingBadge := createLoadingBadge id in
            let st := update_card e (insertScoreBadge loadingBadge) (next_fresh st) in
            let st := emit (Sent id cardId profileData) st in
            set_pending (pending st ++ [mkPending id e id]) st
      end
  end.

(** The [catch] block. *)
Definition on_processing_error (e : nat) (detail : jsstring) (st : State) : State :=
  let st := emit (ConsoleError (js "LinkedIn Lead Scorer: Error processing card:")
                    detail) st in
  let st := update_card e remove_first_badge st in
  let errorBadge := createErrorBadge (js "Processing failed") (fresh st) in
  update_card e (insertScoreBadge errorBadge) (next_fresh st).

(** The rest of the call, once the promise of the message [k] settled. *)
Definition resume (k : nat) (outcome : Settled) (st : State) : State :=
  match List.find (fun p => Nat.eqb (pending_request p) k) (pending st) with
  | None => st
  | Some p =>
      let e := pending_card p in
      let st := set_pending
                  (List.filter (fun q => negb (Nat.eqb (pending_request q) k))
                     (pending st)) st in
      match outcome with
      | Rejected error => on_processing_error e (err_message error) st
      | Resolved response =>
          let st := update_card e (remove_badge (pending_badge p)) st in
          match response with
          | Some (ScoreResponse score reasoning) =>
              let scoreBadge := createScoreBadge score reasoning (fresh st) in
              let st := update_card e (insertScoreBadge scoreBadge) (next_fresh st) in
              emit (ConsoleLog (js "LinkedIn Lead Scorer: Scored profile - Score: "
                                ++ num_to_string score)) st
          | Some (FailureResponse error) =>
              let errorBadge := createErrorBadge error (fresh st) in
              let st := update_card e (insertScoreBadge errorBadge) (next_fresh st) in
              emit (ConsoleError (js "LinkedIn Lead Scorer: Scoring failed:") error) st
          | None =>
              on_processing_error e
                (js "Cannot read properties of undefined (reading 'success')") st
          end
      end
  end.

(** *** Scanning *)

(** Handlers run to completion or stop at an uncaught exception. *)
Definition Handler (A : Type) : Type := State -> Completion A * State.

Definition hret {A} (a : A) : Handler A := fun st => (Normal a, st).
Definition hbind {A B} (m : Handler A) (k : A -> Handler B) : Handler B :=
  fun st =>
    match m st with
    | (Normal a, st') => k a st'
    | (Throw err, st') => (Throw err, st')
    end.
Definition effect (f : State -> State) : Handler unit :=
  fun st => (Normal tt, f st).

Notation "'do' x '<-' m 'in' k" := (hbind m (fun x => k))
  (at level 10, x pattern, m at level 100, k at level 200).

(** [if (!isCardProcessed(card)) { processInvitationCard(card); ... }]; the
    result tells whether the card was processed. *)
Definition process_unless_processed (e : nat) : Handler bool :=
  fun st =>
    match page st !! e with
    | None => (Normal false, st)
    | Some card =>
        match isCardProcessed st card with
        | Throw err => (Throw err, st)
        | Normal true => (Normal false, st)
        | Normal false => (Normal true, processInvitationCard e st)
        end
    end.

(** [list.forEach(f)], where [found] accumulates what the calls report. *)
Fixpoint forEach {A} (l : list A) (f : A -> Handler bool) (found : bool)
    : Handler bool :=
  match l with
  | [] => hret found
  | x :: l' => do b <- f x in forEach l' f (found || b)
  end.

(** [document.querySelectorAll(selector)] for the [i]-th card selector. *)
Definition querySelectorAll (i : nat) (p : list Card) : list nat :=
  List.filter
    (fun e => match p !! e with
              | Some card => matches_selector i card
              | None => false
              end)
    (seq 0 (length p)).

Definition findInvitationCards (p : list Card) : list nat :=
  fold_left
    (fun cards i =>
       fold_left
         (fun cards e =>
            match p !! e with
            | Some card =>
                if negb (existsb (Nat.eqb e) cards) && isValidInvitationCard card
                then cards ++ [e] else cards
            | None => cards
            end)
         (querySelectorAll i p) cards)
    invitationCard_selectors [].

Definition number_text (n : nat) : jsstring := N_to_string (N.of_nat n).

Definition processExistingCards : Handler unit :=
  fun st =>
    let cards := findInvitationCards (page st) in
    let st := emit (ConsoleLog (js "LinkedIn Lead Scorer: Found "
                                ++ number_text (length cards)
                                ++ js " existing invitation cards")) st in
    (do _ <- forEach cards process_unless_processed false in hret tt) st.

(** *** The mutation observer *)

(** A node of [mutation.addedNodes]: not an element, or an element, which
    may itself be a card-like element of the page ([self]) and holds the
    card-like elements [inside]. *)
Inductive AddedNode :=
  | NonElement
  | Element (self : option nat) (inside : list nat).

Definition matches_any (p : list Card) (e : nat) : bool :=
  match p !! e with
  | Some card => existsb (fun i => matches_selector i card) invitationCard_selectors
  | None => false
  end.

Definition observe_node (node : AddedNode) : Handler bool :=
  match node with
  | NonElement => hret false
  | Element self inside =>
      do b1 <- (fun st =>
                  match self with
                  | Some e =>
                      match page st !! e with
                      | Some card =>
                          if isInvitationCard card
                          then process_unless_processed e st
                          else (Normal false, st)
                      | None => (Normal false, st)
                      end
                  | None => (Normal false, st)
                  end) in
      do b2 <- (fun st =>
                  forEach (List.filter (matches_any (page st)) inside)
                    process_unless_processed false st) in
      hret (b1 || b2)
  end.

Definition observer_callback (mutations : list (list AddedNode)) : Handler unit :=
  do newCardsFound <-
    forEach mutations (fun addedNodes => forEach addedNodes observe_node false)
      false in
  if newCardsFound
  then effect (emit (ConsoleLog
                       (js "LinkedIn Lead Scorer: Processed new invitation cards")))
  else hret tt.

Definition setupMutationObserver : Handler unit :=
  effect (fun st =>
    emit (ConsoleLog (js "LinkedIn Lead Scorer: MutationObserver set up"))
      (set_observing true st)).

Definition initialize (href : jsstring) : Handler unit :=
  do _ <- effect (emit (ConsoleLog
                          (js "LinkedIn Lead Scorer: Initializing content script"))) in
  if negb (isInvitationManagerPage href) then
    effect (emit (ConsoleLog
                    (js "LinkedIn Lead Scorer: Not on invitation manager page")))
  else
    do _ <- processExistingCards in
    do _ <- setupMutationObserver in
    effect (emit (ConsoleLog
                    (js "LinkedIn Lead Scorer: Content script initialized"))).

(** The [chrome.runtime.onMessage] listener of the page. *)
Definition on_extensionReloaded : Handler unit :=
  do _ <- effect (fun st => emit Cleared (set_processed ∅ st)) in
  processExistingCards.

(** *** Events of a page lifetime *)

(** [Initialize href] is a call of [initialize]: by the top level of the
    script when the document was loaded already, or else at
    [DOMContentLoaded].  In the first case the rest of the top level, which
    registers the message listener, runs only when the call returns; in the
    second case the top level ran to its end before, which is the event
    [ScriptRanEarly]. *)
Inductive Event :=
  | Initialize (href : jsstring)
  | Mutations (records : list (list AddedNode))
  | Settle (request : nat) (outcome : Settled)
  | ExtensionReloaded
  | OtherRuntimeMessage
  | HostUpdate (p : list Card)
  | ScriptRanEarly.

Definition handle (ev : Event) : Handler unit :=
  match ev with
  | Initialize href =>
      do _ <- initialize href in effect (set_listening true)
  | Mutations records =>
      fun st => if observing st then observer_callback records st
                else (Normal tt, st)
  | Settle k outcome => effect (resume k outcome)
  | ExtensionReloaded =>
      fun st => if listening st then on_extensionReloaded st
                else (Normal tt, st)
  | OtherRuntimeMessage => hret tt
  | HostUpdate p => effect (set_page p)
  | ScriptRanEarly => effect (set_listening true)
  end.

(** An exception that leaves a handler is reported by the browser; what
    the handler did before stays done. *)
Definition step (st : State) (ev : Event) : State := snd (handle ev st).

Definition run (st : State) (evs : list Event) : State := fold_left step evs st.

Definition is_reload (ev : Event) : bool :=
  match ev with ExtensionReloaded => true | _ => false end.

(** The identities on whose behalf a message was sent, latest first. *)
Fixpoint sent_ids (effs : list Effect) : list jsstring :=
  match effs with
  | [] => []
  | Sent _ cardId _ :: rest => cardId :: sent_ids rest
  | _ :: rest => sent_ids rest
  end.

(** How many messages were sent for the identity [cardId]. *)
Definition submissions (cardId : jsstring) (effs : list Effect) : nat :=
  length (List.filter (jsstring_eqb cardId) (sent_ids effs)).

End Content.

(** * Vocabulary and sample data of the properties *)

Import Js Messages Background Content.

(** The request [callLLMAPI] builds for a provider of [API_CONFIGS]. *)
Definition request_for (config : Config) (model key : jsstring)
    (profileData : ProfileData) : Request :=
  {| req_url := match baseUrl config with
                | UrlFunction f => f model key
                | UrlConstant u => u
                end;
     req_method := js "POST";
     req_headers := headers config key;
     req_body := JSON_stringify (formatRequest config model SCORING_PROMPT profileData) |}.

(** The shape [{ totalScore: number, reasoning: string }]. *)
Definition has_result_shape (v : JsValue) : Prop :=
  exists n s, get_prop v (js "totalScore") = Normal (JNum n)
              /\ get_prop v (js "reasoning") = Normal (JStr s).

(** What [callLLMAPI] does with a success response, in terms of the
    decoding of its body. *)
Definition decode (config : Config) (body : jsstring) : Completion JsValue :=
  bindC (JSON_parse_text body) (parseResponse config).

(** Settings saved without an API key. *)
Definition settings_without_key : Settings :=
  mkSettings (Some (js "openai")) (Some (js "gpt-4o")) None.

(** The reply of the service worker as the content script reads it: the
    score is a number and the reasoning a string in every score reply that
    [handleScoreProfile] sends. *)
Definition as_response (r : Reply) : option Response :=
  match r with
  | ReplyScore (JNum n) (JStr s) => Some (ScoreResponse n s)
  | ReplyFailure error => Some (FailureResponse error)
  | _ => None
  end.

(** A network that answers every request with the given status and body. *)
Definition always (status : N) (body : jsstring) : Request -> FetchOutcome :=
  fun _ => HttpResponse status body.

(** The body of an OpenAI chat completion whose message content is
    [content]. *)
Definition openai_body (content : JsValue) : jsstring :=
  JSON_stringify
    (JObj [(js "choices",
            JArr [JObj [(js "index", JNum (num_of_Z 0));
                        (js "message",
                         JObj [(js "role", JStr (js "assistant"));
                               (js "content", content)])]])]).

(** The text of a JSON object with the two properties. *)
Definition score_text (totalScore reasoning : JsValue) : JsValue :=
  JStr (JSON_stringify (JObj [(js "totalScore", totalScore);
                              (js "reasoning", reasoning)])).

(** The [reasoning] of [v] is a string that is not empty. *)
Definition has_nonempty_reasoning (v : JsValue) : Prop :=
  exists s, get_prop v (js "reasoning") = Normal (JStr s) /\ s <> [].

(** A card with an accept button and the given text. *)
Definition card_with_text (t : jsstring) (img : option Img) : Card := {|
  sel_invitation_card := true; sel_data_test := false; sel_entity_lockup := false;
  text_before := t; text_after := [10];
  acceptButton := true; cardContent := true;
  profileImage := img; badges := []
|}.

(** A text of more than 100 code units, and two cards that begin with it. *)
Definition long_prefix : jsstring :=
  js "Jane Doe, Founder at Acme, San Francisco Bay Area. Building developer tools for data teams since 2019. ".

Definition jane_first : Card :=
  card_with_text ([10; 32; 32] ++ long_prefix ++ js "12 mutual connections") None.
Definition jane_second : Card :=
  card_with_text (long_prefix ++ js "3 mutual connections" ++ [10]) None.

(** [body.messages[0].content] *)
Definition user_content (body : JsValue) : Completion JsValue :=
  bindC (get_prop body (js "messages")) (fun ms =>
  bindC (get_first ms) (fun m => get_prop m (js "content"))).

(** The effects of a skipped card: the mark and a line of log. *)
Definition quiet (eff : Effect) : Prop :=
  match eff with
  | Marked _ | ConsoleLog _ => True
  | _ => False
  end.

(** Two cards with the same snapshot text whose trimmed texts differ. *)
Definition jane_spaced : Card :=
  card_with_text (js "Jane  Doe, Founder at Acme - 12 mutual connections") None.
Definition jane_plain : Card :=
  card_with_text (js "Jane Doe, Founder at Acme - 12 mutual connections") None.

(** A card that passes [isValidInvitationCard] and whose snapshot is short. *)
Definition sparse_card : Card :=
  card_with_text (js "  Ann" ++ [10; 10; 10] ++ js "      B  ") None.

(** Console output. *)
Definition is_console (eff : Effect) : Prop :=
  match eff with
  | ConsoleLog _ | ConsoleError _ _ => True
  | _ => False
  end.

(** A change of state that leaves the set alone, writes at most to the
    console, and adds no pending call. *)
Definition silent (st st' : State) : Prop :=
  processedCards st' = processedCards st
  /\ (exists logs, effects st' = logs ++ effects st /\ Forall is_console logs)
  /\ (fresh st <= fresh st')%nat
  /\ (forall q, In q (pending st') -> In q (pending st)).

(** The pending calls were numbered before [fresh]. *)
Definition requests_fresh (st : State) : Prop :=
  forall q, In q (pending st) -> (pending_request q < fresh st)%nat.

Definition keeps_fresh (st st' : State) : Prop :=
  requests_fresh st -> requests_fresh st'.

(** A handler that takes every state to one related to it by [R]. *)
Definition preserved (R : State -> State -> Prop) {A} (h : Handler A) : Prop :=
  forall st, R st (snd (h st)).

(** [extends st st']: from [st] to [st'] the set only grew, and every
    message sent in between was sent for an identity that was not in the
    set before, is in the set after, and was sent once. *)
Definition extends (st st' : State) : Prop :=
  processedCards st ⊆ processedCards st'
  /\ exists news,
       sent_ids (effects st') = news ++ sent_ids (effects st)
       /\ NoDup news
       /\ forall id, In id news ->
                     (id ∉ processedCards st) /\ (id ∈ processedCards st').

(** No [extensionReloaded] message among the events. *)
Definition no_reload (evs : list Event) : bool :=
  forallb (fun ev => negb (is_reload ev)) evs.

(** The address of the invitation manager. *)
Definition received_href : jsstring :=
  js "https://www.linkedin.com/mynetwork/invitation-manager/received/".

(** The observer fires for the same card, and for a second card of the
    same identity, while the first request is in flight. *)
Definition refiring : list Event :=
  [ Initialize received_href;
    Mutations [[Element (Some 0%nat) []]];
    HostUpdate [jane_first; jane_second];
    Mutations [[NonElement; Element None [0%nat; 1%nat]]; [Element (Some 1%nat) []]];
    Settle 0 (Resolved (Some (ScoreResponse (num_of_Z 21) (js "Founder keyword +10"))));
    Mutations [[Element (Some 1%nat) []]] ].

(** A card with a profile image. *)
Definition jane_with_photo : Card :=
  card_with_text (long_prefix ++ js "12 mutual connections")
    (Some (mkImg (js "https://media.licdn.com/dms/image/jane.jpg")
             (js "Jane Doe profile photo"))).



(** A score reply of 21. *)
Definition excellent_reply : Settled :=
  Resolved (Some (ScoreResponse (num_of_Z 21)
                    (js "Founder keyword +10, SF +5, industry +5, photo +1"))).

(** A page whose only card was scored. *)
Definition scored_state : State :=
  run (initial [jane_with_photo])
    [Initialize received_href; Settle 0 excellent_reply].



(** * Further vocabulary and sample data *)

(** An answer of the provider with status 200 that carries an error object
    instead of a completion. *)
Definition error_envelope : jsstring :=
  JSON_stringify
    (JObj [(js "error", JObj [(js "message", JStr (js "The model is overloaded"))])]).

(** A completion whose text is prose around the object. *)
Definition prose_body : jsstring :=
  openai_body (JStr (js "Here is the JSON: {}")).

(** Every white space code unit of [s] is a space (U+0020) that does not
    follow another one, nor the start of the text when [after_space] is
    [true]. *)
Fixpoint spaces_single (after_space : bool) (s : jsstring) : bool :=
  match s with
  | [] => true
  | c :: r =>
      if is_space c then (c =? 32) && negb after_space && spaces_single true r
      else spaces_single false r
  end.


(** The badge a call of [processInvitationCard] ends with, by the way its
    message settled. *)
Definition final_badge (outcome : Settled) (id : nat) : Badge :=
  match outcome with
  | Resolved (Some (ScoreResponse score reasoning)) =>
      createScoreBadge score reasoning id
  | Resolved (Some (FailureResponse error)) => createErrorBadge error id
  | Resolved None | Rejected _ => createErrorBadge (js "Processing failed") id
  end.

(** What the call writes to the console when it ends. *)
Definition final_console (outcome : Settled) : Effect :=
  match outcome with
  | Resolved (Some (ScoreResponse score reasoning)) =>
      ConsoleLog (js "LinkedIn Lead Scorer: Scored profile - Score: "
                  ++ num_to_string score)
  | Resolved (Some (FailureResponse error)) =>
      ConsoleError (js "LinkedIn Lead Scorer: Scoring failed:") error
  | Resolved None =>
      ConsoleError (js "LinkedIn Lead Scorer: Error processing card:")
        (js "Cannot read properties of undefined (reading 'success')")
  | Rejected error =>
      ConsoleError (js "LinkedIn Lead Scorer: Error processing card:")
        (err_message error)
  end.

(** Every card bears at most one badge, and a card with a pending call
    bears the in-progress badge of that call. *)
Definition badges_in_order (st : State) : Prop :=
  (forall e card, page st !! e = Some card -> (length (badges card) <= 1)%nat)
  /\ (forall q, In q (pending st) ->
                pending_badge q = pending_request q
                /\ exists card loc,
                     page st !! pending_card q = Some card
                     /\ badges card
                        = [(loc, createLoadingBadge (pending_badge q))]).

(** The host page changes: it may add elements and change the elements it
    has in any way, but it does not touch the badges, and an element it
    adds holds none. *)
Definition host_keeps_badges (old new : list Card) : Prop :=
  forall e,
    match old !! e, new !! e with
    | Some card, Some card' => badges card' = badges card
    | Some _, None => False
    | None, Some card' => badges card' = []
    | None, None => True
    end.

(** The host page keeps to that in the course of the events. *)
Fixpoint well_hosted (st : State) (evs : list Event) : Prop :=
  match evs with
  | [] => True
  | ev :: rest =>
      match ev with
      | HostUpdate p => host_keeps_badges (page st) p
      | _ => True
      end
      /\ well_hosted (step st ev) rest
  end.

Definition keeps_badges_in_order (st st' : State) : Prop :=
  badges_in_order st -> badges_in_order st'.

(** The page grows by a card while the first request is in flight; the
    observer fires, the reply arrives, and the extension is reloaded. *)
Definition growing_page : list Event :=
  [ Initialize received_href;
    HostUpdate [insertScoreBadge (createLoadingBadge 0) jane_with_photo; sparse_card];
    Mutations [[Element (Some 1%nat) []; Element None [0%nat; 1%nat]]];
    Settle 0 excellent_reply;
    ExtensionReloaded;
    Settle 1 (Rejected (mkError NameError [])) ].

(** An event of a page on which the script was not started on the
    invitation manager and is not told of a reload. *)
Definition off_page (ev : Event) : bool :=
  match ev with
  | Initialize href => negb (isInvitationManagerPage href)
  | ExtensionReloaded => false
  | _ => true
  end.

(** The page as the host last rendered it. *)
Definition host_page (p : list Card) (evs : list Event) : list Card :=
  fold_left (fun pg ev => match ev with HostUpdate p' => p' | _ => pg end) evs p.

(** A card that matches a selector but has too little text to be valid. *)
Definition stub_card : Card := card_with_text (js "Ann B") None.

(** An entity lockup that is no invitation: no accept button, no card
    content, and a text that does not speak of connections. *)
Definition suggestion_card : Card := {|
  sel_invitation_card := false; sel_data_test := false; sel_entity_lockup := true;
  text_before := js "Sam Lee, Product Designer at Initech"; text_after := [10];
  acceptButton := false; cardContent := false;
  profileImage := None; badges := []
|}.

(** The page after the script started on the invitation manager. *)
Definition started (p : list Card) : State :=
  step (initial p) (Initialize received_href).

(** * The popup script *)

Module Popup.

(** *** [MODEL_CONFIGS] *)

Record ModelOption := mkModel { value : jsstring; label : jsstring }.

(** What [MODEL_CONFIGS[provider]] evaluates to: a list of the object's
    own, a member inherited from [Object.prototype], or [undefined]. *)
Inductive ModelLookup :=
  | OwnModels (models : list ModelOption)
  | InheritedMember
  | NoModels.

Definition MODEL_CONFIGS (provider : jsstring) : ModelLookup :=
  if jsstring_eqb provider (js "openai") then
    OwnModels [mkModel (js "gpt-4o") (js "GPT-4o");
               mkModel (js "gpt-4o-mini") (js "GPT-4o Mini");
               mkModel (js "gpt-3.5-turbo") (js "GPT-3.5 Turbo")]
  else if jsstring_eqb provider (js "gemini") then
    OwnModels [mkModel (js "gemini-1.5-pro") (js "Gemini 1.5 Pro");
               mkModel (js "gemini-1.5-flash") (js "Gemini 1.5 Flash");
               mkModel (js "gemini-pro") (js "Gemini Pro")]
  else if jsstring_eqb provider (js "anthropic") then
    OwnModels [mkModel (js "claude-3-5-sonnet-20241022") (js "Claude 3.5 Sonnet");
               mkModel (js "claude-3-haiku-20240307") (js "Claude 3 Haiku");
               mkModel (js "claude-3-opus-20240229") (js "Claude 3 Opus")]
  else if existsb (jsstring_eqb provider) Object_prototype_names then InheritedMember
  else NoModels.

(** *** The model drop-down *)

(** The [select] element of the models: the options it holds, and whether
    it is disabled. *)
Record Select := mkSelect { options : list ModelOption; disabled : bool }.

(** [<option value=''>Select Model</option>] *)
Definition placeholder : ModelOption := mkModel [] (js "Select Model").

(** [updateModelSelection(provider)]: the options are reset before anything
    else; a member inherited from [Object.prototype] is truthy and has no
    [forEach], so the call throws before [disabled] is assigned. *)
Definition updateModelSelection (provider : jsstring) (sel : Select)
    : Completion unit * Select :=
  let sel := mkSelect [placeholder] (disabled sel) in
  if is_empty provider then (Normal tt, mkSelect (options sel) true)
  else
    match MODEL_CONFIGS provider with
    | OwnModels models =>
        (Normal tt, mkSelect (options sel ++ models) false)
    | InheritedMember =>
        (Throw (mkError NameTypeError
                  (js "MODEL_CONFIGS[provider].forEach is not a function")), sel)
    | NoModels => (Normal tt, mkSelect (options sel) true)
    end.

(** *** The handlers of the two buttons *)

(** The values of the three form fields when a handler starts. *)
Record Form := mkForm {
  providerValue : jsstring;
  modelValue : jsstring;
  apiKeyValue : jsstring
}.

Inductive Button := TestConnectionBtn | SaveSettingsBtn.
Inductive Timer := HideStatus | CloseWindow.

(** What a handler does, in the order it does it.  [StatusShown m t] is
    [showStatusMessage]'s three assignments: the text [m], the class
    [status-message t], and the display. *)
Inductive Effect :=
  | PreventDefault
  | StatusShown (message type : jsstring)
  | TimerSet (timer : Timer) (ms : N)
  | ButtonLoading (button : Button) (loading : bool)
  | StorageSet (settings : Settings)
  | MessageSent (message : Message)
  | ConsoleError (label : jsstring) (error : JsError).

Definition showStatusMessage (message type : jsstring) : list Effect :=
  [StatusShown message type]
  ++ (if jsstring_eqb type (js "success") then [TimerSet HideStatus 3000] else []).

Definition setButtonLoading (button : Button) (loading : bool) : list Effect :=
  [ButtonLoading button loading].

(** How the promise of [chrome.runtime.sendMessage] settles for the popup;
    [Answered None] is a resolution with [undefined]. *)
Inductive Answer :=
  | Answered (response : option Reply)
  | Unanswered (error : JsError).

(** [response.success] *)
Definition success (response : Reply) : bool :=
  match response with
  | ReplyScore _ _ | ReplyConnected _ => true
  | ReplyFailure _ => false
  end.

(** [`${response.error}`] *)
Definition error_text (response : Reply) : jsstring :=
  match response with
  | ReplyFailure error => error
  | _ => js "undefined"
  end.

(** [handleTestConnection()], with the way its message settles. *)
Definition handleTestConnection (form : Form) (answer : Answer) : list Effect :=
  let provider := providerValue form in
  let model := modelValue form in
  let apiKey := trim (apiKeyValue form) in
  if is_empty provider || is_empty model || is_empty apiKey then
    showStatusMessage (js "Please fill in all fields before testing") (js "error")
  else
    setButtonLoading TestConnectionBtn true
    ++ [MessageSent (TestConnection provider model apiKey)]
    ++ match answer with
       | Answered (Some response) =>
           if success response
           then showStatusMessage (js "Connection successful!") (js "success")
           else showStatusMessage (js "Connection failed: " ++ error_text response)
                  (js "error")
       | Answered None =>
           [ConsoleError (js "Test connection error:")
              (mkError NameTypeError
                 (js "Cannot read properties of undefined (reading 'success')"))]
           ++ showStatusMessage (js "Error testing connection") (js "error")
       | Unanswered error =>
           [ConsoleError (js "Test connection error:") error]
           ++ showStatusMessage (js "Error testing connection") (js "error")
       end
    ++ setButtonLoading TestConnectionBtn false.

(** [handleSaveSettings(event)], with the way [chrome.storage.sync.set]
    settles. *)
Definition handleSaveSettings (form : Form) (stored : Completion unit)
    : list Effect :=
  let provider := providerValue form in
  let model := modelValue form in
  let apiKey := trim (apiKeyValue form) in
  [PreventDefault]
  ++ if is_empty provider || is_empty model || is_empty apiKey then
       showStatusMessage (js "Please fill in all fields") (js "error")
     else
       setButtonLoading SaveSettingsBtn true
       ++ [StorageSet (mkSettings (Some provider) (Some model) (Some apiKey))]
       ++ match stored with
          | Normal _ =>
              showStatusMessage (js "Settings saved successfully!") (js "success")
              ++ [TimerSet CloseWindow 1500]
          | Throw error =>
              [ConsoleError (js "Error saving settings:") error]
              ++ showStatusMessage (js "Error saving settings") (js "error")
          end
       ++ setButtonLoading SaveSettingsBtn false.

End Popup.

(** What the promise of the popup's message settles with, given what the
    listener of the service worker made of the message. *)
Definition answer_of (r : Completion (option Reply)) : Popup.Answer :=
  match r with
  | Normal response => Popup.Answered response
  | Throw error => Popup.Unanswered error
  end.

(** A form filled in with a key that has white space around it. *)
Definition pasted_form : Popup.Form :=
  Popup.mkForm (js "openai") (js "gpt-4o-mini") ([32; 32] ++ js "sk-test" ++ [10]).


(** * Vocabulary of the requests in flight *)

(** A page without badges. *)
Definition badge_free (p : list Card) : Prop :=
  forall e card, p !! e = Some card -> badges card = [].

(** The calls in flight are in order: the badges are, and the pending
    calls are numbered apart, below [fresh]. *)
Definition orderly (st : State) : Prop :=
  badges_in_order st
  /\ requests_fresh st
  /\ NoDup (map pending_request (pending st)).

Definition keeps_orderly (st st' : State) : Prop := orderly st -> orderly st'.

(** The event settles the message [k]. *)
Definition settles (k : nat) (ev : Event) : bool :=
  match ev with
  | Settle k' _ => Nat.eqb k' k
  | _ => false
  end.

(** Every call that was pending still is. *)
Definition stays_pending (st st' : State) : Prop :=
  forall q, In q (pending st) -> In q (pending st').

(** From [st1] to [st2] the element [e] lost the badges it had and got
    [badge] as its only badge, at the place where the script inserts
    badges; no other element changed. *)
Definition renders (st1 st2 : State) (e : nat) (badge : Badge) : Prop :=
  exists card,
    page st1 !! e = Some card
    /\ page st2 !! e = Some (set_badges [(insertLocation card, badge)] card)
    /\ forall e', e' <> e -> page st2 !! e' = page st1 !! e'.

(** The call of [processInvitationCard] for the element [e] in the state
    [st] sends the message number [k] with the snapshot [pd] on behalf of
    the identity [cardId], after the mark, and suspends: the call is
    recorded as pending for [e]. *)
Definition sends (st : State) (e k : nat) (cardId : jsstring)
    (pd : ProfileData) : Prop :=
  pending (processInvitationCard e st) = pending st ++ [mkPending k e k]
  /\ effects (processInvitationCard e st)
     = Sent k cardId pd :: Marked cardId :: effects st.

(** A second invitation. *)
Definition bob_roe : Card :=
  card_with_text (js "Bob Roe, CTO at Initrode - 5 mutual connections") None.

(** The script started on a page of two cards: both messages are sent
    before any reply arrives. *)
Definition two_in_flight : State :=
  run (initial [jane_with_photo; bob_roe]) [Initialize received_href].


(** * Properties *)

Ltac net_step :=
  match goal with
  | |- context [match ?x with _ => _ end] =>
      match type of x with
      | FetchOutcome => destruct x eqn:?
      | Completion _ => destruct x eqn:?
      | bool => destruct x eqn:?
      | (_ * _)%type => destruct x eqn:?
      end
  | H : context [match ?x with _ => _ end] |- _ =>
      match type of x with
      | FetchOutcome => destruct x eqn:?
      | Completion _ => destruct x eqn:?
      | bool => destruct x eqn:?
      | (_ * _)%type => destruct x eqn:?
      end
  end.

Ltac net_unfold :=
  unfold try_catch, bind, fetch, lift, throw, ret in *.

(** ** The embedding on small inputs *)

Example btoa_latin1 : btoa (js "Jane Doe") = Normal (js "SmFuZSBEb2U=").
Proof. reflexivity. Qed.

Example btoa_outside_latin1 :
  exists e, btoa [29579; 20255] = Throw e /\ err_name e = NameInvalidCharacterError.
Proof. eexists. split; reflexivity. Qed.

Example trim_and_collapse :
  trim (replace_runs is_space (js " ") ([32; 10] ++ js "a" ++ [9; 10; 32] ++ js "b c" ++ [160]))
  = js "a b c".
Proof. reflexivity. Qed.

Example num_to_string_samples :
  map num_to_string [num_of_Z 21; mkNum 15 (-1); mkNum (-1) (-7); mkNum 1 21; mkNum 1200 0]
  = map js ["21"; "1.5"; "-1e-7"; "1e+21"; "1200"]%string.
Proof. reflexivity. Qed.

Example JSON_round_trip :
  JSON_parse_text
    (JSON_stringify (JObj [(js "totalScore", JNum (num_of_Z 21));
                           (js "reasoning", JStr (js "Founder" ++ [10] ++ quoted (js "SF")))]))
  = Normal (JObj [(js "totalScore", JNum (num_of_Z 21));
                  (js "reasoning", JStr (js "Founder" ++ [10] ++ quoted (js "SF")))]).
Proof. vm_compute. reflexivity. Qed.

Example JSON_parse_rejects :
  map (fun t => match JSON_parse_text (js t) with Normal _ => true | Throw _ => false end)
    ["[1,]"; "01"; "1."; "-"; "{}x"; " "; "Here is the JSON: {}"; "nul"]%string
  = [false; false; false; false; false; false; false; false].
Proof. vm_compute. reflexivity. Qed.

Example JSON_parse_accepts :
  map (fun t => JSON_parse_text (js t)) [" null "; "-0"; "2.50e1"; "[[],{}]"]%string
  = [Normal JNull; Normal (JNum (mkNum 0 0)); Normal (JNum (mkNum 250 (-1)));
     Normal (JArr [JArr []; JObj []])].
Proof. vm_compute. reflexivity. Qed.

Example API_CONFIGS_lookups :
  map (fun p => match API_CONFIGS (js p) with
                | OwnConfig _ => 0 | Inherited => 1 | NoConfig => 2
                end)
    ["openai"; "gemini"; "anthropic"; "OpenAI"; "mistral"; " "; "toString"]%string
  = [0; 0; 0; 2; 2; 2; 1].
Proof. vm_compute. reflexivity. Qed.

(** The scenario of the specification: a founder in San Francisco with a
    photo, scored 21, gets an excellent badge with the reasoning as its
    title. *)
Example excellent_badge :
  handleScoreProfile
    (mkSettings (Some (js "anthropic")) (Some (js "claude-3-haiku-20240307"))
       (Some (js "sk-test")))
    (mkProfileData (js "Jane Doe, Founder at Acme, San Francisco") (JBool true))
    (always 200
       (JSON_stringify
          (JObj [(js "content",
                  JArr [JObj [(js "type", JStr (js "text"));
                              (js "text",
                               score_text (JNum (num_of_Z 21))
                                 (JStr (js "Founder keyword +10, SF +5, industry +5, photo +1")))]])])))
    []
  = (Normal (ReplyScore (JNum (num_of_Z 21))
               (JStr (js "Founder keyword +10, SF +5, industry +5, photo +1"))),
     [request_for anthropic (js "claude-3-haiku-20240307") (js "sk-test")
        (mkProfileData (js "Jane Doe, Founder at Acme, San Francisco") (JBool true))])
  /\ match page scored_state with
     | [card] =>
         map (fun b => (className (snd b), title (snd b))) (badges card)
         = [(js "lead-scorer-badge lead-scorer-score score-excellent",
             js "Founder keyword +10, SF +5, industry +5, photo +1")]
     | _ => False
     end.
Proof. split; vm_compute; reflexivity. Qed.

(** ** Strings *)

Lemma startsWith_app (pat rest : jsstring) : startsWith pat (pat ++ rest) = true.
Proof.
  induction pat as [|a pat IH]; [reflexivity|].
  simpl. rewrite N.eqb_refl. exact IH.
Qed.

Lemma includes_startsWith (s pat : jsstring) :
  startsWith pat s = true -> includes s pat = true.
Proof. intros H. destruct s; simpl; rewrite H; reflexivity. Qed.

Lemma includes_app (pre pat post : jsstring) :
  includes (pre ++ pat ++ post) pat = true.
Proof.
  induction pre as [|c pre IH]; simpl.
  - apply includes_startsWith, startsWith_app.
  - rewrite IH. apply orb_true_r.
Qed.

(** ** The provider adapter *)

Lemma typeof_number (v : JsValue) :
  typeof_is TNumber v = true -> exists n, v = JNum n.
Proof. destruct v; try discriminate. eauto. Qed.

Lemma typeof_string (v : JsValue) :
  typeof_is TString v = true -> exists s, v = JStr s.
Proof. destruct v; try discriminate. eauto. Qed.

(** An unknown provider id that is not a name of [Object.prototype] fails
    with the unsupported-provider error, and nothing is requested. *)
Lemma callLLMAPI_unsupported provider model key pd net log :
  API_CONFIGS provider = NoConfig ->
  callLLMAPI provider model key pd net log
  = (Throw (new_Error (js "Unsupported provider: " ++ provider)), log).
Proof. intros H. unfold callLLMAPI. rewrite H. reflexivity. Qed.


Lemma callLLMAPI_invalid_json provider config model key pd net log status body e :
  API_CONFIGS provider = OwnConfig config ->
  net (request_for config model key pd) = HttpResponse status body ->
  response_ok status = true ->
  decode config body = Throw e ->
  err_name e = NameSyntaxError ->
  callLLMAPI provider model key pd net log
  = (Throw (new_Error (js "LLM returned invalid JSON response")),
     log ++ [request_for config model key pd]).
Proof.
  intros Hc Hn Hok Hd He. unfold callLLMAPI. rewrite Hc. net_unfold.
  fold (request_for config model key pd). rewrite Hn, Hok. simpl.
  unfold decode, bindC in Hd.
  destruct (JSON_parse_text body) as [data|e'].
  - rewrite Hd. unfold is_SyntaxError. rewrite He. reflexivity.
  - inversion Hd; subst. unfold is_SyntaxError. rewrite He. reflexivity.
Qed.

(** A decoded value other than [null] and [undefined] that lacks the shape
    fails with the malformed-response error. *)
Lemma callLLMAPI_malformed provider config model key pd net log status body v :
  API_CONFIGS provider = OwnConfig config ->
  net (request_for config model key pd) = HttpResponse status body ->
  response_ok status = true ->
  decode config body = Normal v ->
  v <> JNull -> v <> JUndefined ->
  ~ has_result_shape v ->
  callLLMAPI provider model key pd net log
  = (Throw (new_Error (js "Invalid response format from LLM")),
     log ++ [request_for config model key pd]).
Proof.
  intros Hc Hn Hok Hd Hnull Hundef Hshape. unfold callLLMAPI. rewrite Hc. net_unfold.
  fold (request_for config model key pd). rewrite Hn, Hok. simpl.
  unfold decode, bindC in Hd.
  destruct (JSON_parse_text body) as [data|e']; [|discriminate].
  rewrite Hd.
  assert (Hget : forall k, get_prop v k
                           = Normal (match v with
                                     | JObj fields => own_property fields k
                                     | _ => JUndefined
                                     end)).
  { intros k. destruct v; try reflexivity; congruence. }
  rewrite !Hget.
  destruct (typeof_is TNumber _) eqn:Hn1; simpl; [|reflexivity].
  destruct (typeof_is TString _) eqn:Hs1; simpl; [|reflexivity].
  exfalso. apply Hshape.
  apply typeof_number in Hn1 as [n Hn1]. apply typeof_string in Hs1 as [s Hs1].
  exists n, s. rewrite !Hget, Hn1, Hs1. split; reflexivity.
Qed.

(** The value [callLLMAPI] returns is the decoded response and has the
    shape. *)
Lemma callLLMAPI_returns provider model key pd net log result log' :
  callLLMAPI provider model key pd net log = (Normal result, log') ->
  exists config status body,
    API_CONFIGS provider = OwnConfig config
    /\ net (request_for config model key pd) = HttpResponse status body
    /\ response_ok status = true
    /\ decode config body = Normal result
    /\ has_result_shape result
    /\ log' = log ++ [request_for config model key pd].
Proof.
  unfold callLLMAPI. intros H.
  destruct (API_CONFIGS provider) as [config| |] eqn:Hc; net_unfold;
    [|discriminate|discriminate].
  fold (request_for config model key pd) in H.
  destruct (net (request_for config model key pd)) as [e|status body] eqn:Hn.
  { destruct (is_SyntaxError e); discriminate. }
  destruct (response_ok status) eqn:Hok; cbn [negb] in H; [|discriminate].
  destruct (JSON_parse_text body) as [data|e] eqn:Hp;
    [|destruct (is_SyntaxError e); discriminate].
  destruct (parseResponse config data) as [v|e] eqn:Hr;
    [|destruct (is_SyntaxError e); discriminate].
  destruct (get_prop v (js "totalScore")) as [ts|e] eqn:Hts;
    [|destruct (is_SyntaxError e); discriminate].
  destruct (typeof_is TNumber ts) eqn:Hnum; cbn [negb] in H; [|discriminate].
  destruct (get_prop v (js "reasoning")) as [rs|e] eqn:Hrs;
    [|destruct (is_SyntaxError e); discriminate].
  destruct (typeof_is TString rs) eqn:Hstr; cbn [negb] in H; [|discriminate].
  inversion H; subst. exists config, status, body.
  repeat split; try assumption.
  - unfold decode, bindC. rewrite Hp. exact Hr.
  - apply typeof_number in Hnum as [n ->]. apply typeof_string in Hstr as [s ->].
    exists n, s. split; assumption.
Qed.

(** The handlers always call [sendResponse]: no exception leaves them. *)
Lemma handleScoreProfile_replies settings pd net log :
  exists reply log', handleScoreProfile settings pd net log = (Normal reply, log').
Proof.
  unfold handleScoreProfile. net_unfold.
  repeat net_step; eauto; discriminate.
Qed.

Lemma handleTestConnection_replies provider model key net log :
  exists reply log', handleTestConnection provider model key net log = (Normal reply, log').
Proof.
  unfold handleTestConnection. net_unfold.
  repeat net_step; eauto; discriminate.
Qed.

(** A failure of [callLLMAPI] reaches the content script as a failure
    reply that carries the message of the error. *)
Lemma handleScoreProfile_failure (provider model key : jsstring) pd net log e log' :
  provider <> [] -> model <> [] -> key <> [] ->
  callLLMAPI provider model key pd net log = (Throw e, log') ->
  handleScoreProfile (mkSettings (Some provider) (Some model) (Some key)) pd net log
  = (Normal (ReplyFailure (message_or e (js "Failed to score profile"))), log').
Proof.
  intros Hp Hm Hk H. unfold handleScoreProfile. net_unfold. cbn [modelProvider modelSelection apiKey setting falsy].
  destruct provider; [congruence|]. destruct model; [congruence|].
  destruct key; [congruence|]. cbn [orb]. rewrite H. reflexivity.
Qed.

(** Every score reply of [handleScoreProfile] carries a number and a
    string, so the content script can read every reply it gets. *)
Lemma handleScoreProfile_as_response settings pd net log reply log' :
  handleScoreProfile settings pd net log = (Normal reply, log') ->
  exists r, as_response reply = Some r.
Proof.
  unfold handleScoreProfile. unfold try_catch at 1. unfold bind at 1.
  destruct (_ || _).
  { unfold ret. intros H. inversion H; subst. eexists. reflexivity. }
  destruct (callLLMAPI _ _ _ _ _ _) as [[result|e] log1] eqn:Hcall.
  - destruct (callLLMAPI_returns _ _ _ _ _ _ _ _ Hcall)
      as (_ & _ & _ & _ & _ & _ & _ & (n & s & Hn & Hs) & _).
    net_unfold. rewrite Hn, Hs. intros H. inversion H; subst.
    eexists. reflexivity.
  - unfold ret. intros H. inversion H; subst. eexists. reflexivity.
Qed.

(** C10. If one of the three persisted settings (provider id, model id, API
    key) is missing when a [scoreProfile] message arrives, the adapter
    replies with the failure [{ success: false, error: 'Extension not
    configured. ...' }] and issues no HTTP request: the log of requests is
    left as it was. *)
Theorem unconfigured_replies_without_request :
  forall (settings : Settings) (pd : ProfileData) net (log : list Request),
    modelProvider settings = None \/ modelSelection settings = None
    \/ apiKey settings = None ->
    handleScoreProfile settings pd net log
    = (Normal (ReplyFailure
                 (js "Extension not configured. Please set up your API key in the popup.")),
       log).
Proof.
  intros settings pd net log H. unfold handleScoreProfile. net_unfold.
  assert (Hf : falsy (modelProvider settings) || falsy (modelSelection settings)
               || falsy (apiKey settings) = true).
  { destruct H as [H|[H|H]]; rewrite H; cbn [falsy];
      rewrite ?orb_true_r; reflexivity. }
  rewrite Hf. reflexivity.
Qed.

Lemma unconfigured_replies_without_request_witness :
  handleScoreProfile settings_without_key testProfileData (always 200 []) []
  = (Normal (ReplyFailure
               (js "Extension not configured. Please set up your API key in the popup.")),
     []).
Proof.
  apply (unconfigured_replies_without_request settings_without_key).
  right. right. reflexivity.
Defined.

(** *** The shape of a result *)

(** C5, as stated, fails: a response whose reasoning is the empty string
    is returned by [callLLMAPI]. *)
Lemma callLLMAPI_returns_empty_reasoning :
  ~ (forall provider model key pd net log result log',
        callLLMAPI provider model key pd net log = (Normal result, log') ->
        has_result_shape result /\ has_nonempty_reasoning result).
Proof.
  intros claim.
  pose (net := always 200 (openai_body (score_text (JNum (num_of_Z 5)) (JStr [])))).
  pose (run := callLLMAPI (js "openai") (js "gpt-4o") (js "sk-test")
                 testProfileData net []).
  assert (E : run = (Normal (JObj [(js "totalScore", JNum (num_of_Z 5));
                                   (js "reasoning", JStr [])]), snd run)).
  { rewrite (surjective_pairing run) at 1.
    apply (f_equal2 pair); [vm_compute; reflexivity | reflexivity]. }
  destruct (claim _ _ _ _ _ _ _ _ E) as [_ [s [Hs Hne]]].
  vm_compute in Hs. inversion Hs; subst. apply Hne. reflexivity.
Qed.

(** C5, amended.  If [callLLMAPI] returns a result, the result has a
    numeric [totalScore] and a string [reasoning] (which may be empty);
    and a decoded response that lacks this shape makes [callLLMAPI] throw
    instead of returning it. *)
Theorem callLLMAPI_result_shape :
  forall provider model key pd net log,
    (forall result log',
        callLLMAPI provider model key pd net log = (Normal result, log') ->
        has_result_shape result)
    /\ (forall config status body v,
           API_CONFIGS provider = OwnConfig config ->
           net (request_for config model key pd) = HttpResponse status body ->
           response_ok status = true ->
           decode config body = Normal v ->
           ~ has_result_shape v ->
           exists e log', callLLMAPI provider model key pd net log = (Throw e, log')).
Proof.
  intros provider model key pd net log. split.
  - intros result log' H.
    destruct (callLLMAPI_returns _ _ _ _ _ _ _ _ H)
      as (config & status & body & _ & _ & _ & _ & Hshape & _).
    exact Hshape.
  - intros config status body v Hc Hn Hok Hd Hshape.
    destruct (callLLMAPI provider model key pd net log) as [[r|e] log'] eqn:H;
      [|eauto].
    exfalso.
    destruct (callLLMAPI_returns _ _ _ _ _ _ _ _ H)
      as (config' & status' & body' & Hc' & Hn' & _ & Hd' & Hshape' & _).
    rewrite Hc in Hc'. inversion Hc'; subst config'.
    rewrite Hn in Hn'. inversion Hn'; subst.
    rewrite Hd in Hd'. inversion Hd'; subst. contradiction.
Qed.

Lemma callLLMAPI_result_shape_witness :
  has_result_shape (JObj [(js "totalScore", JNum (num_of_Z 21));
                          (js "reasoning", JStr (js "Founder keyword +10"))])
  /\ exists e log',
       callLLMAPI (js "openai") (js "gpt-4o") (js "sk-test") testProfileData
         (always 200 (openai_body (score_text (JStr (js "high")) (JStr (js "x")))))
         []
       = (Throw e, log').
Proof.
  split.
  - pose (net := always 200
                   (openai_body (score_text (JNum (num_of_Z 21))
                                   (JStr (js "Founder keyword +10"))))).
    pose (run := callLLMAPI (js "openai") (js "gpt-4o") (js "sk-test")
                   testProfileData net []).
    apply (proj1 (callLLMAPI_result_shape (js "openai") (js "gpt-4o")
                    (js "sk-test") testProfileData net []) _ (snd run)).
    fold run. rewrite (surjective_pairing run) at 1.
    apply (f_equal2 pair); [vm_compute; reflexivity | reflexivity].
  - apply (proj2 (callLLMAPI_result_shape (js "openai") (js "gpt-4o")
                    (js "sk-test") testProfileData
                    (always 200 (openai_body (score_text (JStr (js "high"))
                                                (JStr (js "x"))))) [])
             openai 200
             (openai_body (score_text (JStr (js "high")) (JStr (js "x"))))
             (JObj [(js "totalScore", JStr (js "high"));
                    (js "reasoning", JStr (js "x"))])).
    + reflexivity.
    + reflexivity.
    + reflexivity.
    + vm_compute. reflexivity.
    + intros (n & s & H1 & _). vm_compute in H1. discriminate.
Defined.

(** C4, at the input where the classification fails: the provider answers
    200 and the text of its message is [null].  The text decodes (to the
    value [null]), so this is a failure of shape, not of decoding; but
    [callLLMAPI] throws the TypeError of reading [totalScore] from [null]
    instead of the malformed-response error, and [handleScoreProfile]
    replies with the message of the TypeError.  The same happens when the
    content of the message is the JSON value [null] rather than a text.
    A provider id that names a property of [Object.prototype] is not
    reported as unsupported either: the lookup finds the inherited
    property and the call of its [headers] throws. *)
Theorem null_payload_is_not_classified :
  decode openai (openai_body (JStr (js "null"))) = Normal JNull
  /\ fst (callLLMAPI (js "openai") (js "gpt-4o") (js "sk-test") testProfileData
            (always 200 (openai_body (JStr (js "null")))) [])
     = Throw (mkError NameTypeError
                (js "Cannot read properties of null (reading 'totalScore')"))
  /\ fst (handleScoreProfile
            (mkSettings (Some (js "openai")) (Some (js "gpt-4o")) (Some (js "sk-test")))
            testProfileData (always 200 (openai_body (JStr (js "null")))) [])
     = Normal (ReplyFailure
                 (js "Cannot read properties of null (reading 'totalScore')"))
  /\ fst (callLLMAPI (js "openai") (js "gpt-4o") (js "sk-test") testProfileData
            (always 200 (openai_body JNull)) [])
     = Throw (mkError NameTypeError
                (js "Cannot read properties of null (reading 'totalScore')"))
  /\ callLLMAPI (js "constructor") (js "gpt-4o") (js "sk-test") testProfileData
       (always 200 (openai_body JNull)) []
     = (Throw (mkError NameTypeError (js "config.headers is not a function")), []).
Proof.
  refine (conj _ (conj _ (conj _ (conj _ _)))); vm_compute; reflexivity.
Qed.

(** ** The card watcher: pure functions *)

(** C3. The tier classification is total over the integers and
    boundary-exact with inclusive lower bounds, the highest matching tier
    winning: a score of at least 20 is excellent, 10 to 19 good, 5 to 9
    fair, 0 to 4 poor, and a negative score negative (so 20 is excellent,
    19 and 10 good, 9 and 5 fair, 4 and 0 poor, -1 negative).  The class
    names are the tier names prefixed with [score-]. *)
Theorem getScoreClass_tiers :
  forall s : Z,
    ((20 <= s)%Z -> getScoreClass (num_of_Z s) = js "score-excellent")
    /\ ((10 <= s <= 19)%Z -> getScoreClass (num_of_Z s) = js "score-good")
    /\ ((5 <= s <= 9)%Z -> getScoreClass (num_of_Z s) = js "score-fair")
    /\ ((0 <= s <= 4)%Z -> getScoreClass (num_of_Z s) = js "score-poor")
    /\ ((s < 0)%Z -> getScoreClass (num_of_Z s) = js "score-negative").
Proof.
  intros s. unfold getScoreClass, num_ge, num_of_Z. cbn [expo mant].
  change (0 <=? 0)%Z with true. cbn iota. change (10 ^ 0)%Z with 1%Z.
  rewrite Z.mul_1_r.
  repeat split; intros H;
    repeat match goal with
           | |- context [(?a <=? ?b)%Z] => destruct (Z.leb_spec a b); try lia
           end; reflexivity.
Qed.

Lemma getScoreClass_tiers_witness :
  getScoreClass (num_of_Z 20) = js "score-excellent"
  /\ getScoreClass (num_of_Z 19) = js "score-good"
  /\ getScoreClass (num_of_Z 10) = js "score-good"
  /\ getScoreClass (num_of_Z 9) = js "score-fair"
  /\ getScoreClass (num_of_Z 5) = js "score-fair"
  /\ getScoreClass (num_of_Z 4) = js "score-poor"
  /\ getScoreClass (num_of_Z 0) = js "score-poor"
  /\ getScoreClass (num_of_Z (-1)) = js "score-negative".
Proof.
  refine (conj _ (conj _ (conj _ (conj _ (conj _ (conj _ (conj _ _))))))).
  - apply (proj1 (getScoreClass_tiers 20)). lia.
  - apply (proj1 (proj2 (getScoreClass_tiers 19))). lia.
  - apply (proj1 (proj2 (getScoreClass_tiers 10))). lia.
  - apply (proj1 (proj2 (proj2 (getScoreClass_tiers 9)))). lia.
  - apply (proj1 (proj2 (proj2 (getScoreClass_tiers 5)))). lia.
  - apply (proj1 (proj2 (proj2 (proj2 (getScoreClass_tiers 4))))). lia.
  - apply (proj1 (proj2 (proj2 (proj2 (getScoreClass_tiers 0))))). lia.
  - apply (proj2 (proj2 (proj2 (proj2 (getScoreClass_tiers (-1)))))). lia.
Defined.

(** C2, as stated, fails when the normalized text is the text of the
    snapshot (white space collapsed, then trimmed): two cards with the
    same snapshot text, which differ in the white space inside their
    texts, have different identities. *)
Lemma getCardId_differs_on_equal_snapshots :
  ~ (forall c1 c2 : Card,
        substring0 100 (text (extractProfileData c1))
        = substring0 100 (text (extractProfileData c2)) ->
        getCardId c1 = getCardId c2).
Proof.
  intros claim.
  assert (Hsame : text (extractProfileData jane_spaced)
                  = text (extractProfileData jane_plain))
    by (vm_compute; reflexivity).
  assert (Hids : getCardId jane_spaced = getCardId jane_plain).
  { apply claim. rewrite Hsame. reflexivity. }
  vm_compute in Hids. discriminate.
Qed.

(** C2, amended.  [getCardId] is a function of the card's text content
    alone, and the only normalisation it applies is [trim]: two cards
    whose trimmed text contents agree on their first 100 code units have
    the same identity (both identities are the same string, or both
    computations throw). *)
Theorem getCardId_collision :
  forall c1 c2 : Card,
    (textContent c1 = textContent c2 -> getCardId c1 = getCardId c2)
    /\ (substring0 100 (trim (textContent c1))
        = substring0 100 (trim (textContent c2)) ->
        getCardId c1 = getCardId c2).
Proof.
  intros c1 c2. split; intros H; unfold getCardId; rewrite H; reflexivity.
Qed.

Lemma getCardId_collision_witness :
  textContent jane_first <> textContent jane_second
  /\ getCardId jane_first = getCardId jane_second
  /\ getCardId jane_first = Normal (js "SmFuZSBEb2UsIEZvdW5k").
Proof.
  split; [|split].
  - vm_compute. discriminate.
  - apply (proj2 (getCardId_collision jane_first jane_second)).
    vm_compute. reflexivity.
  - vm_compute. reflexivity.
Defined.

(** After [\s+] has been replaced by a space no line feed is left, so the
    replacement of [\n+] that follows changes nothing. *)
Lemma replace_runs_no_newline (s : jsstring) (b : bool) :
  Forall (fun c => is_newline c = false)
    (replace_runs_from is_space (js " ") b s).
Proof.
  revert b. induction s as [|c s IH]; intros b; cbn [replace_runs_from].
  - constructor.
  - destruct (is_space c) eqn:Hc.
    + destruct b; [apply IH|]. change (js " ") with [32].
      cbn [app]. constructor; [reflexivity | apply IH].
    + constructor; [|apply IH].
      unfold is_newline. destruct (N.eqb_spec c 10) as [->|]; [discriminate|reflexivity].
Qed.

Lemma replace_runs_absent p r (s : jsstring) :
  Forall (fun c => p c = false) s -> replace_runs_from p r false s = s.
Proof.
  induction 1 as [|c s Hc _ IH]; cbn [replace_runs_from]; [reflexivity|].
  rewrite Hc, IH. reflexivity.
Qed.

(** The text of the snapshot is the card's text content, trimmed, with
    every run of white space (line feeds included) collapsed to one space. *)
Lemma extractProfileData_text (card : Card) :
  text (extractProfileData card)
  = trim (replace_runs is_space (js " ") (trim (textContent card))).
Proof.
  unfold extractProfileData. cbn [text]. unfold replace_runs at 1.
  rewrite replace_runs_absent; [reflexivity|].
  apply replace_runs_no_newline.
Qed.

(** The flag of the snapshot is [null] for a card without an image that
    matches [SELECTORS.profileImage], and a boolean otherwise. *)
Lemma extractProfileData_flag (card : Card) :
  match profileImage card with
  | None => hasProfilePic (extractProfileData card) = JNull
  | Some _ => exists b, hasProfilePic (extractProfileData card) = JBool b
  end.
Proof.
  unfold extractProfileData. cbn [hasProfilePic].
  destruct (profileImage card); eauto.
Qed.

(** C9, at the input where it fails: a card with no profile image.  The
    text of the snapshot is the collapsed and trimmed text of the card,
    but the flag is [null], not a boolean, and the provider is told
    [Has Profile Picture: null] although the prompt announces a boolean. *)
Theorem snapshot_flag_is_null_without_image :
  extractProfileData jane_second
  = {| text := js "Jane Doe, Founder at Acme, San Francisco Bay Area. Building developer tools for data teams since 2019. 3 mutual connections";
       hasProfilePic := JNull |}
  /\ typeof (hasProfilePic (extractProfileData jane_second)) = TObject
  /\ user_content (formatRequest anthropic (js "claude-3-haiku-20240307") []
                     (extractProfileData jane_second))
     = Normal (JStr ([10; 10] ++ js "Profile Data:" ++ [10]
                     ++ text (extractProfileData jane_second) ++ [10]
                     ++ js "Has Profile Picture: null")).
Proof. refine (conj _ (conj _ _)); vm_compute; reflexivity. Qed.

(** ** The card watcher: processing one card *)

(** C7. For a card whose snapshot text is shorter than 10 code units,
    [processInvitationCard] aborts silently: the page is left as it was (no
    badge of any kind is attached), no call is left pending, no message is
    sent and nothing is written to the error console; the only effects are
    the processing mark and a line on the console log. *)
Theorem short_snapshot_is_skipped :
  forall (st : State) (e : nat) (card : Card),
    page st !! e = Some card ->
    (length (text (extractProfileData card)) < 10)%nat ->
    page (processInvitationCard e st) = page st
    /\ pending (processInvitationCard e st) = pending st
    /\ fresh (processInvitationCard e st) = fresh st
    /\ exists new,
         effects (processInvitationCard e st) = new ++ effects st
         /\ Forall quiet new.
Proof.
  intros st e card Hcard Hshort. unfold processInvitationCard. rewrite Hcard.
  destruct (getCardId card) as [cardId|err].
  - apply Nat.ltb_lt in Hshort. rewrite Hshort, orb_true_r. cbn.
    repeat split.
    exists [ConsoleLog (js "LinkedIn Lead Scorer: Insufficient profile data, skipping card");
            Marked cardId].
    split; [reflexivity|]. repeat constructor.
  - repeat split. exists []. split; [reflexivity|constructor].
Qed.

Lemma short_snapshot_is_skipped_witness :
  isValidInvitationCard sparse_card = true
  /\ text (extractProfileData sparse_card) = js "Ann B"
  /\ page (processInvitationCard 0 (initial [sparse_card])) = [sparse_card]
  /\ pending (processInvitationCard 0 (initial [sparse_card])) = []
  /\ sent_ids (effects (processInvitationCard 0 (initial [sparse_card]))) = [].
Proof.
  assert (H := short_snapshot_is_skipped (initial [sparse_card]) 0 sparse_card
                 eq_refl ltac:(vm_compute; lia)).
  destruct H as (Hpage & Hpending & _ & _).
  refine (conj _ (conj _ (conj Hpage (conj Hpending _)))); vm_compute; reflexivity.
Defined.

(** What a call of [processInvitationCard] does to the set and to the
    history when the identity of the card can be computed. *)
Lemma processInvitationCard_effects st e card cardId :
  page st !! e = Some card ->
  getCardId card = Normal cardId ->
  processedCards (processInvitationCard e st) = {[cardId]} ∪ processedCards st
  /\ (effects (processInvitationCard e st)
      = ConsoleLog (js "LinkedIn Lead Scorer: Insufficient profile data, skipping card")
        :: Marked cardId :: effects st
      \/ effects (processInvitationCard e st)
         = Sent (fresh st) cardId (extractProfileData card)
           :: Marked cardId :: effects st).
Proof.
  intros Hcard Hid. unfold processInvitationCard. rewrite Hcard, Hid.
  destruct (is_empty _ || _); cbn; auto.
Qed.

Lemma processInvitationCard_unchanged st e :
  (page st !! e = None
   \/ exists card err, page st !! e = Some card /\ getCardId card = Throw err) ->
  processInvitationCard e st = st.
Proof.
  unfold processInvitationCard. intros [H|(card & err & H1 & H2)].
  - rewrite H. reflexivity.
  - rewrite H1, H2. reflexivity.
Qed.

(** ** The card watcher: a page lifetime *)

Lemma silent_same st st' :
  processedCards st' = processedCards st ->
  effects st' = effects st ->
  fresh st' = fresh st ->
  pending st' = pending st ->
  silent st st'.
Proof.
  intros Hp He Hf Hq. split; [exact Hp|]. split.
  - exists []. split; [exact He|constructor].
  - rewrite Hf, Hq. split; [reflexivity|auto].
Qed.

Lemma silent_refl st : silent st st.
Proof. apply silent_same; reflexivity. Qed.

Lemma silent_emit st eff : is_console eff -> silent st (emit eff st).
Proof.
  intros H. split; [reflexivity|]. split.
  - exists [eff]. split; [reflexivity|]. constructor; [exact H|constructor].
  - split; [reflexivity|auto].
Qed.

Lemma silent_resume k outcome st : silent st (resume k outcome st).
Proof.
  unfold resume. destruct (List.find _ _) as [p|]; [|apply silent_refl].
  assert (Hq : forall q, In q (List.filter
                                 (fun q => negb (Nat.eqb (pending_request q) k))
                                 (pending st)) -> In q (pending st)).
  { intros q Hin. apply List.filter_In in Hin as [Hin _]. exact Hin. }
  destruct outcome as [[[score reasoning|error]|]|error];
    (split; [reflexivity|]); (split; [eexists [_]; split; [reflexivity|];
                                      repeat constructor|]);
    (split; [cbn; lia|exact Hq]).
Qed.

(** Handlers seen through a preorder on states that silent changes and
    the processing of a card whose identity is new respect. *)
Section Preserved.

Variable R : State -> State -> Prop.
Hypothesis R_refl : forall st, R st st.
Hypothesis R_trans : forall st1 st2 st3, R st1 st2 -> R st2 st3 -> R st1 st3.
Hypothesis R_silent : forall st st', silent st st' -> R st st'.
Hypothesis R_process :
  forall st e card cardId,
    page st !! e = Some card ->
    getCardId card = Normal cardId ->
    cardId ∉ processedCards st ->
    R st (processInvitationCard e st).

Lemma preserved_hret {A} (a : A) : preserved R (hret a).
Proof. intros st. apply R_refl. Qed.

Lemma preserved_hbind {A B} (m : Handler A) (k : A -> Handler B) :
  preserved R m -> (forall a, preserved R (k a)) -> preserved R (hbind m k).
Proof.
  intros Hm Hk st. unfold hbind. specialize (Hm st).
  destruct (m st) as [[a|err] st1]; cbn [snd] in *; [|exact Hm].
  eapply R_trans; [exact Hm|apply Hk].
Qed.

Lemma preserved_emit eff : is_console eff -> preserved R (effect (emit eff)).
Proof. intros H st. apply R_silent, silent_emit, H. Qed.

Lemma preserved_forEach {A} (l : list A) (f : A -> Handler bool) b :
  (forall x, preserved R (f x)) -> preserved R (forEach l f b).
Proof.
  intros Hf. revert b. induction l as [|x l IH]; intros b; cbn [forEach].
  - apply preserved_hret.
  - apply preserved_hbind; [apply Hf|]. intros a. apply IH.
Qed.

Lemma preserved_process_unless_processed e :
  preserved R (process_unless_processed e).
Proof.
  intros st. unfold process_unless_processed.
  destruct (page st !! e) as [card|] eqn:Hcard; [|apply R_refl].
  unfold isCardProcessed, bindC.
  destruct (getCardId card) as [cardId|err] eqn:Hid; [|apply R_refl].
  destruct (bool_decide (cardId ∈ processedCards st)) eqn:Hin; [apply R_refl|].
  destruct (has_badge card); cbn [orb snd]; [apply R_refl|].
  apply bool_decide_eq_false in Hin. eapply R_process; eassumption.
Qed.

Lemma preserved_observe_node node : preserved R (observe_node node).
Proof.
  destruct node as [|self inside]; cbn [observe_node]; [apply preserved_hret|].
  apply preserved_hbind.
  - intros st. destruct self as [e|]; [|apply R_refl].
    destruct (page st !! e) as [card|]; [|apply R_refl].
    destruct (isInvitationCard card); [|apply R_refl].
    apply preserved_process_unless_processed.
  - intros b1. apply preserved_hbind; [|intros b2; apply preserved_hret].
    intros st. apply preserved_forEach. apply preserved_process_unless_processed.
Qed.

Lemma preserved_observer_callback records :
  preserved R (observer_callback records).
Proof.
  unfold observer_callback. apply preserved_hbind.
  - apply preserved_forEach. intros nodes. apply preserved_forEach.
    apply preserved_observe_node.
  - intros [|]; [apply preserved_emit; exact I|apply preserved_hret].
Qed.

Lemma preserved_processExistingCards : preserved R processExistingCards.
Proof.
  intros st. unfold processExistingCards.
  match goal with
  | |- R st (snd (hbind ?m ?k (emit ?eff st))) =>
      apply (R_trans st (emit eff st));
        [apply R_silent, silent_emit; exact I|];
        apply (preserved_hbind m k)
  end.
  - apply preserved_forEach. apply preserved_process_unless_processed.
  - intros b. apply preserved_hret.
Qed.

Lemma preserved_initialize href : preserved R (initialize href).
Proof.
  unfold initialize. apply preserved_hbind; [apply preserved_emit; exact I|].
  intros _. destruct (negb _); [apply preserved_emit; exact I|].
  apply preserved_hbind; [apply preserved_processExistingCards|]. intros _.
  apply preserved_hbind; [|intros _; apply preserved_emit; exact I].
  intros st. apply R_silent. split; [reflexivity|]. split.
  - eexists [_]. split; [reflexivity|]. repeat constructor.
  - split; [reflexivity|auto].
Qed.

(** Every event but the reload message is respected. *)
Lemma preserved_step st ev : is_reload ev = false -> R st (step st ev).
Proof.
  intros Hev. unfold step. destruct ev; cbn [handle]; try discriminate.
  - apply preserved_hbind; [apply preserved_initialize|].
    intros _ st'. apply R_silent, silent_same; reflexivity.
  - destruct (observing st); [apply preserved_observer_callback|apply R_refl].
  - apply R_silent, silent_resume.
  - apply R_refl.
  - apply R_silent, silent_same; reflexivity.
  - apply R_silent, silent_same; reflexivity.
Qed.

Lemma preserved_run evs st :
  forallb (fun ev => negb (is_reload ev)) evs = true -> R st (run st evs).
Proof.
  revert st. induction evs as [|ev evs IH]; intros st H; cbn [run fold_left].
  - apply R_refl.
  - cbn [forallb] in H. apply andb_true_iff in H as [Hev Hrest].
    apply negb_true_iff in Hev.
    eapply R_trans; [apply preserved_step; exact Hev|].
    apply IH. exact Hrest.
Qed.

End Preserved.

Lemma sent_ids_app a b : sent_ids (a ++ b) = sent_ids a ++ sent_ids b.
Proof.
  induction a as [|eff a IH]; [reflexivity|].
  destruct eff; cbn [sent_ids app]; rewrite ?IH; reflexivity.
Qed.

Lemma sent_ids_console logs : Forall is_console logs -> sent_ids logs = [].
Proof.
  induction 1 as [|eff logs H _ IH]; [reflexivity|].
  destruct eff; try contradiction; exact IH.
Qed.

Lemma extends_silent st st' : silent st st' -> extends st st'.
Proof.
  intros [Hp [(logs & He & Hlogs) _]]. split; [rewrite Hp; reflexivity|].
  exists []. rewrite He, sent_ids_app, (sent_ids_console logs Hlogs).
  split; [reflexivity|]. split; [constructor|]. intros id [].
Qed.

Lemma extends_refl st : extends st st.
Proof. apply extends_silent, silent_refl. Qed.

Lemma extends_trans st1 st2 st3 :
  extends st1 st2 -> extends st2 st3 -> extends st1 st3.
Proof.
  intros [Hsub1 (n1 & Hs1 & Hnd1 & Hin1)] [Hsub2 (n2 & Hs2 & Hnd2 & Hin2)].
  split; [set_solver|].
  exists (n2 ++ n1). rewrite Hs2, Hs1, app_assoc. split; [reflexivity|]. split.
  - apply NoDup_app. split; [exact Hnd2|]. split; [|exact Hnd1].
    intros id H2 H1. apply list_elem_of_In in H2, H1.
    destruct (Hin2 id H2) as [Hnot _]. destruct (Hin1 id H1) as [_ Hyes].
    contradiction.
  - intros id Hin. apply in_app_or in Hin as [H|H].
    + destruct (Hin2 id H). split; [set_solver|assumption].
    + destruct (Hin1 id H). split; [assumption|set_solver].
Qed.

Lemma extends_process st e card cardId :
  page st !! e = Some card ->
  getCardId card = Normal cardId ->
  cardId ∉ processedCards st ->
  extends st (processInvitationCard e st).
Proof.
  intros Hcard Hid Hin.
  destruct (processInvitationCard_effects st e card cardId Hcard Hid) as [Hp He].
  split; [rewrite Hp; set_solver|].
  destruct He as [He|He]; rewrite He; cbn [sent_ids].
  - exists []. split; [reflexivity|]. split; [constructor|]. intros id [].
  - exists [cardId]. split; [reflexivity|]. split.
    + apply NoDup_singleton.
    + intros id [<-|[]]. split; [assumption|]. rewrite Hp. set_solver.
Qed.

(** Without a reload, a page lifetime only extends the state. *)
Lemma run_extends evs st :
  forallb (fun ev => negb (is_reload ev)) evs = true -> extends st (run st evs).
Proof.
  apply (preserved_run extends extends_refl extends_trans extends_silent
           extends_process).
Qed.

Lemma extends_submissions st st' cardId :
  extends st st' ->
  cardId ∈ processedCards st ->
  submissions cardId (effects st') = submissions cardId (effects st).
Proof.
  intros [_ (news & Hs & _ & Hnews)] Hin.
  unfold submissions. rewrite Hs, List.filter_app, length_app.
  assert (Hnone : List.filter (jsstring_eqb cardId) news = []).
  { clear Hs. induction news as [|id news IH]; [reflexivity|].
    cbn [List.filter]. unfold jsstring_eqb at 1.
    destruct (bool_decide_reflect (cardId = id)) as [<-|Hne].
    - destruct (Hnews cardId (or_introl eq_refl)) as [Hno _]. contradiction.
    - apply IH. intros id' H. apply Hnews. right. exact H. }
  rewrite Hnone. reflexivity.
Qed.

(** Once an identity is in the set, no message is sent for it until a
    reload, and it stays in the set. *)
Lemma no_resubmission evs st cardId :
  forallb (fun ev => negb (is_reload ev)) evs = true ->
  cardId ∈ processedCards st ->
  cardId ∈ processedCards (run st evs)
  /\ submissions cardId (effects (run st evs)) = submissions cardId (effects st).
Proof.
  intros Hevs Hin. pose proof (run_extends evs st Hevs) as Hext. split.
  - destruct Hext as [Hsub _]. set_solver.
  - apply extends_submissions; assumption.
Qed.

(** C1. For every card whose identity can be computed,
    [processInvitationCard] adds the identity to the set, whether it then
    sends the scoring message or skips the card, and it does so first: the
    mark is the first effect of the call, every [Sent] of the call comes
    after it and is for that identity, and the identity is in the set when
    the call suspends or returns.  (Without a card or an identity the call
    does nothing.)  Consequently, whatever the events of a page lifetime
    are and however they interleave (observer firings, replies, changes of
    the page), as long as no reload message arrives no identity is
    submitted for scoring twice. *)
Theorem marked_before_sent_and_at_most_once :
  (forall (st : State) (e : nat) (card : Card) (cardId : jsstring),
      page st !! e = Some card ->
      getCardId card = Normal cardId ->
      cardId ∈ processedCards (processInvitationCard e st)
      /\ exists later,
           effects (processInvitationCard e st)
           = later ++ Marked cardId :: effects st
           /\ forall k id pd, In (Sent k id pd) later -> id = cardId)
  /\ (forall (st : State) (e : nat),
         exists new,
           effects (processInvitationCard e st) = new ++ effects st
           /\ forall k id pd pre post,
                new = pre ++ Sent k id pd :: post ->
                In (Marked id) post
                /\ id ∈ processedCards (processInvitationCard e st))
  /\ (forall (p : list Card) (evs : list Event),
         no_reload evs = true ->
         NoDup (sent_ids (effects (run (initial p) evs)))).
Proof.
  split; [|split].
  - intros st e card cardId Hcard Hid.
    destruct (processInvitationCard_effects st e card cardId Hcard Hid)
      as [Hp [He|He]]; rewrite He, Hp.
    + split; [set_solver|]. eexists [_]. split; [reflexivity|].
      intros k id pd [H|[]]. discriminate.
    + split; [set_solver|]. eexists [_]. split; [reflexivity|].
      intros k id pd [H|[]]. injection H as _ <- _. reflexivity.
  - intros st e.
    destruct (page st !! e) as [card|] eqn:Hcard.
    2:{ rewrite processInvitationCard_unchanged by (left; exact Hcard).
        exists []. split; [reflexivity|]. intros k id pd [|? ?] post H; discriminate. }
    destruct (getCardId card) as [cardId|err] eqn:Hid.
    2:{ rewrite processInvitationCard_unchanged by (right; eauto).
        exists []. split; [reflexivity|]. intros k id pd [|? ?] post H; discriminate. }
    destruct (processInvitationCard_effects st e card cardId Hcard Hid) as [Hp [He|He]];
      rewrite He, Hp.
    + eexists [_; _]. split; [reflexivity|].
      intros k id pd pre post H.
      destruct pre as [|a [|b [|c pre]]]; inversion H.
    + eexists [_; _]. split; [reflexivity|].
      intros k id pd pre post H.
      destruct pre as [|a [|b [|c pre]]]; inversion H; subst.
      split; [left; reflexivity|set_solver].
  - intros p evs H.
    destruct (run_extends evs (initial p) H) as [_ (news & Hs & Hnd & _)].
    rewrite Hs. cbn [initial effects sent_ids]. rewrite app_nil_r.
    exact Hnd.
Qed.

Lemma marked_before_sent_and_at_most_once_witness :
  js "QW5uCgoKICAgICAgQg"
  ∈ processedCards (processInvitationCard 0 (initial [sparse_card]))
  /\ sent_ids (effects (processInvitationCard 0 (initial [sparse_card]))) = []
  /\ NoDup (sent_ids (effects (run (initial [jane_first]) refiring)))
  /\ sent_ids (effects (run (initial [jane_first]) refiring))
     = [js "SmFuZSBEb2UsIEZvdW5k"].
Proof.
  refine (conj _ (conj _ (conj _ _))).
  - apply (proj1 marked_before_sent_and_at_most_once (initial [sparse_card])
             0%nat sparse_card (js "QW5uCgoKICAgICAgQg")).
    + reflexivity.
    + vm_compute. reflexivity.
  - vm_compute. reflexivity.
  - apply (proj2 (proj2 marked_before_sent_and_at_most_once) [jane_first] refiring).
    vm_compute. reflexivity.
  - vm_compute. reflexivity.
Defined.

(** *** The numbering of the pending calls *)

Lemma keeps_fresh_silent st st' : silent st st' -> keeps_fresh st st'.
Proof.
  intros (_ & _ & Hf & Hq) H q Hin. specialize (H q (Hq q Hin)). lia.
Qed.

(** *** The call that suspends *)

(** The state in which [processInvitationCard] suspends after it sent the
    message for a card with a long enough snapshot. *)
Lemma processInvitationCard_sends st e card cardId :
  page st !! e = Some card ->
  getCardId card = Normal cardId ->
  (10 <= length (text (extractProfileData card)))%nat ->
  processInvitationCard e st
  = {| processedCards := {[cardId]} ∪ processedCards st;
       page := alter (insertScoreBadge (createLoadingBadge (fresh st))) e (page st);
       observing := observing st;
       listening := listening st;
       fresh := S (fresh st);
       pending := pending st ++ [mkPending (fresh st) e (fresh st)];
       effects := Sent (fresh st) cardId (extractProfileData card)
                  :: Marked cardId :: effects st |}.
Proof.
  intros Hcard Hid Hlong. unfold processInvitationCard. rewrite Hcard, Hid.
  assert (Hcond : is_empty (text (extractProfileData card))
                  || (length (text (extractProfileData card)) <? 10)%nat = false).
  { apply orb_false_iff. split.
    - destruct (text (extractProfileData card)); [cbn in Hlong; lia|reflexivity].
    - apply Nat.ltb_ge. exact Hlong. }
  rewrite Hcond. reflexivity.
Qed.

(** ** Reload *)

Lemma fold_left_invariant {A B} (f : A -> B -> A) (P : A -> Prop) l a :
  P a -> (forall a x, P a -> P (f a x)) -> P (fold_left f l a).
Proof.
  intros Ha Hf. revert a Ha. induction l as [|x l IH]; intros a Ha; [exact Ha|].
  cbn [fold_left]. apply IH, Hf, Ha.
Qed.

(** The scan returns valid cards of the page, each once. *)
Lemma findInvitationCards_spec (p : list Card) :
  NoDup (findInvitationCards p)
  /\ forall e, In e (findInvitationCards p) ->
               exists card, p !! e = Some card /\ isValidInvitationCard card = true.
Proof.
  unfold findInvitationCards.
  apply (fold_left_invariant _
           (fun cards => NoDup cards
                         /\ forall e, In e cards ->
                                      exists card, p !! e = Some card
                                                   /\ isValidInvitationCard card = true)).
  { split; [constructor|]. intros e []. }
  intros cards i Hcards. apply fold_left_invariant; [exact Hcards|].
  clear cards Hcards. intros cards e [Hnd Hvalid].
  destruct (p !! e) as [card|] eqn:Hcard; [|split; assumption].
  destruct (existsb (Nat.eqb e) cards) eqn:Hex; cbn [negb andb]; [split; assumption|].
  destruct (isValidInvitationCard card) eqn:Hv; [|split; assumption].
  assert (Hnew : ~ In e cards).
  { intros Hin. assert (existsb (Nat.eqb e) cards = true); [|congruence].
    apply existsb_exists. exists e. split; [exact Hin|apply Nat.eqb_refl]. }
  split.
  - apply NoDup_app. split; [exact Hnd|]. split; [|apply NoDup_singleton].
    intros x Hx Hx'. apply list_elem_of_In in Hx. apply list_elem_of_In in Hx'.
    destruct Hx' as [<-|[]]. contradiction.
  - intros e' Hin. apply in_app_or in Hin as [Hin|[<-|[]]]; [apply Hvalid, Hin|].
    exists card. split; assumption.
Qed.
















(** * Further properties *)

(** ** The provider adapter: requests *)

(** What [callLLMAPI] adds to the log of requests. *)
Lemma callLLMAPI_log provider model key pd net log :
  snd (callLLMAPI provider model key pd net log)
  = match API_CONFIGS provider with
    | OwnConfig config => log ++ [request_for config model key pd]
    | _ => log
    end.
Proof.
  unfold callLLMAPI.
  destruct (API_CONFIGS provider) as [config| |]; net_unfold; try reflexivity.
  fold (request_for config model key pd).
  destruct (net (request_for config model key pd)) as [e|status body].
  { destruct (is_SyntaxError e); reflexivity. }
  destruct (response_ok status); cbn [negb]; [|reflexivity].
  destruct (JSON_parse_text body) as [data|e];
    [|destruct (is_SyntaxError e); reflexivity].
  destruct (parseResponse config data) as [v|e];
    [|destruct (is_SyntaxError e); reflexivity].
  destruct (get_prop v (js "totalScore")) as [ts|e];
    [|destruct (is_SyntaxError e); reflexivity].
  destruct (typeof_is TNumber ts); cbn [negb]; [|reflexivity].
  destruct (get_prop v (js "reasoning")) as [rs|e];
    [|destruct (is_SyntaxError e); reflexivity].
  destruct (typeof_is TString rs); reflexivity.
Qed.

Lemma request_for_is_POST config model key pd :
  req_method (request_for config model key pd) = js "POST".
Proof. reflexivity. Qed.

Lemma callLLMAPI_adds provider model key pd net log :
  exists l, snd (callLLMAPI provider model key pd net log) = log ++ l
            /\ (length l <= 1)%nat
            /\ Forall (fun r => req_method r = js "POST") l.
Proof.
  rewrite callLLMAPI_log. destruct (API_CONFIGS provider) as [config| |].
  - eexists [_]. split; [reflexivity|]. split; [cbn; lia|].
    constructor; [reflexivity|constructor].
  - exists []. rewrite app_nil_r. split; [reflexivity|]. split; [cbn; lia|constructor].
  - exists []. rewrite app_nil_r. split; [reflexivity|]. split; [cbn; lia|constructor].
Qed.

(** X1. Whatever message arrives at the service worker, and whatever the
    network answers, the listener issues at most one HTTP request, and it
    is a POST: there is no retry.  A message that is neither
    [scoreProfile] nor [testConnection] gets no reply and causes no
    request. *)
Theorem onMessage_issues_at_most_one_request :
  forall (settings : Settings) (request : Message)
         (net : Request -> FetchOutcome) (log : list Request),
    (exists l, snd (onMessage settings request net log) = log ++ l
               /\ (length l <= 1)%nat
               /\ Forall (fun r => req_method r = js "POST") l)
    /\ onMessage settings OtherMessage net log = (Normal None, log).
Proof.
  intros settings request net log. split; [|reflexivity].
  assert (Hnone : exists l : list Request,
             log = log ++ l /\ (length l <= 1)%nat
             /\ Forall (fun r => req_method r = js "POST") l).
  { exists []. rewrite app_nil_r. split; [reflexivity|]. split; [cbn; lia|constructor]. }
  destruct request as [pd|provider model key|]; cbn [onMessage].
  - unfold bind at 1. unfold handleScoreProfile, try_catch. unfold bind at 1.
    destruct (_ || _); [exact Hnone|].
    pose proof (callLLMAPI_adds (setting (modelProvider settings))
                  (setting (modelSelection settings))
                  (setting (Background.apiKey settings)) pd net log) as H.
    destruct (callLLMAPI _ _ _ _ _ _) as [[result|e] log1]; cbn [snd] in H.
    + net_unfold.
      destruct (get_prop result (js "totalScore"));
        [destruct (get_prop result (js "reasoning"))|]; exact H.
    + exact H.
  - unfold bind at 1. unfold handleTestConnection, try_catch. unfold bind at 1.
    pose proof (callLLMAPI_adds provider model key testProfileData net log) as H.
    destruct (callLLMAPI _ _ _ _ _ _) as [[result|e] log1]; exact H.
  - exact Hnone.
Qed.

(** ** The provider adapter: failures *)

Lemma JSON_parse_text_throws text e :
  JSON_parse_text text = Throw e -> e = json_syntax_error.
Proof.
  unfold JSON_parse_text. destruct (parse_value _ _) as [[v rest]|].
  - destruct (skipWhile is_json_ws rest); [discriminate|]. congruence.
  - congruence.
Qed.

Lemma handleTestConnection_failure provider model key net log e log' :
  callLLMAPI provider model key testProfileData net log = (Throw e, log') ->
  handleTestConnection provider model key net log
  = (Normal (ReplyFailure (message_or e (js "Connection failed"))), log').
Proof.
  intros H. unfold handleTestConnection. net_unfold. rewrite H. reflexivity.
Qed.

Lemma handleTestConnection_success provider model key net log result log' :
  callLLMAPI provider model key testProfileData net log = (Normal result, log') ->
  handleTestConnection provider model key net log
  = (Normal (ReplyConnected (js "Connection successful")), log').
Proof.
  intros H. unfold handleTestConnection. net_unfold. rewrite H. reflexivity.
Qed.

(** X2. A response whose body is not JSON, or whose extracted text is not
    JSON, makes [callLLMAPI] throw the error [LLM returned invalid JSON
    response], whatever the syntax error was; the connection test then
    reports that message. *)
Theorem undecodable_response_is_invalid_json :
  forall (provider model key : jsstring) (config : Config) (pd : ProfileData)
         (net : Request -> FetchOutcome) (log : list Request)
         (status : N) (body : jsstring) (e : JsError),
    API_CONFIGS provider = OwnConfig config ->
    net (request_for config model key pd) = HttpResponse status body ->
    response_ok status = true ->
    JSON_parse_text body = Throw e
    \/ (decode config body = Throw e /\ err_name e = NameSyntaxError) ->
    callLLMAPI provider model key pd net log
    = (Throw (new_Error (js "LLM returned invalid JSON response")),
       log ++ [request_for config model key pd])
    /\ (pd = testProfileData ->
        handleTestConnection provider model key net log
        = (Normal (ReplyFailure (js "LLM returned invalid JSON response")),
           log ++ [request_for config model key pd])).
Proof.
  intros provider model key config pd net log status body e Hc Hn Hok Hbad.
  assert (Hd : decode config body = Throw e /\ err_name e = NameSyntaxError).
  { destruct Hbad as [Hp|Hd]; [|exact Hd].
    pose proof (JSON_parse_text_throws body e Hp) as ->.
    unfold decode. rewrite Hp. split; reflexivity. }
  destruct Hd as [Hd He].
  pose proof (callLLMAPI_invalid_json provider config model key pd net log status
                body e Hc Hn Hok Hd He) as Hcall.
  split; [exact Hcall|]. intros ->.
  rewrite (handleTestConnection_failure _ _ _ _ _ _ _ Hcall). reflexivity.
Qed.

Lemma undecodable_response_is_invalid_json_witness :
  fst (callLLMAPI (js "openai") (js "gpt-4o") (js "sk-test") testProfileData
         (always 200 (js "<html>Bad Gateway</html>")) [])
  = Throw (new_Error (js "LLM returned invalid JSON response"))
  /\ fst (callLLMAPI (js "openai") (js "gpt-4o") (js "sk-test") testProfileData
            (always 200 prose_body) [])
     = Throw (new_Error (js "LLM returned invalid JSON response")).
Proof.
  split.
  - assert (Hbad : JSON_parse_text (js "<html>Bad Gateway</html>")
                   = Throw json_syntax_error) by (vm_compute; reflexivity).
    destruct (undecodable_response_is_invalid_json
                (js "openai") (js "gpt-4o") (js "sk-test") openai
                testProfileData (always 200 (js "<html>Bad Gateway</html>")) []
                200 (js "<html>Bad Gateway</html>") json_syntax_error
                eq_refl eq_refl eq_refl (or_introl Hbad)) as [H _].
    rewrite H. reflexivity.
  - assert (Hbad : decode openai prose_body = Throw json_syntax_error)
      by (vm_compute; reflexivity).
    destruct (undecodable_response_is_invalid_json
                (js "openai") (js "gpt-4o") (js "sk-test") openai
                testProfileData (always 200 prose_body) []
                200 prose_body json_syntax_error
                eq_refl eq_refl eq_refl (or_intror (conj Hbad eq_refl))) as [H _].
    rewrite H. reflexivity.
Defined.

(** X3. An error that is not a syntax error is not classified: when
    [fetch] rejects, or when the body is JSON but lacks the envelope of the
    provider so that the extraction throws a TypeError, [callLLMAPI]
    rethrows that very error, after its one request; [handleScoreProfile]
    replies with its message, or with [Failed to score profile] when the
    message is empty. *)
Theorem other_errors_pass_through :
  forall (provider model key : jsstring) (config : Config) (pd : ProfileData)
         (net : Request -> FetchOutcome) (log : list Request) (e : JsError),
    API_CONFIGS provider = OwnConfig config ->
    model <> [] -> key <> [] ->
    err_name e <> NameSyntaxError ->
    net (request_for config model key pd) = NetworkError e
    \/ (exists status body,
           net (request_for config model key pd) = HttpResponse status body
           /\ response_ok status = true
           /\ decode config body = Throw e) ->
    callLLMAPI provider model key pd net log
    = (Throw e, log ++ [request_for config model key pd])
    /\ handleScoreProfile (mkSettings (Some provider) (Some model) (Some key))
         pd net log
       = (Normal (ReplyFailure (message_or e (js "Failed to score profile"))),
          log ++ [request_for config model key pd]).
Proof.
  intros provider model key config pd net log e Hc Hmodel Hkey He Hcase.
  assert (Hsyn : is_SyntaxError e = false).
  { unfold is_SyntaxError. destruct (err_name e); try reflexivity. congruence. }
  assert (Hcall : callLLMAPI provider model key pd net log
                  = (Throw e, log ++ [request_for config model key pd])).
  { unfold callLLMAPI. rewrite Hc. net_unfold.
    fold (request_for config model key pd).
    destruct Hcase as [Hn|(status & body & Hn & Hok & Hd)]; rewrite Hn.
    - rewrite Hsyn. reflexivity.
    - rewrite Hok. cbn [negb]. unfold decode, bindC in Hd.
      destruct (JSON_parse_text body) as [data|e'].
      + rewrite Hd, Hsyn. reflexivity.
      + inversion Hd; subst. rewrite Hsyn. reflexivity. }
  split; [exact Hcall|].
  apply handleScoreProfile_failure; try assumption.
  intros ->. vm_compute in Hc. discriminate.
Qed.

Lemma other_errors_pass_through_witness :
  handleScoreProfile
    (mkSettings (Some (js "openai")) (Some (js "gpt-4o")) (Some (js "sk-test")))
    testProfileData (always 200 error_envelope) []
  = (Normal (ReplyFailure (js "Cannot read properties of undefined (reading '0')")),
     [request_for openai (js "gpt-4o") (js "sk-test") testProfileData])
  /\ handleScoreProfile
       (mkSettings (Some (js "openai")) (Some (js "gpt-4o")) (Some (js "sk-test")))
       testProfileData (fun _ => NetworkError (mkError NameTypeError [])) []
     = (Normal (ReplyFailure (js "Failed to score profile")),
        [request_for openai (js "gpt-4o") (js "sk-test") testProfileData]).
Proof.
  split.
  - assert (Hd : decode openai error_envelope
                 = Throw (mkError NameTypeError
                            (js "Cannot read properties of undefined (reading '0')")))
      by (vm_compute; reflexivity).
    apply (other_errors_pass_through (js "openai") (js "gpt-4o") (js "sk-test")
             openai testProfileData (always 200 error_envelope) []
             (mkError NameTypeError
                (js "Cannot read properties of undefined (reading '0')"))).
    + reflexivity.
    + discriminate.
    + discriminate.
    + discriminate.
    + right. exists 200, error_envelope. split; [reflexivity|]. split; [reflexivity|].
      exact Hd.
  - apply (other_errors_pass_through (js "openai") (js "gpt-4o") (js "sk-test")
             openai testProfileData
             (fun _ => NetworkError (mkError NameTypeError [])) []
             (mkError NameTypeError [])).
    + reflexivity.
    + discriminate.
    + discriminate.
    + discriminate.
    + left. reflexivity.
Defined.

(** A success response whose decoded value has the shape is returned. *)
Lemma callLLMAPI_success provider config model key pd net log status body v :
  API_CONFIGS provider = OwnConfig config ->
  net (request_for config model key pd) = HttpResponse status body ->
  response_ok status = true ->
  decode config body = Normal v ->
  has_result_shape v ->
  callLLMAPI provider model key pd net log
  = (Normal v, log ++ [request_for config model key pd]).
Proof.
  intros Hc Hn Hok Hd (n & s & Hts & Hrs). unfold callLLMAPI. rewrite Hc.
  net_unfold. fold (request_for config model key pd). rewrite Hn, Hok.
  cbn [negb]. unfold decode, bindC in Hd.
  destruct (JSON_parse_text body) as [data|e']; [|discriminate].
  rewrite Hd, Hts. cbn [typeof_is typeof negb]. rewrite Hrs. reflexivity.
Qed.

(** X4. A decoded value other than [null] that lacks a numeric
    [totalScore] or a string [reasoning] (a score sent as a string, say)
    is rejected with [Invalid response format from LLM], and that is the
    error the content script is sent. *)
Theorem misshapen_result_is_rejected :
  forall (provider model key : jsstring) (config : Config) (pd : ProfileData)
         (net : Request -> FetchOutcome) (log : list Request)
         (status : N) (body : jsstring) (v : JsValue),
    API_CONFIGS provider = OwnConfig config ->
    model <> [] -> key <> [] ->
    net (request_for config model key pd) = HttpResponse status body ->
    response_ok status = true ->
    decode config body = Normal v ->
    v <> JNull -> v <> JUndefined ->
    ~ has_result_shape v ->
    handleScoreProfile (mkSettings (Some provider) (Some model) (Some key))
      pd net log
    = (Normal (ReplyFailure (js "Invalid response format from LLM")),
       log ++ [request_for config model key pd]).
Proof.
  intros provider model key config pd net log status body v
    Hc Hmodel Hkey Hn Hok Hd Hnull Hundef Hshape.
  assert (Hprovider : provider <> []).
  { intros ->. vm_compute in Hc. discriminate. }
  exact (handleScoreProfile_failure provider model key pd net log _ _
           Hprovider Hmodel Hkey
           (callLLMAPI_malformed provider config model key pd net log status body
              v Hc Hn Hok Hd Hnull Hundef Hshape)).
Qed.

Lemma misshapen_result_is_rejected_witness :
  handleScoreProfile
    (mkSettings (Some (js "openai")) (Some (js "gpt-4o")) (Some (js "sk-test")))
    testProfileData
    (always 200 (openai_body (score_text (JStr (js "21")) (JStr (js "Founder")))))
    []
  = (Normal (ReplyFailure (js "Invalid response format from LLM")),
     [request_for openai (js "gpt-4o") (js "sk-test") testProfileData]).
Proof.
  apply (misshapen_result_is_rejected (js "openai") (js "gpt-4o") (js "sk-test")
           openai testProfileData
           (always 200 (openai_body (score_text (JStr (js "21")) (JStr (js "Founder")))))
           [] 200 (openai_body (score_text (JStr (js "21")) (JStr (js "Founder"))))
           (JObj [(js "totalScore", JStr (js "21"));
                  (js "reasoning", JStr (js "Founder"))])).
  - reflexivity.
  - discriminate.
  - discriminate.
  - reflexivity.
  - reflexivity.
  - vm_compute. reflexivity.
  - discriminate.
  - discriminate.
  - intros (n & s & H & _). vm_compute in H. discriminate.
Defined.

(** X5. The connection test succeeds exactly when the provider is one of
    [API_CONFIGS], answers the request built for the fixed test profile
    with a success status, and the decoded result has the shape; the score
    itself is not looked at.  Otherwise the reply is a failure. *)
Theorem connection_test_succeeds_iff :
  forall (provider model key : jsstring) (net : Request -> FetchOutcome)
         (log : list Request),
    (fst (handleTestConnection provider model key net log)
     = Normal (ReplyConnected (js "Connection successful"))
     <-> exists config status body v,
           API_CONFIGS provider = OwnConfig config
           /\ net (request_for config model key testProfileData)
              = HttpResponse status body
           /\ response_ok status = true
           /\ decode config body = Normal v
           /\ has_result_shape v)
    /\ (fst (handleTestConnection provider model key net log)
        = Normal (ReplyConnected (js "Connection successful"))
        \/ exists error,
             fst (handleTestConnection provider model key net log)
             = Normal (ReplyFailure error)).
Proof.
  intros provider model key net log.
  destruct (callLLMAPI provider model key testProfileData net log)
    as [[result|e] log'] eqn:Hcall.
  - rewrite (handleTestConnection_success _ _ _ _ _ _ _ Hcall). cbn [fst].
    split; [|left; reflexivity]. split; [intros _|reflexivity].
    destruct (callLLMAPI_returns _ _ _ _ _ _ _ _ Hcall)
      as (config & status & body & Hc & Hn & Hok & Hd & Hshape & _).
    exists config, status, body, result. repeat split; assumption.
  - rewrite (handleTestConnection_failure _ _ _ _ _ _ _ Hcall). cbn [fst].
    split; [|right; eexists; reflexivity]. split; [discriminate|].
    intros (config & status & body & v & Hc & Hn & Hok & Hd & Hshape).
    rewrite (callLLMAPI_success _ _ _ _ _ _ log _ _ _ Hc Hn Hok Hd Hshape) in Hcall.
    discriminate.
Qed.

(** ** The card watcher: identities *)

Lemma forallb_firstn {A} (p : A -> bool) n l :
  forallb p l = true -> forallb p (firstn n l) = true.
Proof.
  revert n. induction l as [|x l IH]; intros [|n] H; try reflexivity.
  cbn [firstn forallb] in *. apply andb_true_iff in H as [Hx Hl].
  rewrite Hx, IH by exact Hl. reflexivity.
Qed.

Lemma forallb_filter_same {A} (p : A -> bool) l :
  forallb p (List.filter p l) = true.
Proof.
  induction l as [|x l IH]; [reflexivity|]. cbn [List.filter].
  destruct (p x) eqn:Hx; [|exact IH]. cbn [forallb]. rewrite Hx, IH. reflexivity.
Qed.

Lemma forallb_latin1 (s : jsstring) :
  forallb (fun c => c <=? 255) s = negb (existsb (fun c => 255 <? c) s).
Proof.
  induction s as [|c s IH]; [reflexivity|]. cbn [forallb existsb].
  rewrite IH, negb_orb. f_equal. rewrite N.ltb_antisym, negb_involutive.
  reflexivity.
Qed.

(** X6. An identity, when [getCardId] returns one, has at most 20
    characters, all of them letters or digits; and [getCardId] throws
    exactly when one of the first 100 code units of the trimmed text of the
    card lies outside Latin-1 (above U+00FF). *)
Theorem getCardId_shape :
  forall card : Card,
    (forall id, getCardId card = Normal id ->
                (length id <= 20)%nat /\ forallb is_alnum id = true)
    /\ ((exists e, getCardId card = Throw e)
        <-> existsb (fun c => 255 <? c)
              (substring0 100 (trim (textContent card))) = true).
Proof.
  intros card. unfold getCardId, btoa, bindC. rewrite forallb_latin1.
  destruct (existsb _ _); cbn [negb].
  - split; [intros id H; discriminate|]. split; [reflexivity|]. intros _.
    eexists. reflexivity.
  - split.
    + intros id H.
      assert (Hid : id = substring0 20
                           (strip_non_alnum
                              (b64_encode (substring0 100 (trim (textContent card))))))
        by congruence.
      rewrite Hid. split.
      * apply firstn_le_length.
      * apply forallb_firstn, forallb_filter_same.
    + split; [intros [e H]; discriminate|discriminate].
Qed.

(** ** The card watcher: the snapshot *)

Lemma skipWhile_head p s c r : skipWhile p s = c :: r -> p c = false.
Proof.
  induction s as [|x s IH]; cbn [skipWhile]; [discriminate|].
  destruct (p x) eqn:Hx; [exact IH|]. intros H. inversion H; subst. exact Hx.
Qed.

Lemma skipWhile_split p s :
  exists w, s = w ++ skipWhile p s /\ forallb p w = true.
Proof.
  induction s as [|x s (w & Hs & Hw)]; [exists []; split; reflexivity|].
  cbn [skipWhile]. destruct (p x) eqn:Hx.
  - exists (x :: w). cbn [app forallb]. rewrite Hx, Hw, <- Hs. split; reflexivity.
  - exists []. split; reflexivity.
Qed.

Lemma skipWhile_length p s : (length (skipWhile p s) <= length s)%nat.
Proof.
  induction s as [|x s IH]; cbn [skipWhile]; [lia|].
  destruct (p x); cbn [length]; lia.
Qed.

Lemma trim_last s pre c : trim s = pre ++ [c] -> is_space c = false.
Proof.
  unfold trim, trimEnd. intros H. apply (f_equal (@rev N)) in H.
  rewrite rev_involutive, rev_app_distr in H. cbn [rev app] in H.
  exact (skipWhile_head _ _ _ _ H).
Qed.

Lemma trim_head s c r : trim s = c :: r -> is_space c = false.
Proof.
  unfold trim, trimEnd, trimStart. intros H.
  destruct (skipWhile_split is_space (rev (skipWhile is_space s))) as (w & Hs & _).
  apply (f_equal (@rev N)) in Hs. rewrite rev_involutive, rev_app_distr, H in Hs.
  cbn [app] in Hs. exact (skipWhile_head _ _ _ _ Hs).
Qed.

Lemma trim_length s : (length (trim s) <= length s)%nat.
Proof.
  unfold trim, trimEnd, trimStart. rewrite length_rev.
  pose proof (skipWhile_length is_space (rev (skipWhile is_space s))) as H1.
  pose proof (skipWhile_length is_space s) as H2. rewrite length_rev in H1. lia.
Qed.

Lemma trim_fixed s :
  (forall c r, s = c :: r -> is_space c = false) ->
  (forall pre c, s = pre ++ [c] -> is_space c = false) ->
  trim s = s.
Proof.
  intros Hhead Hlast. unfold trim, trimEnd, trimStart.
  assert (Hstart : skipWhile is_space s = s).
  { destruct s as [|c r]; [reflexivity|]. cbn [skipWhile].
    rewrite (Hhead c r eq_refl). reflexivity. }
  rewrite Hstart. destruct (rev s) as [|c r] eqn:Hrev.
  - apply (f_equal (@rev N)) in Hrev. rewrite rev_involutive in Hrev. symmetry.
    exact Hrev.
  - cbn [skipWhile].
    assert (Hs : s = rev r ++ [c]).
    { apply (f_equal (@rev N)) in Hrev. rewrite rev_involutive in Hrev. exact Hrev. }
    rewrite (Hlast _ _ Hs). rewrite <- Hrev. apply rev_involutive.
Qed.

Lemma replace_runs_spaces b (u : jsstring) :
  spaces_single b (replace_runs_from is_space (js " ") b u) = true.
Proof.
  revert b. induction u as [|c u IH]; intros b; [reflexivity|].
  cbn [replace_runs_from]. destruct (is_space c) eqn:Hc.
  - destruct b; [apply IH|]. change (js " ") with [32]. cbn [app spaces_single].
    change (is_space 32) with true. cbn iota. rewrite IH. reflexivity.
  - cbn [spaces_single]. rewrite Hc. apply IH.
Qed.

Lemma replace_runs_snoc p r b (u : jsstring) c :
  p c = false ->
  replace_runs_from p r b (u ++ [c]) = replace_runs_from p r b u ++ [c].
Proof.
  intros Hc. revert b. induction u as [|x u IH]; intros b; cbn [app replace_runs_from].
  - rewrite Hc. reflexivity.
  - destruct (p x); [destruct b|]; rewrite IH; try reflexivity.
    rewrite app_assoc. reflexivity.
Qed.

Lemma replace_runs_length b (u : jsstring) :
  (length (replace_runs_from is_space (js " ") b u) <= length u)%nat.
Proof.
  revert b. induction u as [|c u IH]; intros b; cbn [replace_runs_from];
    [cbn [length]; lia|].
  destruct (is_space c); [destruct b|].
  - specialize (IH true). cbn [length]. lia.
  - specialize (IH true). rewrite length_app.
    change (length (js " ")) with 1%nat. cbn [length]. lia.
  - specialize (IH false). cbn [length]. lia.
Qed.

(** X7. The text of a snapshot is in normal form: it has no white space
    at its start or at its end, its only white space code units are single
    spaces (no tab, no line feed, never two spaces in a row), and it is no
    longer than the text content of the card. *)
Theorem snapshot_text_normal_form :
  forall card : Card,
    spaces_single true (text (extractProfileData card)) = true
    /\ (forall pre c, text (extractProfileData card) = pre ++ [c] ->
                      is_space c = false)
    /\ (length (text (extractProfileData card)) <= length (textContent card))%nat.
Proof.
  intros card. rewrite extractProfileData_text.
  set (u := trim (textContent card)).
  set (v := replace_runs is_space (js " ") u).
  assert (Hhead : forall c r, v = c :: r -> is_space c = false).
  { intros c r Hv. unfold v, replace_runs in Hv. destruct u as [|x u'] eqn:Hu.
    - discriminate.
    - pose proof (trim_head _ _ _ Hu) as Hx. cbn [replace_runs_from] in Hv.
      rewrite Hx in Hv. inversion Hv; subst. exact Hx. }
  assert (Hlast : forall pre c, v = pre ++ [c] -> is_space c = false).
  { intros pre c Hv. unfold v, replace_runs in Hv.
    destruct (rev u) as [|x ru] eqn:Hrev.
    - apply (f_equal (@rev N)) in Hrev. rewrite rev_involutive in Hrev.
      rewrite Hrev in Hv. destruct pre; discriminate.
    - assert (Hu : u = rev ru ++ [x]).
      { apply (f_equal (@rev N)) in Hrev. rewrite rev_involutive in Hrev.
        exact Hrev. }
      pose proof (trim_last _ _ _ Hu) as Hx.
      rewrite Hu, (replace_runs_snoc _ _ _ _ _ Hx) in Hv.
      apply app_inj_tail in Hv as [_ <-]. exact Hx. }
  rewrite (trim_fixed v Hhead Hlast). split; [|split].
  - unfold v, replace_runs. destruct u as [|x u'] eqn:Hu; [reflexivity|].
    pose proof (trim_head _ _ _ Hu) as Hx. cbn [replace_runs_from].
    rewrite Hx. cbn [spaces_single]. rewrite Hx. apply replace_runs_spaces.
  - exact Hlast.
  - pose proof (replace_runs_length false u) as H1.
    pose proof (trim_length (textContent card)) as H2.
    unfold v, replace_runs. fold u in H2. lia.
Qed.

(** ** The card watcher: which elements are cards *)

Lemma startsWith_prefix (pat s : jsstring) :
  startsWith pat s = true -> exists post, s = pat ++ post.
Proof.
  revert s. induction pat as [|a pat IH]; intros s H; [exists s; reflexivity|].
  destruct s as [|c s]; [discriminate|]. cbn [startsWith] in H.
  apply andb_true_iff in H as [Hac Hrest]. apply N.eqb_eq in Hac as ->.
  destruct (IH s Hrest) as [post ->]. exists post. reflexivity.
Qed.

Lemma includes_occurrence (s pat : jsstring) :
  includes s pat = true <-> exists pre post, s = pre ++ pat ++ post.
Proof.
  split.
  - induction s as [|c s IH]; cbn [includes]; intros H.
    + rewrite orb_false_r in H. destruct (startsWith_prefix _ _ H) as [post Hs].
      exists [], post. exact Hs.
    + apply orb_true_iff in H as [H|H].
      * destruct (startsWith_prefix _ _ H) as [post Hs]. exists [], post. exact Hs.
      * destruct (IH H) as (pre & post & ->). exists (c :: pre), post. reflexivity.
  - intros (pre & post & ->). apply includes_app.
Qed.

Lemma includes_end_of_pattern (s a b : jsstring) :
  includes s (a ++ b) = true -> includes s b = true.
Proof.
  intros H. apply includes_occurrence in H as (pre & post & ->).
  apply includes_occurrence. exists (pre ++ a), post.
  rewrite <- !app_assoc. reflexivity.
Qed.

(** X8. An element counts as a valid invitation card exactly when its
    trimmed text has at least 10 code units, it holds no badge, and it has
    an accept button, a content area, or the word [connection] in its
    text; the test for [mutual connection] adds nothing to the last. *)
Theorem isValidInvitationCard_characterised :
  forall card : Card,
    isValidInvitationCard card
    = (10 <=? length (trim (textContent card)))%nat
      && negb (has_badge card)
      && (acceptButton card || cardContent card
          || includes (trim (textContent card)) (js "connection")).
Proof.
  intros card. unfold isValidInvitationCard.
  set (t := trim (textContent card)).
  assert (Hmutual : includes t (js "mutual connection") = true ->
                    includes t (js "connection") = true).
  { apply (includes_end_of_pattern t (js "mutual ") (js "connection")). }
  destruct (Nat.leb_spec 10 (length t)) as [Hlen|Hlen].
  - assert (Hne : is_empty t = false).
    { destruct t; [cbn in Hlen; lia|reflexivity]. }
    assert (Hlt : (length t <? 10)%nat = false) by (apply Nat.ltb_ge; exact Hlen).
    rewrite Hne, Hlt. cbn [orb andb].
    destruct (has_badge card); cbn [negb andb]; [reflexivity|].
    destruct (acceptButton card), (cardContent card); cbn [orb]; try reflexivity.
    destruct (includes t (js "mutual connection")) eqn:Hm; cbn [orb]; [|reflexivity].
    rewrite (Hmutual eq_refl). reflexivity.
  - assert (Hlt : (length t <? 10)%nat = true) by (apply Nat.ltb_lt; exact Hlen).
    rewrite Hlt, orb_true_r. reflexivity.
Qed.

Lemma querySelectorAll_spec i p e :
  In e (querySelectorAll i p)
  <-> exists card, p !! e = Some card /\ matches_selector i card = true.
Proof.
  unfold querySelectorAll. rewrite List.filter_In, in_seq. split.
  - intros [_ H]. destruct (p !! e) as [card|]; [|discriminate]. eauto.
  - intros (card & Hc & Hm). rewrite Hc. split; [|exact Hm].
    apply lookup_lt_Some in Hc. lia.
Qed.

(** The cards of one selector are added to those found so far. *)
Lemma findInvitationCards_inner (p : list Card) (l cards : list nat) x :
  In x (fold_left
          (fun cards e =>
             match p !! e with
             | Some card =>
                 if negb (existsb (Nat.eqb e) cards) && isValidInvitationCard card
                 then cards ++ [e] else cards
             | None => cards
             end) l cards)
  <-> In x cards
      \/ (In x l /\ exists card, p !! x = Some card
                                 /\ isValidInvitationCard card = true).
Proof.
  revert cards. induction l as [|e l IH]; intros cards; cbn [fold_left].
  - split; [auto|]. intros [H|[[] _]]. exact H.
  - rewrite IH. clear IH. cbn [In].
    destruct (p !! e) as [card|] eqn:Hcard.
    + destruct (existsb (Nat.eqb e) cards) eqn:Hex; cbn [negb andb].
      * apply existsb_exists in Hex as (y & Hy & Heq). apply Nat.eqb_eq in Heq.
        subst y. split; [tauto|].
        intros [H|[[<-|H] Hv]];
          [left; exact H|left; exact Hy|right; split; assumption].
      * destruct (isValidInvitationCard card) eqn:Hv.
        -- rewrite in_app_iff. cbn [In]. split.
           ++ intros [[H|[<-|[]]]|[H Hx]].
              ** left. exact H.
              ** right. split; [left; reflexivity|eauto].
              ** right. split; [right; exact H|exact Hx].
           ++ intros [H|[[<-|H] Hx]].
              ** left. left. exact H.
              ** left. right. left. reflexivity.
              ** right. split; assumption.
        -- split; [tauto|].
           intros [H|[[<-|H] (card' & Hc & Hv')]];
             [left; exact H|congruence|right; split; eauto].
    + split; [tauto|].
      intros [H|[[<-|H] (card' & Hc & Hv')]];
        [left; exact H|congruence|right; split; eauto].
Qed.

(** X9. The scan of the page finds exactly the elements that match one
    of the three card selectors and are valid invitation cards, and it
    lists each of them once, even when an element matches several
    selectors. *)
Theorem findInvitationCards_characterised :
  forall (p : list Card),
    NoDup (findInvitationCards p)
    /\ forall e, In e (findInvitationCards p)
                 <-> exists card, p !! e = Some card
                                  /\ matches_any p e = true
                                  /\ isValidInvitationCard card = true.
Proof.
  intros p. split; [apply findInvitationCards_spec|].
  intros e. unfold findInvitationCards, invitationCard_selectors.
  cbn [fold_left]. rewrite !findInvitationCards_inner, !querySelectorAll_spec.
  unfold matches_any, invitationCard_selectors. cbn [In existsb]. split.
  - intros [[[[]|[(c & Hc & Hm) (card & Hcard & Hv)]]
            |[(c & Hc & Hm) (card & Hcard & Hv)]]
           |[(c & Hc & Hm) (card & Hcard & Hv)]];
      exists card; rewrite Hcard; (split; [reflexivity|]);
      (split; [|exact Hv]); rewrite Hcard in Hc; inversion Hc; subst c;
      rewrite Hm, ?orb_true_r; reflexivity.
  - intros (card & Hcard & Hm & Hv). rewrite Hcard in Hm.
    rewrite orb_false_r in Hm.
    apply orb_true_iff in Hm as [Hm|Hm]; [|apply orb_true_iff in Hm as [Hm|Hm]].
    + left. left. right. split; eauto.
    + left. right. split; eauto.
    + right. split; eauto.
Qed.

(** ** The card watcher: badges *)

Lemma has_badge_false card : has_badge card = false -> badges card = [].
Proof.
  unfold has_badge, first_badge, document_order.
  destruct (badges card) as [|[loc b] l]; [reflexivity|].
  cbn [List.filter]. destruct (in_card (loc, b)); cbn [negb app].
  - destruct (List.filter _ l) as [|[loc' b'] l']; cbn [app]; discriminate.
  - discriminate.
Qed.

Lemma isCardProcessed_false st card :
  isCardProcessed st card = Normal false ->
  exists cardId, getCardId card = Normal cardId
                 /\ (cardId ∉ processedCards st)
                 /\ badges card = [].
Proof.
  unfold isCardProcessed, bindC. destruct (getCardId card) as [cardId|e];
    [|discriminate].
  intros H. injection H as H. apply orb_false_iff in H as [Hin Hb].
  exists cardId. split; [reflexivity|]. split.
  - apply bool_decide_eq_false in Hin. exact Hin.
  - apply has_badge_false, Hb.
Qed.

(** Handlers seen through a preorder on states that changes outside the
    page and the pending calls respect, and that the processing of a card
    without a badge respects. *)
Section BadgeGuard.

Variable R : State -> State -> Prop.
Hypothesis R_refl : forall st, R st st.
Hypothesis R_trans : forall st1 st2 st3, R st1 st2 -> R st2 st3 -> R st1 st3.
Hypothesis R_outside :
  forall st st',
    page st' = page st -> pending st' = pending st -> fresh st' = fresh st ->
    R st st'.
Hypothesis R_guarded :
  forall st e card cardId,
    page st !! e = Some card ->
    getCardId card = Normal cardId ->
    has_badge card = false ->
    R st (processInvitationCard e st).

Lemma guarded_process_unless_processed e :
  preserved R (process_unless_processed e).
Proof.
  intros st. unfold process_unless_processed.
  destruct (page st !! e) as [card|] eqn:Hcard; [|apply R_refl].
  unfold isCardProcessed, bindC.
  destruct (getCardId card) as [cardId|err] eqn:Hid; [|apply R_refl].
  destruct (bool_decide (cardId ∈ processedCards st)); [apply R_refl|].
  destruct (has_badge card) eqn:Hb; cbn [orb snd]; [apply R_refl|].
  eapply R_guarded; eassumption.
Qed.

Lemma guarded_scan l b : preserved R (forEach l process_unless_processed b).
Proof.
  apply (preserved_forEach R R_refl R_trans).
  apply guarded_process_unless_processed.
Qed.

Lemma guarded_observe_node node : preserved R (observe_node node).
Proof.
  destruct node as [|self inside]; cbn [observe_node];
    [apply (preserved_hret R R_refl)|].
  apply (preserved_hbind R R_trans).
  - intros st. destruct self as [e|]; [|apply R_refl].
    destruct (page st !! e) as [card|]; [|apply R_refl].
    destruct (isInvitationCard card); [|apply R_refl].
    apply guarded_process_unless_processed.
  - intros b1. apply (preserved_hbind R R_trans);
      [|intros b2; apply (preserved_hret R R_refl)].
    intros st. apply guarded_scan.
Qed.

Lemma guarded_emit eff : preserved R (effect (emit eff)).
Proof. intros st. apply R_outside; reflexivity. Qed.

Lemma guarded_observer_callback records : preserved R (observer_callback records).
Proof.
  unfold observer_callback. apply (preserved_hbind R R_trans).
  - apply (preserved_forEach R R_refl R_trans). intros nodes.
    apply (preserved_forEach R R_refl R_trans). apply guarded_observe_node.
  - intros [|]; [apply guarded_emit|apply (preserved_hret R R_refl)].
Qed.

Lemma guarded_processExistingCards : preserved R processExistingCards.
Proof.
  intros st. unfold processExistingCards.
  match goal with
  | |- R st (snd (hbind ?m ?k (emit ?eff st))) =>
      apply (R_trans st (emit eff st));
        [apply R_outside; reflexivity|];
        apply (preserved_hbind R R_trans m k)
  end.
  - apply guarded_scan.
  - intros b. apply (preserved_hret R R_refl).
Qed.

Lemma guarded_initialize href : preserved R (initialize href).
Proof.
  unfold initialize. apply (preserved_hbind R R_trans); [apply guarded_emit|].
  intros _. destruct (negb _); [apply guarded_emit|].
  apply (preserved_hbind R R_trans); [apply guarded_processExistingCards|].
  intros _. apply (preserved_hbind R R_trans); [|intros _; apply guarded_emit].
  intros st. apply R_outside; reflexivity.
Qed.

Lemma guarded_reload : preserved R on_extensionReloaded.
Proof.
  unfold on_extensionReloaded. apply (preserved_hbind R R_trans).
  - intros st. apply R_outside; reflexivity.
  - intros _. apply guarded_processExistingCards.
Qed.

(** Every event but the settling of a message and a change of the host
    page is respected. *)
Lemma guarded_step st ev :
  match ev with Settle _ _ | HostUpdate _ => False | _ => True end ->
  R st (step st ev).
Proof.
  intros Hev. unfold step.
  destruct ev as [href|records|k outcome| | |p|]; cbn [handle];
    try contradiction.
  - apply (preserved_hbind R R_trans); [apply guarded_initialize|].
    intros _ st'. apply R_outside; reflexivity.
  - destruct (observing st); [apply guarded_observer_callback|apply R_refl].
  - destruct (listening st); [apply guarded_reload|apply R_refl].
  - apply R_refl.
  - apply R_outside; reflexivity.
Qed.

End BadgeGuard.

Lemma keeps_badges_refl st : keeps_badges_in_order st st.
Proof. intros H. exact H. Qed.

Lemma keeps_badges_trans st1 st2 st3 :
  keeps_badges_in_order st1 st2 -> keeps_badges_in_order st2 st3 ->
  keeps_badges_in_order st1 st3.
Proof. intros H1 H2 H. apply H2, H1, H. Qed.

Lemma keeps_badges_outside st st' :
  page st' = page st -> pending st' = pending st -> fresh st' = fresh st ->
  keeps_badges_in_order st st'.
Proof. intros Hp Hq _ H. unfold badges_in_order. rewrite Hp, Hq. exact H. Qed.

Lemma keeps_badges_guarded st e card cardId :
  page st !! e = Some card ->
  getCardId card = Normal cardId ->
  has_badge card = false ->
  keeps_badges_in_order st (processInvitationCard e st).
Proof.
  intros Hcard Hid Hb [Hone Hpend].
  apply has_badge_false in Hb.
  unfold processInvitationCard. rewrite Hcard, Hid.
  destruct (_ || _); [split; assumption|].
  split;
    cbn [pending page set_pending emit update_card set_page next_fresh
         processedCards observing fresh effects set_processed].
  - intros e' card'. destruct (decide (e' = e)) as [->|Hne].
    + rewrite list_lookup_alter_eq, Hcard. cbn [fmap option_fmap option_map].
      intros H. injection H as <-. unfold insertScoreBadge. cbn [set_badges badges].
      rewrite Hb. cbn [app length]. lia.
    + rewrite list_lookup_alter_ne by congruence. apply Hone.
  - intros q Hin. apply in_app_or in Hin as [Hin|[<-|[]]].
    + destruct (Hpend q Hin) as (Hnum & cq & loc & Hcq & Hbq).
      split; [exact Hnum|]. exists cq, loc.
      split; [|assumption].
      rewrite list_lookup_alter_ne; [exact Hcq|].
      intros ->. rewrite Hcard in Hcq. injection Hcq as <-.
      rewrite Hb in Hbq. discriminate.
    + split; [reflexivity|].
      exists (insertScoreBadge (createLoadingBadge (fresh st)) card),
        (insertLocation card).
      cbn [pending_badge pending_request pending_card].
      split.
      * rewrite list_lookup_alter_eq, Hcard. reflexivity.
      * unfold insertScoreBadge. cbn [set_badges badges]. rewrite Hb. reflexivity.
Qed.

(** When a message settles, the card of the call ends with one badge. *)
Lemma keeps_badges_resume k outcome st :
  keeps_badges_in_order st (resume k outcome st).
Proof.
  intros [Hone Hpend]. unfold resume.
  destruct (List.find _ _) as [p|] eqn:Hfind; [|split; assumption].
  apply List.find_some in Hfind as [Hp Hk]. apply Nat.eqb_eq in Hk.
  destruct (Hpend p Hp) as (Hnum & card & loc & Hcard & Hb).
  assert (Hrest : forall q,
             In q (List.filter (fun q => negb (Nat.eqb (pending_request q) k))
                     (pending st)) ->
             In q (pending st) /\ pending_card q <> pending_card p).
  { intros q Hq. apply List.filter_In in Hq as [Hq Hne]. split; [exact Hq|].
    apply negb_true_iff, Nat.eqb_neq in Hne.
    destruct (Hpend q Hq) as (Hnumq & cq & locq & Hcq & Hbq).
    intros Heq. rewrite Heq, Hcard in Hcq. injection Hcq as <-.
    rewrite Hb in Hbq. injection Hbq as _ Hsame. congruence. }
  assert (Hremove : badges (remove_badge (pending_badge p) card) = []).
  { unfold remove_badge. cbn [set_badges badges]. rewrite Hb.
    cbn [List.filter snd badge_id createLoadingBadge]. rewrite Nat.eqb_refl.
    reflexivity. }
  assert (Hfirst : badges (remove_first_badge card) = []).
  { unfold remove_first_badge. cbn [set_badges badges]. rewrite Hb.
    destruct loc; reflexivity. }
  assert (Hfirst' : badges (remove_first_badge (remove_badge (pending_badge p) card))
                    = []).
  { unfold remove_first_badge. cbn [set_badges badges]. rewrite Hremove.
    reflexivity. }
  assert (Hinsert : forall x c, badges c = [] ->
                                length (badges (insertScoreBadge x c)) = 1%nat).
  { intros x c Hc. unfold insertScoreBadge. cbn [set_badges badges].
    rewrite Hc. reflexivity. }
  destruct outcome as [[[score reasoning|error]|]|error];
    unfold on_processing_error, update_card, set_page, set_pending, next_fresh, emit;
    (split; cbn [processedCards page observing fresh pending effects];
     [ intros e' card'; destruct (decide (e' = pending_card p)) as [->|Hne];
       [ rewrite !list_lookup_alter_eq, Hcard; cbn [fmap option_fmap option_map];
         intros H; injection H as <-;
         rewrite Hinsert by assumption; lia
       | rewrite !list_lookup_alter_ne by congruence; apply Hone ]
     | intros q Hq; destruct (Hrest q Hq) as [Hin Hne];
       destruct (Hpend q Hin) as (Hnumq & cq & locq & Hcq & Hbq);
       split; [exact Hnumq|]; exists cq, locq;
       rewrite !list_lookup_alter_ne by congruence;
       split; [exact Hcq|assumption] ]).
Qed.

Lemma keeps_badges_host st p :
  host_keeps_badges (page st) p -> keeps_badges_in_order st (set_page p st).
Proof.
  intros Hhost [Hone Hpend]. split; cbn [page pending set_page].
  - intros e card' Hc'. specialize (Hhost e). rewrite Hc' in Hhost.
    destruct (page st !! e) as [card|] eqn:Hc.
    + rewrite Hhost. apply (Hone e card Hc).
    + rewrite Hhost. cbn [length]. lia.
  - intros q Hq.
    destruct (Hpend q Hq) as (Hnum & card & loc & Hcard & Hb).
    split; [exact Hnum|]. specialize (Hhost (pending_card q)).
    rewrite Hcard in Hhost. destruct (p !! pending_card q) as [card'|];
      [|contradiction].
    exists card', loc. split; [reflexivity|]. rewrite Hhost. assumption.
Qed.

Lemma run_keeps_badges evs st :
  badges_in_order st -> well_hosted st evs -> badges_in_order (run st evs).
Proof.
  revert st. induction evs as [|ev evs IH]; intros st Hst Hhost; [exact Hst|].
  cbn [run fold_left]. destruct Hhost as [Hev Hrest]. apply IH; [|exact Hrest].
  clear IH Hrest. revert Hst. fold (keeps_badges_in_order st (step st ev)).
  destruct ev as [href|records|k outcome| | |p|];
    try (apply (guarded_step keeps_badges_in_order keeps_badges_refl
                  keeps_badges_trans keeps_badges_outside keeps_badges_guarded);
         exact I).
  - apply keeps_badges_resume.
  - apply keeps_badges_host, Hev.
Qed.

(** X12. On a page on which no card-like element lies inside another
    one, that starts without badges, and whose host adds elements and
    changes them but leaves the badges alone, every card bears at most one
    badge at any time, whatever events occur (reloads included) and in
    whatever order; and a card whose scoring request is in flight bears
    exactly the in-progress badge of that request. *)
Theorem at_most_one_badge_per_card :
  forall (p : list Card) (evs : list Event),
    (forall e card, p !! e = Some card -> badges card = []) ->
    well_hosted (initial p) evs ->
    (forall e card, page (run (initial p) evs) !! e = Some card ->
                    (length (badges card) <= 1)%nat)
    /\ (forall q, In q (pending (run (initial p) evs)) ->
                  exists card loc,
                    page (run (initial p) evs) !! pending_card q = Some card
                    /\ badges card
                       = [(loc, createLoadingBadge (pending_badge q))]).
Proof.
  intros p evs Hp Hhost.
  assert (Hinit : badges_in_order (initial p)).
  { split; cbn [initial page pending].
    - intros e card Hc. rewrite (Hp e card Hc). cbn [length]. lia.
    - intros q []. }
  destruct (run_keeps_badges evs (initial p) Hinit Hhost) as [Hone Hpend].
  split; [exact Hone|]. intros q Hq. destruct (Hpend q Hq) as [_ H]. exact H.
Qed.

Lemma at_most_one_badge_per_card_witness :
  (forall e card, page (run (initial [jane_with_photo]) growing_page) !! e
                  = Some card ->
                  (length (badges card) <= 1)%nat)
  /\ map (fun card => length (badges card))
       (page (run (initial [jane_with_photo]) growing_page))
     = [1%nat; 0%nat].
Proof.
  split.
  - apply (at_most_one_badge_per_card [jane_with_photo] growing_page).
    + intros [|e] card H; [injection H as <-; reflexivity|discriminate].
    + cbn [well_hosted growing_page]. split; [exact I|]. split.
      * intros [|[|e]]; vm_compute; reflexivity || exact I.
      * repeat (split; [exact I|]). exact I.
  - vm_compute. reflexivity.
Defined.

(** ** The card watcher: when nothing is watched *)

(** X13. When the script starts on a page whose address does not contain
    the path of the invitation manager, it installs no observer and
    processes nothing: as long as no reload message arrives, whatever nodes
    are added and however the page changes, no card is marked, no message
    is sent, no call is pending, and the page is as the host rendered it. *)
Theorem off_the_invitation_manager_nothing_happens :
  forall (p : list Card) (evs : list Event),
    forallb off_page evs = true ->
    observing (run (initial p) evs) = false
    /\ processedCards (run (initial p) evs) = ∅
    /\ sent_ids (effects (run (initial p) evs)) = []
    /\ pending (run (initial p) evs) = []
    /\ page (run (initial p) evs) = host_page p evs.
Proof.
  intros p evs.
  assert (H : forall st,
             forallb off_page evs = true ->
             observing st = false -> processedCards st = ∅ ->
             sent_ids (effects st) = [] -> pending st = [] ->
             observing (run st evs) = false
             /\ processedCards (run st evs) = ∅
             /\ sent_ids (effects (run st evs)) = []
             /\ pending (run st evs) = []
             /\ page (run st evs) = host_page (page st) evs).
  { induction evs as [|ev evs IH]; intros st Hevs Ho Hp Hs Hq.
    - unfold run, host_page. cbn [fold_left]. repeat split; assumption.
    - cbn [forallb] in Hevs. apply andb_true_iff in Hevs as [Hev Hevs].
      unfold run, host_page. cbn [fold_left].
      assert (Hstep : observing (step st ev) = false
                      /\ processedCards (step st ev) = ∅
                      /\ sent_ids (effects (step st ev)) = []
                      /\ pending (step st ev) = []
                      /\ page (step st ev)
                         = match ev with HostUpdate p' => p' | _ => page st end).
      { unfold step. destruct ev as [href|records|k outcome| | |p'|]; cbn [handle].
        - cbn [off_page] in Hev. unfold initialize, hbind, effect.
          rewrite Hev. cbn [snd emit set_listening observing processedCards
                            effects pending page sent_ids].
          repeat split; assumption.
        - rewrite Ho. repeat split; assumption.
        - cbn [effect snd]. unfold resume. rewrite Hq. cbn [List.find].
          repeat split; assumption.
        - discriminate.
        - repeat split; assumption.
        - cbn [effect snd set_page observing processedCards effects pending page].
          repeat split; assumption.
        - cbn [effect snd set_listening observing processedCards effects pending
               page].
          repeat split; assumption. }
      destruct Hstep as (Ho' & Hp' & Hs' & Hq' & Hpage).
      destruct (IH (step st ev) Hevs Ho' Hp' Hs' Hq') as (H1 & H2 & H3 & H4 & H5).
      unfold run in H1, H2, H3, H4, H5.
      refine (conj H1 (conj H2 (conj H3 (conj H4 _)))).
      rewrite H5, Hpage. reflexivity. }
  intros Hevs. apply (H (initial p) Hevs); reflexivity.
Qed.

Lemma off_the_invitation_manager_nothing_happens_witness :
  processedCards
    (run (initial [jane_with_photo])
       [Initialize (js "https://www.linkedin.com/feed/");
        Mutations [[Element (Some 0%nat) []]];
        HostUpdate [jane_with_photo; jane_second];
        Mutations [[Element None [0%nat; 1%nat]]]]) = ∅
  /\ sent_ids
       (effects
          (run (initial [jane_with_photo])
             [Initialize (js "https://www.linkedin.com/feed/");
              Mutations [[Element (Some 0%nat) []]];
              HostUpdate [jane_with_photo; jane_second];
              Mutations [[Element None [0%nat; 1%nat]]]])) = [].
Proof.
  destruct (off_the_invitation_manager_nothing_happens [jane_with_photo]
              [Initialize (js "https://www.linkedin.com/feed/");
               Mutations [[Element (Some 0%nat) []]];
               HostUpdate [jane_with_photo; jane_second];
               Mutations [[Element None [0%nat; 1%nat]]]])
    as (_ & Hp & Hs & _).
  - vm_compute. reflexivity.
  - split; [exact Hp|exact Hs].
Defined.

(** ** The card watcher: what the observer checks *)

(** X14. The observer validates an added element only when the element is
    itself the card.  For a card-like element that fails the validity
    check (and is unmarked and without badge): added as a node of its own
    it is ignored, and the scan does not find it either; but found inside
    an added container it is processed without the check. *)
Theorem added_descendant_is_not_validated :
  forall (st : State) (e : nat) (card : Card) (cardId : jsstring),
    observing st = true ->
    page st !! e = Some card ->
    matches_any (page st) e = true ->
    isValidInvitationCard card = false ->
    has_badge card = false ->
    getCardId card = Normal cardId ->
    (cardId ∉ processedCards st) ->
    step st (Mutations [[Element (Some e) []]]) = st
    /\ ~ In e (findInvitationCards (page st))
    /\ step st (Mutations [[Element None [e]]])
       = emit (ConsoleLog (js "LinkedIn Lead Scorer: Processed new invitation cards"))
           (processInvitationCard e st).
Proof.
  intros st e card cardId Hobs Hcard Hany Hinvalid Hbadge Hid Hnew.
  assert (Hproc : process_unless_processed e st
                  = (Normal true, processInvitationCard e st)).
  { unfold process_unless_processed, isCardProcessed. rewrite Hcard, Hid.
    cbn [bindC]. rewrite Hbadge, bool_decide_eq_false_2 by exact Hnew.
    reflexivity. }
  refine (conj _ (conj _ _)).
  - unfold step. cbn [handle]. rewrite Hobs.
    unfold observer_callback. cbn [forEach observe_node List.filter].
    unfold hbind, hret. rewrite Hcard. unfold isInvitationCard.
    rewrite Hinvalid, andb_false_r. reflexivity.
  - intros Hin. destruct (findInvitationCards_spec (page st)) as [_ Hvalid].
    destruct (Hvalid e Hin) as (card' & Hcard' & Hv). congruence.
  - unfold step. cbn [handle]. rewrite Hobs.
    unfold observer_callback. cbn [forEach observe_node List.filter].
    unfold hbind, hret. rewrite Hany. cbn [forEach]. unfold hbind, hret.
    rewrite Hproc. reflexivity.
Qed.

Lemma added_descendant_is_not_validated_witness :
  isValidInvitationCard suggestion_card = false
  /\ step (started [suggestion_card]) (Mutations [[Element (Some 0%nat) []]])
     = started [suggestion_card]
  /\ sent_ids (effects (started [suggestion_card])) = []
  /\ sent_ids
       (effects (step (started [suggestion_card])
                   (Mutations [[Element None [0%nat]]])))
     = [js "U2FtIExlZSwgUHJvZHVj"].
Proof.
  destruct (added_descendant_is_not_validated (started [suggestion_card]) 0%nat
              suggestion_card (js "U2FtIExlZSwgUHJvZHVj"))
    as (Hself & _ & Hinside).
  - vm_compute. reflexivity.
  - vm_compute. reflexivity.
  - vm_compute. reflexivity.
  - vm_compute. reflexivity.
  - vm_compute. reflexivity.
  - vm_compute. reflexivity.
  - apply (bool_decide_unpack _). vm_compute. exact I.
  - refine (conj _ (conj Hself (conj _ _))).
    + vm_compute. reflexivity.
    + vm_compute. reflexivity.
    + rewrite Hinside. vm_compute. reflexivity.
Defined.

(** ** The card watcher: a card whose identity cannot be computed *)








(** ** The popup *)

Lemma handleScoreProfile_log (provider model key : jsstring) pd net log :
  provider <> [] -> model <> [] -> key <> [] ->
  snd (handleScoreProfile (mkSettings (Some provider) (Some model) (Some key))
         pd net log)
  = snd (callLLMAPI provider model key pd net log).
Proof.
  intros Hp Hm Hk. unfold handleScoreProfile. net_unfold.
  cbn [modelProvider modelSelection apiKey setting falsy].
  destruct provider; [congruence|]. destruct model; [congruence|].
  destruct key; [congruence|]. cbn [orb].
  destruct (callLLMAPI _ _ _ pd net log) as [[result|e] log']; [|reflexivity].
  destruct (get_prop result (js "totalScore")); [|reflexivity].
  destruct (get_prop result (js "reasoning")); reflexivity.
Qed.

Lemma is_empty_false (s : jsstring) : is_empty s = false <-> s <> [].
Proof. destruct s; cbn; split; congruence. Qed.

Lemma form_is_filled (form : Popup.Form) :
  is_empty (Popup.providerValue form) || is_empty (Popup.modelValue form)
  || is_empty (trim (Popup.apiKeyValue form)) = false
  <-> Popup.providerValue form <> [] /\ Popup.modelValue form <> []
      /\ trim (Popup.apiKeyValue form) <> [].
Proof.
  rewrite !orb_false_iff, !is_empty_false. tauto.
Qed.

(** X16. The popup writes the settings exactly when the provider, the
    model and the trimmed key are all non-empty; what it writes is the
    provider, the model and the key without the white space around it, and
    the save button is released last.  With settings so written and a
    provider of [API_CONFIGS], the service worker answers every scoring
    message by one request that carries the trimmed key. *)
Theorem saved_settings_reach_the_provider :
  forall (form : Popup.Form) (stored : Completion unit),
    ((exists s, In (Popup.StorageSet s) (Popup.handleSaveSettings form stored))
     <-> Popup.providerValue form <> [] /\ Popup.modelValue form <> []
         /\ trim (Popup.apiKeyValue form) <> [])
    /\ forall s,
         In (Popup.StorageSet s) (Popup.handleSaveSettings form stored) ->
         s = mkSettings (Some (Popup.providerValue form))
               (Some (Popup.modelValue form))
               (Some (trim (Popup.apiKeyValue form)))
         /\ last (Popup.handleSaveSettings form stored)
            = Some (Popup.ButtonLoading Popup.SaveSettingsBtn false)
         /\ forall config pd net log,
              API_CONFIGS (Popup.providerValue form) = OwnConfig config ->
              snd (handleScoreProfile s pd net log)
              = log ++ [request_for config (Popup.modelValue form)
                          (trim (Popup.apiKeyValue form)) pd].
Proof.
  intros form stored.
  pose proof (form_is_filled form) as Hfilled.
  unfold Popup.handleSaveSettings, Popup.showStatusMessage, Popup.setButtonLoading.
  destruct (is_empty (Popup.providerValue form) || is_empty (Popup.modelValue form)
            || is_empty (trim (Popup.apiKeyValue form))) eqn:Hempty.
  - split.
    + split.
      * intros [s Hin]. cbn in Hin. destruct Hin as [Hin|[Hin|[]]]; discriminate.
      * intros H. apply Hfilled in H. discriminate.
    + intros s Hin. cbn in Hin. destruct Hin as [Hin|[Hin|[]]]; discriminate.
  - destruct (proj1 Hfilled eq_refl) as (Hp & Hm & Hk).
    assert (Hs : forall s,
               In (Popup.StorageSet s)
                 ([Popup.PreventDefault]
                  ++ [Popup.ButtonLoading Popup.SaveSettingsBtn true]
                  ++ [Popup.StorageSet
                        (mkSettings (Some (Popup.providerValue form))
                           (Some (Popup.modelValue form))
                           (Some (trim (Popup.apiKeyValue form))))]
                  ++ match stored with
                     | Normal _ =>
                         ([Popup.StatusShown (js "Settings saved successfully!")
                             (js "success")]
                          ++ (if jsstring_eqb (js "success") (js "success")
                              then [Popup.TimerSet Popup.HideStatus 3000] else []))
                         ++ [Popup.TimerSet Popup.CloseWindow 1500]
                     | Throw error =>
                         [Popup.ConsoleError (js "Error saving settings:") error]
                         ++ [Popup.StatusShown (js "Error saving settings") (js "error")]
                         ++ (if jsstring_eqb (js "error") (js "success")
                             then [Popup.TimerSet Popup.HideStatus 3000] else [])
                     end
                  ++ [Popup.ButtonLoading Popup.SaveSettingsBtn false]) ->
               s = mkSettings (Some (Popup.providerValue form))
                     (Some (Popup.modelValue form))
                     (Some (trim (Popup.apiKeyValue form)))).
    { intros s Hin. rewrite !in_app_iff in Hin.
      destruct Hin as [[Hin|[]]|[[Hin|[]]|[[Hin|[]]|[Hin|[Hin|[]]]]]];
        try discriminate.
      - congruence.
      - destruct stored as [u|error]; rewrite !in_app_iff in Hin.
        + destruct (jsstring_eqb (js "success") (js "success"));
            cbn in Hin; intuition discriminate.
        + destruct (jsstring_eqb (js "error") (js "success"));
            cbn in Hin; intuition discriminate. }
    split.
    + split; [intros _; auto|]. intros _. eexists.
      rewrite !in_app_iff. right. right. left. left. reflexivity.
    + intros s Hin. pose proof (Hs s Hin) as ->. refine (conj eq_refl (conj _ _)).
      * rewrite !app_assoc. apply last_snoc.
      * intros config pd net log Hconfig.
        rewrite handleScoreProfile_log by assumption.
        rewrite callLLMAPI_log, Hconfig. reflexivity.
Qed.

Lemma saved_settings_reach_the_provider_witness :
  In (Popup.StorageSet (mkSettings (Some (js "openai")) (Some (js "gpt-4o-mini"))
                          (Some (js "sk-test"))))
    (Popup.handleSaveSettings pasted_form (Normal tt))
  /\ map req_headers
       (snd (handleScoreProfile
               (mkSettings (Some (js "openai")) (Some (js "gpt-4o-mini"))
                  (Some (js "sk-test")))
               testProfileData (always 200 (js "{}")) []))
     = [[(js "Authorization", js "Bearer sk-test");
         (js "Content-Type", js "application/json")]].
Proof.
  assert (Hin : In (Popup.StorageSet
                      (mkSettings (Some (js "openai")) (Some (js "gpt-4o-mini"))
                         (Some (js "sk-test"))))
                  (Popup.handleSaveSettings pasted_form (Normal tt))).
  { vm_compute. auto. }
  split; [exact Hin|].
  destruct (saved_settings_reach_the_provider pasted_form (Normal tt)) as [_ H].
  destruct (H _ Hin) as (_ & _ & Hlog).
  rewrite (Hlog openai testProfileData (always 200 (js "{}")) [] eq_refl).
  vm_compute. reflexivity.
Defined.

(** X17. The popup offers models for exactly the providers the service
    worker can call: [updateModelSelection] enables the model drop-down,
    and fills it with models whose values are not empty, if and only if the
    provider is one of [API_CONFIGS]; for every other provider the
    drop-down holds at most the placeholder, whose value is empty. *)
Theorem offered_providers_are_supported :
  forall (provider : jsstring) (sel : Popup.Select),
    ((exists models,
        Popup.updateModelSelection provider sel
        = (Normal tt, Popup.mkSelect (Popup.placeholder :: models) false)
        /\ models <> []
        /\ Forall (fun m => Popup.value m <> []) models)
     <-> exists config, API_CONFIGS provider = OwnConfig config)
    /\ ((forall config, API_CONFIGS provider <> OwnConfig config) ->
        Popup.options (snd (Popup.updateModelSelection provider sel))
        = [Popup.placeholder]
        /\ (fst (Popup.updateModelSelection provider sel) = Normal tt ->
            Popup.disabled (snd (Popup.updateModelSelection provider sel)) = true)).
Proof.
  intros provider sel.
  unfold Popup.updateModelSelection, Popup.MODEL_CONFIGS, API_CONFIGS.
  destruct provider as [|c provider].
  { cbn [is_empty]. split.
    - split.
      + intros (models & H & _). discriminate.
      + intros [config H]. vm_compute in H. discriminate.
    - intros _. split; [reflexivity|]. intros _. reflexivity. }
  cbn [is_empty]. set (p := c :: provider).
  destruct (jsstring_eqb p (js "openai"));
    [|destruct (jsstring_eqb p (js "gemini"));
      [|destruct (jsstring_eqb p (js "anthropic"));
        [|destruct (existsb (jsstring_eqb p) Object_prototype_names)]]].
  1-3: split;
    [split;
     [intros _; eexists; reflexivity
     |intros _; eexists; split; [reflexivity|]; split; [discriminate|];
      repeat constructor; discriminate]
    |intros H; exfalso; eapply H; reflexivity].
  all: split;
    [split; [intros (models & H & _); discriminate|intros [config H]; discriminate]
    |intros _; split; [reflexivity|]; intros H; try discriminate; reflexivity].
Qed.

(** X18. The connection test from end to end.  With the three fields
    filled in, the popup disables the button, sends one [testConnection]
    message with the trimmed key, and, with the reply of the service
    worker's listener, shows [Connection successful!] exactly when
    [callLLMAPI] returned for the test profile, and otherwise
    [Connection failed: ] followed by the message of the error (or by
    [Connection failed] when the message is empty); then it releases the
    button.  The status [Error testing connection] is never shown. *)
Theorem popup_test_reports_the_call :
  forall (form : Popup.Form) (settings : Settings)
         (net : Request -> FetchOutcome) (log : list Request),
    Popup.providerValue form <> [] ->
    Popup.modelValue form <> [] ->
    trim (Popup.apiKeyValue form) <> [] ->
    Popup.handleTestConnection form
      (answer_of
         (fst (onMessage settings
                 (TestConnection (Popup.providerValue form) (Popup.modelValue form)
                    (trim (Popup.apiKeyValue form))) net log)))
    = [Popup.ButtonLoading Popup.TestConnectionBtn true;
       Popup.MessageSent
         (TestConnection (Popup.providerValue form) (Popup.modelValue form)
            (trim (Popup.apiKeyValue form)))]
      ++ match fst (callLLMAPI (Popup.providerValue form) (Popup.modelValue form)
                      (trim (Popup.apiKeyValue form)) testProfileData net log) with
         | Normal _ =>
             [Popup.StatusShown (js "Connection successful!") (js "success");
              Popup.TimerSet Popup.HideStatus 3000]
         | Throw error =>
             [Popup.StatusShown
                (js "Connection failed: "
                 ++ message_or error (js "Connection failed")) (js "error")]
         end
      ++ [Popup.ButtonLoading Popup.TestConnectionBtn false].
Proof.
  intros form settings net log Hp Hm Hk.
  unfold Popup.handleTestConnection.
  rewrite (proj2 (form_is_filled form)) by auto.
  cbn [onMessage]. unfold bind at 1.
  destruct (callLLMAPI (Popup.providerValue form) (Popup.modelValue form)
              (trim (Popup.apiKeyValue form)) testProfileData net log)
    as [[result|error] log'] eqn:Hcall.
  - rewrite (handleTestConnection_success _ _ _ _ _ _ _ Hcall). reflexivity.
  - rewrite (handleTestConnection_failure _ _ _ _ _ _ _ Hcall). reflexivity.
Qed.

Lemma popup_test_reports_the_call_witness :
  Popup.handleTestConnection pasted_form
    (answer_of
       (fst (onMessage settings_without_key
               (TestConnection (js "openai") (js "gpt-4o-mini") (js "sk-test"))
               (always 401 (js "bad key")) [])))
  = [Popup.ButtonLoading Popup.TestConnectionBtn true;
     Popup.MessageSent
       (TestConnection (js "openai") (js "gpt-4o-mini") (js "sk-test"));
     Popup.StatusShown
       (js "Connection failed: API request failed (401): bad key") (js "error");
     Popup.ButtonLoading Popup.TestConnectionBtn false].
Proof.
  etransitivity.
  - refine (popup_test_reports_the_call pasted_form settings_without_key
              (always 401 (js "bad key")) [] _ _ _); vm_compute; discriminate.
  - vm_compute. reflexivity.
Defined.

(** ** The requests in flight *)

Lemma orderly_initial p : badge_free p -> orderly (initial p).
Proof.
  intros Hp. split; [split|split]; cbn [initial page pending map].
  - intros e card Hc. rewrite (Hp e card Hc). cbn [length]. lia.
  - intros q [].
  - intros q [].
  - constructor.
Qed.

Lemma keeps_orderly_refl st : keeps_orderly st st.
Proof. intros H. exact H. Qed.

Lemma keeps_orderly_trans st1 st2 st3 :
  keeps_orderly st1 st2 -> keeps_orderly st2 st3 -> keeps_orderly st1 st3.
Proof. intros H1 H2 H. apply H2, H1, H. Qed.

Lemma keeps_orderly_outside st st' :
  page st' = page st -> pending st' = pending st -> fresh st' = fresh st ->
  keeps_orderly st st'.
Proof.
  intros Hp Hq Hf (Hb & Hn & Hd). split; [|split].
  - apply (keeps_badges_outside st st' Hp Hq Hf Hb).
  - unfold requests_fresh. rewrite Hq, Hf. exact Hn.
  - rewrite Hq. exact Hd.
Qed.

Lemma keeps_orderly_guarded st e card cardId :
  page st !! e = Some card ->
  getCardId card = Normal cardId ->
  has_badge card = false ->
  keeps_orderly st (processInvitationCard e st).
Proof.
  intros Hcard Hid Hb (Hbadges & Hn & Hd). split; [|split].
  - apply (keeps_badges_guarded st e card cardId Hcard Hid Hb Hbadges).
  - unfold processInvitationCard. rewrite Hcard, Hid.
    destruct (_ || _); [exact Hn|].
    intros q Hin. cbn in Hin. apply in_app_or in Hin as [Hin|[<-|[]]].
    + specialize (Hn q Hin). cbn. lia.
    + cbn. lia.
  - unfold processInvitationCard. rewrite Hcard, Hid.
    destruct (_ || _); [exact Hd|].
    cbn [pending set_pending emit update_card set_page next_fresh].
    rewrite map_app. cbn [map pending_request].
    apply NoDup_app. split; [exact Hd|]. split; [|apply NoDup_singleton].
    intros k Hk Hk'. apply list_elem_of_In in Hk.
    apply list_elem_of_singleton in Hk'. subst k.
    apply in_map_iff in Hk as (q & Hq & Hin). specialize (Hn q Hin).
    cbn in Hq. lia.
Qed.

Lemma NoDup_map_filter {A B} (f : A -> B) (g : A -> bool) (l : list A) :
  NoDup (map f l) -> NoDup (map f (List.filter g l)).
Proof.
  induction l as [|x l IH]; cbn [map List.filter]; [auto|].
  intros H. apply NoDup_cons in H as [Hx Hl].
  destruct (g x); [|apply IH, Hl].
  cbn [map]. apply NoDup_cons. split; [|apply IH, Hl].
  intros Hin. apply Hx. apply list_elem_of_In in Hin. apply list_elem_of_In.
  apply in_map_iff in Hin as (y & Hy & Hin). apply in_map_iff.
  exists y. split; [exact Hy|]. apply List.filter_In in Hin as [Hin _]. exact Hin.
Qed.

Lemma resume_pending k outcome st :
  pending (resume k outcome st)
  = List.filter (fun q => negb (Nat.eqb (pending_request q) k)) (pending st).
Proof.
  unfold resume. destruct (List.find _ _) as [p|] eqn:Hfind.
  - destruct outcome as [[[score reasoning|error]|]|error]; reflexivity.
  - symmetry. apply forallb_filter_id. apply forallb_forall. intros q Hq.
    apply negb_true_iff. destruct (Nat.eqb_spec (pending_request q) k) as [Hk|];
      [|reflexivity].
    apply (List.find_none _ _ Hfind) in Hq. rewrite Hk, Nat.eqb_refl in Hq.
    discriminate.
Qed.

Lemma keeps_orderly_resume k outcome st : keeps_orderly st (resume k outcome st).
Proof.
  intros (Hb & Hn & Hd). split; [|split].
  - apply (keeps_badges_resume k outcome st Hb).
  - apply (keeps_fresh_silent st _ (silent_resume k outcome st) Hn).
  - rewrite resume_pending. apply NoDup_map_filter, Hd.
Qed.

Lemma keeps_orderly_host st p :
  host_keeps_badges (page st) p -> keeps_orderly st (set_page p st).
Proof.
  intros Hhost (Hb & Hn & Hd). split; [|split].
  - apply (keeps_badges_host st p Hhost Hb).
  - exact Hn.
  - exact Hd.
Qed.

(** The order is kept in every state that a page lifetime reaches. *)
Lemma run_orderly evs st : orderly st -> well_hosted st evs -> orderly (run st evs).
Proof.
  revert st. induction evs as [|ev evs IH]; intros st Hst Hhost; [exact Hst|].
  cbn [run fold_left]. destruct Hhost as [Hev Hrest]. apply IH; [|exact Hrest].
  clear IH Hrest. revert Hst. fold (keeps_orderly st (step st ev)).
  destruct ev as [href|records|k outcome| | |p|];
    try (apply (guarded_step keeps_orderly keeps_orderly_refl keeps_orderly_trans
                  keeps_orderly_outside keeps_orderly_guarded);
         exact I).
  - apply keeps_orderly_resume.
  - apply keeps_orderly_host, Hev.
Qed.

(** *** A call stays pending until its message settles *)

Lemma stays_pending_refl st : stays_pending st st.
Proof. intros q H. exact H. Qed.

Lemma stays_pending_trans st1 st2 st3 :
  stays_pending st1 st2 -> stays_pending st2 st3 -> stays_pending st1 st3.
Proof. intros H1 H2 q H. apply H2, H1, H. Qed.

Lemma stays_pending_outside st st' :
  page st' = page st -> pending st' = pending st -> fresh st' = fresh st ->
  stays_pending st st'.
Proof. intros _ Hq _ q H. rewrite Hq. exact H. Qed.

Lemma stays_pending_guarded st e card cardId :
  page st !! e = Some card ->
  getCardId card = Normal cardId ->
  has_badge card = false ->
  stays_pending st (processInvitationCard e st).
Proof.
  intros Hcard Hid _ q Hq. unfold processInvitationCard. rewrite Hcard, Hid.
  destruct (_ || _); [exact Hq|].
  cbn [pending set_pending emit update_card set_page next_fresh].
  apply in_or_app. left. exact Hq.
Qed.

Lemma step_stays_pending st ev q :
  In q (pending st) ->
  settles (pending_request q) ev = false ->
  In q (pending (step st ev)).
Proof.
  intros Hq Hev.
  assert (Hothers : match ev with Settle _ _ | HostUpdate _ => False | _ => True end ->
                    stays_pending st (step st ev)).
  { apply (guarded_step stays_pending stays_pending_refl stays_pending_trans
             stays_pending_outside stays_pending_guarded). }
  destruct ev as [href|records|k outcome| | |p|];
    try (apply (Hothers I q Hq)).
  - unfold step. cbn [handle]. unfold effect. cbn [snd]. rewrite resume_pending.
    apply List.filter_In. split; [exact Hq|].
    cbn [settles] in Hev. rewrite Nat.eqb_sym, Hev. reflexivity.
  - exact Hq.
Qed.

Lemma run_stays_pending evs st q :
  In q (pending st) ->
  forallb (fun ev => negb (settles (pending_request q) ev)) evs = true ->
  In q (pending (run st evs)).
Proof.
  revert st. induction evs as [|ev evs IH]; intros st Hq Hevs; [exact Hq|].
  cbn [forallb] in Hevs. apply andb_true_iff in Hevs as [Hev Hevs].
  apply negb_true_iff in Hev. cbn [run fold_left]. apply IH; [|exact Hevs].
  apply step_stays_pending; assumption.
Qed.

(** *** The settling of a message *)

Lemma pending_request_inj (l : list Pending) q q' :
  NoDup (map pending_request l) -> In q l -> In q' l ->
  pending_request q' = pending_request q -> q' = q.
Proof.
  induction l as [|x l IH]; [intros _ []|]. cbn [map].
  intros Hnd Hq Hq' Heq. apply NoDup_cons in Hnd as [Hx Hl].
  assert (Hout : forall y, In y l -> pending_request y <> pending_request x).
  { intros y Hy Hsame. apply Hx. apply list_elem_of_In, in_map_iff.
    exists y. split; assumption. }
  destruct Hq as [->|Hq], Hq' as [->|Hq'].
  - reflexivity.
  - exfalso. apply (Hout q' Hq'). exact Heq.
  - exfalso. apply (Hout q Hq). symmetry. exact Heq.
  - apply IH; assumption.
Qed.

Lemma find_pending_unique (l : list Pending) q :
  NoDup (map pending_request l) -> In q l ->
  List.find (fun p => Nat.eqb (pending_request p) (pending_request q)) l = Some q.
Proof.
  intros Hnd Hq.
  destruct (List.find _ l) as [p|] eqn:Hfind.
  - apply List.find_some in Hfind as [Hp Hk]. apply Nat.eqb_eq in Hk.
    rewrite (pending_request_inj l q p Hnd Hq Hp Hk). reflexivity.
  - apply (List.find_none _ _ Hfind) in Hq. rewrite Nat.eqb_refl in Hq.
    discriminate.
Qed.

Lemma filter_pending_unique (l : list Pending) q q' :
  NoDup (map pending_request l) -> In q l ->
  In q' (List.filter (fun p => negb (Nat.eqb (pending_request p) (pending_request q))) l)
  <-> In q' l /\ q' <> q.
Proof.
  intros Hnd Hq. rewrite List.filter_In, negb_true_iff, Nat.eqb_neq. split.
  - intros [Hin Hne]. split; [exact Hin|]. intros ->. apply Hne. reflexivity.
  - intros [Hin Hne]. split; [exact Hin|]. intros Heq. apply Hne.
    apply (pending_request_inj l q q' Hnd Hq Hin Heq).
Qed.

(** When the message of a pending call settles, in whatever state, the
    badge that tells the outcome replaces the in-progress badge on the
    element the call was made for. *)
Lemma settle_pending st q outcome :
  orderly st -> In q (pending st) ->
  renders st (step st (Settle (pending_request q) outcome)) (pending_card q)
    (final_badge outcome (fresh st))
  /\ (forall q', In q' (pending (step st (Settle (pending_request q) outcome)))
                 <-> In q' (pending st) /\ q' <> q)
  /\ processedCards (step st (Settle (pending_request q) outcome))
     = processedCards st
  /\ effects (step st (Settle (pending_request q) outcome))
     = final_console outcome :: effects st.
Proof.
  intros ([_ Hpend] & _ & Hnd) Hq.
  destruct (Hpend q Hq) as (Hnum & card & loc & Hcard & Hb).
  split; [|split].
  2:{ intros q'. unfold step. cbn [handle]. unfold effect. cbn [snd].
      rewrite resume_pending. apply filter_pending_unique; assumption. }
  2:{ unfold step. cbn [handle]. unfold effect. cbn [snd]. unfold resume.
      rewrite (find_pending_unique _ q Hnd Hq).
      destruct outcome as [[[score reasoning|error]|]|error]; split; reflexivity. }
  exists card. split; [exact Hcard|].
  unfold step. cbn [handle]. unfold effect. cbn [snd]. unfold resume.
  rewrite (find_pending_unique _ q Hnd Hq).
  assert (Hremove : remove_badge (pending_badge q) card = set_badges [] card).
  { unfold remove_badge. rewrite Hb.
    cbn [List.filter snd badge_id createLoadingBadge]. rewrite Nat.eqb_refl.
    reflexivity. }
  assert (Hfirst : remove_first_badge card = set_badges [] card).
  { unfold remove_first_badge. rewrite Hb. destruct loc; reflexivity. }
  assert (Hnone : remove_first_badge (set_badges [] card) = set_badges [] card).
  { reflexivity. }
  assert (Hinsert : forall b,
             insertScoreBadge b (set_badges [] card)
             = set_badges [(insertLocation card, b)] card).
  { intros b. reflexivity. }
  destruct outcome as [[[score reasoning|error]|]|error];
    unfold on_processing_error, update_card, set_page, set_pending, next_fresh, emit;
    cbn [processedCards page observing listening fresh pending effects final_badge];
    (split; [rewrite !list_lookup_alter_eq, Hcard;
             cbn [fmap option_fmap option_map];
             rewrite ?Hremove, ?Hfirst, ?Hnone, Hinsert; reflexivity|]);
    intros e' Hne; rewrite !list_lookup_alter_ne by congruence; reflexivity.
Qed.

Lemma processInvitationCard_suspends st e card :
  page st !! e = Some card ->
  isCardProcessed st card = Normal false ->
  (10 <= length (text (extractProfileData card)))%nat ->
  exists cardId,
    getCardId card = Normal cardId
    /\ sends st e (fresh st) cardId (extractProfileData card).
Proof.
  intros Hcard Hproc Hlong.
  destruct (isCardProcessed_false st card Hproc) as (cardId & Hid & _ & _).
  exists cardId. split; [exact Hid|]. unfold sends.
  rewrite (processInvitationCard_sends st e card cardId Hcard Hid Hlong).
  split; reflexivity.
Qed.

Lemma sent_ids_In k id pd effs : In (Sent k id pd) effs -> In id (sent_ids effs).
Proof.
  induction effs as [|eff effs IH]; [intros []|].
  intros [->|H].
  - left. reflexivity.
  - destruct eff; cbn [sent_ids]; try (apply IH, H). right. apply IH, H.
Qed.

(** Without a reload, the identity of every message sent is in the set. *)
Lemma sent_is_marked p evs k id pd :
  no_reload evs = true ->
  In (Sent k id pd) (effects (run (initial p) evs)) ->
  id ∈ processedCards (run (initial p) evs).
Proof.
  intros Hevs Hsent. apply sent_ids_In in Hsent.
  destruct (run_extends evs (initial p) Hevs) as [_ (news & Hs & _ & Hnews)].
  rewrite Hs in Hsent. cbn [initial effects sent_ids] in Hsent.
  rewrite app_nil_r in Hsent. apply (Hnews id Hsent).
Qed.

Lemma badge_free_two : badge_free [jane_with_photo; bob_roe].
Proof.
  intros [|[|e]] card H; cbn in H; try discriminate; injection H as <-; reflexivity.
Qed.

(** ** A reply, whenever it arrives *)

(** X10. A card that is not yet processed and has a long enough snapshot
    is processed: the call sends its message and is recorded as pending
    for that element.  The call stays pending, whatever happens, until its
    message settles.  And in every state a page lifetime reaches (other
    messages sent or settled before, observer firings, reloads, changes of
    the page by a host that leaves the badges alone), when the message of
    a pending call settles with a score, the in-progress badge of the
    call's element is replaced by a score badge, which is the only badge
    of that element: its class is the tier of the score, its title the
    reasoning and its text the score.  No other element changes (no
    card-like element lies inside another one), no other call stops being
    pending, and the console gets the score line. *)
Theorem score_reply_renders_score_badge :
  (forall (st : State) (e : nat) (card : Card),
      page st !! e = Some card ->
      isCardProcessed st card = Normal false ->
      (10 <= length (text (extractProfileData card)))%nat ->
      exists cardId,
        getCardId card = Normal cardId
        /\ sends st e (fresh st) cardId (extractProfileData card))
  /\ (forall (st : State) (evs : list Event) (q : Pending),
         In q (pending st) ->
         forallb (fun ev => negb (settles (pending_request q) ev)) evs = true ->
         In q (pending (run st evs)))
  /\ (forall (p : list Card) (evs : list Event) (q : Pending)
             (score : JsNumber) (reasoning : jsstring),
         badge_free p ->
         well_hosted (initial p) evs ->
         In q (pending (run (initial p) evs)) ->
         exists badge,
           renders (run (initial p) evs)
             (step (run (initial p) evs)
                (Settle (pending_request q)
                   (Resolved (Some (ScoreResponse score reasoning)))))
             (pending_card q) badge
           /\ className badge
              = js "lead-scorer-badge lead-scorer-score " ++ getScoreClass score
           /\ title badge = reasoning
           /\ badge_textContent badge
              = two_lines (num_to_string score) (js "Lead Score")
           /\ (forall q',
                  In q' (pending
                           (step (run (initial p) evs)
                              (Settle (pending_request q)
                                 (Resolved (Some (ScoreResponse score reasoning))))))
                  <-> In q' (pending (run (initial p) evs)) /\ q' <> q)
           /\ effects
                (step (run (initial p) evs)
                   (Settle (pending_request q)
                      (Resolved (Some (ScoreResponse score reasoning)))))
              = ConsoleLog (js "LinkedIn Lead Scorer: Scored profile - Score: "
                            ++ num_to_string score)
                :: effects (run (initial p) evs)).
Proof.
  split; [|split].
  - apply processInvitationCard_suspends.
  - intros st evs q. apply run_stays_pending.
  - intros p evs q score reasoning Hp Hhost Hq.
    pose proof (run_orderly evs (initial p) (orderly_initial p Hp) Hhost) as Hord.
    destruct (settle_pending (run (initial p) evs) q
                (Resolved (Some (ScoreResponse score reasoning))) Hord Hq)
      as (Hrenders & Hpending & _ & Heffects).
    exists (createScoreBadge score reasoning (fresh (run (initial p) evs))).
    split; [exact Hrenders|]. split; [reflexivity|]. split; [reflexivity|].
    split; [reflexivity|]. split; [exact Hpending|exact Heffects].
Qed.

Lemma score_reply_renders_score_badge_witness :
  map (fun card => map (fun b => className (snd b)) (badges card))
    (page (step two_in_flight (Settle 0 excellent_reply)))
  = [[js "lead-scorer-badge lead-scorer-score score-excellent"];
     [js "lead-scorer-badge lead-scorer-loading"]]
  /\ exists badge,
       renders two_in_flight (step two_in_flight (Settle 0 excellent_reply))
         0%nat badge
       /\ title badge = js "Founder keyword +10, SF +5, industry +5, photo +1".
Proof.
  split; [vm_compute; reflexivity|].
  destruct (proj2 (proj2 score_reply_renders_score_badge)
              [jane_with_photo; bob_roe] [Initialize received_href]
              (mkPending 0 0 0) (num_of_Z 21)
              (js "Founder keyword +10, SF +5, industry +5, photo +1"))
    as (badge & Hrenders & _ & Htitle & _).
  - exact badge_free_two.
  - cbn [well_hosted]. split; exact I.
  - vm_compute. left. reflexivity.
  - exists badge. split; [exact Hrenders|exact Htitle].
Defined.

(** X11. In every state a page lifetime reaches, when the message of a
    pending call is not answered (the promise of [sendMessage] is
    rejected, or resolves with [undefined]), the [catch] block replaces the
    in-progress badge of the call's element by an error badge, the only
    badge of that element, of class [lead-scorer-error] and titled
    [Processing failed], and reports the error on the console; no other
    element changes (no card-like element lies inside another one).  When
    no reload message arrived since the start, the
    identity for which the message was sent is in the set and stays there,
    and no further message is sent for it, until a reload. *)
Theorem unanswered_message_renders_error_badge :
  forall (p : list Card) (evs : list Event) (q : Pending) (outcome : Settled),
    badge_free p ->
    well_hosted (initial p) evs ->
    In q (pending (run (initial p) evs)) ->
    outcome = Resolved None \/ (exists error, outcome = Rejected error) ->
    exists badge detail,
      renders (run (initial p) evs)
        (step (run (initial p) evs) (Settle (pending_request q) outcome))
        (pending_card q) badge
      /\ className badge = js "lead-scorer-badge lead-scorer-error"
      /\ title badge = js "Processing failed"
      /\ effects (step (run (initial p) evs) (Settle (pending_request q) outcome))
         = ConsoleError (js "LinkedIn Lead Scorer: Error processing card:") detail
           :: effects (run (initial p) evs)
      /\ (forall q',
             In q' (pending (step (run (initial p) evs)
                              (Settle (pending_request q) outcome)))
             <-> In q' (pending (run (initial p) evs)) /\ q' <> q)
      /\ (no_reload evs = true ->
          forall cardId pd,
            In (Sent (pending_request q) cardId pd) (effects (run (initial p) evs)) ->
            forall evs',
              no_reload evs' = true ->
              cardId ∈ processedCards
                         (run (step (run (initial p) evs)
                                 (Settle (pending_request q) outcome)) evs')
              /\ submissions cardId
                   (effects (run (step (run (initial p) evs)
                                    (Settle (pending_request q) outcome)) evs'))
                 = submissions cardId
                     (effects (step (run (initial p) evs)
                                 (Settle (pending_request q) outcome)))).
Proof.
  intros p evs q outcome Hp Hhost Hq Hout.
  pose proof (run_orderly evs (initial p) (orderly_initial p Hp) Hhost) as Hord.
  destruct (settle_pending (run (initial p) evs) q outcome Hord Hq)
    as (Hrenders & Hpending & Hset & Heffects).
  exists (createErrorBadge (js "Processing failed") (fresh (run (initial p) evs))).
  assert (Hbadge : final_badge outcome (fresh (run (initial p) evs))
                   = createErrorBadge (js "Processing failed")
                       (fresh (run (initial p) evs))).
  { destruct Hout as [->|[error ->]]; reflexivity. }
  rewrite Hbadge in Hrenders.
  assert (Hconsole : exists detail,
             final_console outcome
             = ConsoleError (js "LinkedIn Lead Scorer: Error processing card:")
                 detail).
  { destruct Hout as [->|[error ->]]; eexists; reflexivity. }
  destruct Hconsole as [detail Hdetail]. exists detail.
  split; [exact Hrenders|]. split; [reflexivity|]. split; [reflexivity|].
  split; [rewrite Heffects, Hdetail; reflexivity|]. split; [exact Hpending|].
  intros Hevs cardId pd Hsent evs' Hevs'.
  apply no_resubmission; [exact Hevs'|]. rewrite Hset.
  apply (sent_is_marked p evs _ cardId pd Hevs Hsent).
Qed.

Lemma unanswered_message_renders_error_badge_witness :
  map (fun card => map (fun b => className (snd b)) (badges card))
    (page (step two_in_flight (Settle 0 (Resolved None))))
  = [[js "lead-scorer-badge lead-scorer-error"];
     [js "lead-scorer-badge lead-scorer-loading"]]
  /\ exists badge,
       renders two_in_flight (step two_in_flight (Settle 0 (Resolved None)))
         0%nat badge
       /\ title badge = js "Processing failed".
Proof.
  split; [vm_compute; reflexivity|].
  destruct (unanswered_message_renders_error_badge
              [jane_with_photo; bob_roe] [Initialize received_href]
              (mkPending 0 0 0) (Resolved None))
    as (badge & detail & Hrenders & _ & Htitle & _).
  - exact badge_free_two.
  - cbn [well_hosted]. split; exact I.
  - vm_compute. left. reflexivity.
  - left. reflexivity.
  - exists badge. split; [exact Hrenders|exact Htitle].
Defined.

(** ** A scoring request from end to end *)





